(* ===== verification/_CoqProject ===== *)
-Q . S2P
Prelude.v
RegexSyntax.v
JsRegex.v
RegexLang.v
ChunkRules.v
ChunkOrder.v
Prefetch.v
JsValue.v
Config.v
Loaders.v
Warmup.v
Factory.v
Callbacks.v
LintConfig.v
SplitChunks.v
