(* ===== verification/Prelude.v ===== *)
(** * A verification library for [webpack-config]

    ** The program

    [src/index.js] exports one function,
    [module.exports = (projectAbsolutePath, options, customConfig = {}) => ...],
    which builds a webpack configuration object: it destructures [options]
    with thirteen defaults (lines 40-54), builds an object literal (lines
    57-498) and merges [customConfig] into it with [webpack-merge], then
    wraps the result with [SpeedMeasureWebpackPlugin] when
    [needSpeedMeasure] is truthy (lines 502-507).  The literal holds data
    for webpack ([output], [resolve], [module.rules], [devServer], the
    plugin list) and three callbacks that webpack and [HtmlWebpackPlugin]
    call back during a build:

    - the [name] functions of the cache groups [bundle] and [dynamic]
      (lines 161-195): [bundle.name] cuts a package name out of
      [module.context] with [/[\\/]node_modules[\\/](.*?)([\\/]|$)/] and
      returns the label of the first of the eleven closures of
      [chunkRules] (lines 81-160) that returns a truthy value;
      [dynamic.name] builds [app.<seg>.dynamic] from the second capture of
      [/[\\/]node_modules[\\/](.*?)[\\/](.*?)([\\/]|$)/];
    - [chunksSortMode] (lines 209-222), the comparator [HtmlWebpackPlugin]
      sorts the chunks with: the difference of the indices, in a fixed
      table, of the first dot-separated segment of each chunk's first name;
    - [templateParameters] (lines 224-231): the emitted assets whose name
      matches [/\.dynamic\./], prefixed with [publicPath].

    [src/.eslintrc.js] and [src/.prettierrc.js] export the lint
    configurations as object literals.

    ** Files, and how they correspond to the code

    - [Prelude] (this file): JavaScript strings as lists of code units
      ([jstr]), the [result] type of computations that throw a
      [TypeError] with its [let!] notation (scope [wpc_scope]), the hint
      databases [wpc] and [wpc_rw], list lemmas shared by the components.
    - [RegexSyntax], [JsRegex], [RegexLang]: the JavaScript regular
      expressions the source relies on (runtime semantics, not code of the
      repository).  [parse] reads a literal's pattern text into [regex];
      [mtch] is the backtracking matcher of ECMAScript as an ordered list
      of successes (captures reset on each iteration, empty iterations
      rejected, greedy and lazy loops); [exec], [test] and [match_index]
      are [RegExp.prototype.exec], [test] and [String.prototype.match]
      followed by an index; [parse_fuel_adequate] shows that the fuel of
      [parse] is enough.  [sem] is a relational semantics; [mtch_sem]
      proves the matcher sound and complete for it and [exec_leftmost]
      that [exec] finds the leftmost match.  [RegexLang] computes the
      finite language of the loop-free, [$]-anchored patterns of the loader
      rules and reduces their [test] to suffix checks ([test_anchored]).
    - [ChunkRules]: [chunkRules] (one definition per closure), the loop
      [first_rule], [bundle_name], [dynamic_name] and the cache groups,
      with a direct scanner of paths ([find_package], [find_dynamic])
      proved equal to the two [match] calls.
    - [ChunkOrder]: [chunksSortMode] and the stable insertion sort that
      models [Array.prototype.sort] on it, with its bucket specification.
    - [Prefetch]: [templateParameters] and the key order of [Object.keys].
    - [JsValue]: JavaScript values for the configuration object, ToBoolean
      ([truthy]), property access, object literals with spread and
      duplicate keys ([obj_lit], whose keys are distinct: [obj_lit_nodup]),
      array literals with spread ([arr_lit]), ToString ([to_string]).
    - [Config]: [read_options] (the destructuring) and the sections
      [output], [mode]/[stats], [optimization], [resolve], [plugins],
      [devServer] of the literal.
    - [Loaders]: the ten rules of [module.rules], one definition each, and
      webpack 4's reading of a rule ([test] pattern, [include] prefixes,
      [use] or [loader]/[options]) giving [loaders_for] a file.
    - [Warmup]: the effect of loading the module ([load_effects]: the
      [thread-loader] warm-up of lines 11-18), and the modules the workers
      of the rules' [thread-loader] pools require: the loaders, and the
      presets and plugins of [babel-loader] under the names [@babel/core]'s
      [standardizeName] resolves them to.
    - [Factory]: the literal [base_config], [webpack-merge] 4 ([join] is
      its [joinArrays] customizer, [merge] its [mergeTo] over
      [Object.keys]) and [create_config], the exported function, with
      Node's argument check of [path.resolve] ([check_path]); [obj_map],
      the abstract view of an object as a [gmap] from keys to values.
    - [Callbacks]: [call], the meaning of the functions held by the
      configuration, on the objects webpack and [HtmlWebpackPlugin] pass
      them: the [name] functions of the cache groups run [bundle_name] and
      [dynamic_name] on a module, [chunksSortMode] reads
      [chunk.names[0]] of two chunks, [templateParameters] reads
      [Object.keys(compilation.assets)] and prints the [publicPath] it
      captured with ToString ([JsValue.to_string]); the function [merge]
      makes of two functions calls both and joins their results.  What
      the JavaScript around the configuration contributes (the functions
      of a [customConfig], the text of symbolic values) is the class
      [js_env].
    - [LintConfig]: [eslint_config] and [prettier_config], the two object
      literals.
    - [SplitChunks]: the [chunks] filters of the cache groups
      ([chunks_admit], with [splitChunks.chunks] as the fallback) and the
      groups whose test ([ChunkRules.group_applies], webpack 4's
      [checkTest] on the module's resource and its chunks' names) and
      filter take a module of an initial or async chunk
      ([selecting_groups]).

    ** What the theorems show

    - C1-C6 ([ChunkRules]): [bundle.name] is total on contexts that
      contain a package and returns one of the eleven labels, the first
      rule's; both names are characterised on well-formed
      [node_modules] paths; [dynamic.name] throws for a module at a
      package root; the [^] of [/^dva|redux|react/] binds to [dva] only.
    - C7-C10 ([ChunkOrder]): the sort with [chunksSortMode] refines a
      bucket specification (grouped by key, stable), is a sorted stable
      permutation, the comparator is consistent and bounded, and the sort
      throws exactly when a chunk without names meets another.
    - C11-C12 ([Prefetch]): the prefetch list is the assets containing
      [.dynamic.] in emission order; every asset of a dynamic chunk is in it.
    - C13-C16 ([Factory]): exactly when the factory throws (no [options],
      a project path that is not a string, a [null] [customConfig]); the
      effect of [isProduction] by truthiness; [customConfig] omitted
      changes nothing; custom plugins are appended.
    - C17-C20 ([Loaders]): the loaders of an application [.less] file, of
      a path ending in a dot (TypeScript), of images (with or without
      TinyPNG), of plain [.css].
    - C21 ([Warmup]): the warm-up prepares the pool the rules use, and the
      modules its workers load cold are exactly [@babel/preset-typescript]
      and the five Babel plugins.
    - C22 ([ChunkOrder], composing [ChunkRules]): the comparator keys of
      every chunk the cache groups name; the [bundle] labels other than
      [polyfill] and [antv] sort before [polyfill].
    - C23 ([Factory]): as a finite map, the configuration is the union of
      the literal and [customConfig] under [joinArrays] (refinement of the
      abstract merge by the association lists).
    - C24 ([ChunkRules]): a module under [node_modules_cache] passes the
      [bundle] group's test and makes its [name] throw.
    - C25 ([Callbacks], composing [Factory] and [ChunkRules]): a custom
      [bundle.name] is joined with the factory's, not substituted: both
      run, and the factory's exception escapes.
    - C26 ([Loaders]): the loaders of every [.less] file: the prefix
      conditions take [src-legacy/] and [node_modules/antd-mobile/] in,
      and the [.less] of any other package gets no loader.
    - C27 ([Callbacks], composing [Config] and [Prefetch]): the prefetch
      closure prints the captured [publicPath]; [publicPath: null] is
      kept, and every prefetch URL then starts with [null].
    - C28 ([SplitChunks]): the groups overlap ([bundle] with [initial] on
      initial chunks, with [dynamic] on async ones) and none sets a
      priority.

    ** Bounds and fuel

    [mtch] recurses on the pattern; its loops [*] and [+] run
    [star_iter] with fuel [S (length s)], which is enough because every
    iteration that continues consumes a character ([mtch_star_fuel]:
    more fuel gives the same result).  [search] recurses on the input.
    [parse] has fuel [4 * (length s + 1)]: every call of its descent
    reads a character or goes one level down the four-level grammar, so
    any larger fuel gives the same result ([RegexSyntax.parse_fuel],
    [parse_fuel_adequate]).
    [Array.prototype.sort] is modelled as a stable insertion sort:
    ECMAScript requires a stable sort and, on a consistent comparator
    (C9), every stable sort returns the same permutation.  Numbers are
    the integers of the source ([Z]); no operation of the source
    overflows.

    ** Not modelled

    webpack's module graph and [SplitChunksPlugin]'s final choice between
    the cache groups that take a module ([SplitChunks] computes which ones
    do): it depends on the module graph, on module sizes and on the
    default groups webpack adds ([vendors], [default]), none of which the
    repository contains, so a model would be a model of webpack, not of
    this code.  The internals of the plugins
    and loaders, the dev server and the workers [thread-loader] starts
    (only the warm-up call is modelled, as an effect value) are outside
    the repository as well, and so are the [require]s of lines 1-10,
    which only bind names: only the values handed to these libraries and
    the callbacks they call are modelled; where the source depends on a
    library's reading of its values (webpack's rules and [checkTest],
    [webpack-merge], Babel's [standardizeName], [HtmlWebpackPlugin]'s
    chunk objects, with [names] as in its version 3 that webpack 4 uses),
    that reading is written from the library.
    [path.resolve] checks its arguments (a project path that is not a
    string throws, [check_path]); its result is kept symbolic, and read
    for absolute project paths without trailing separator and relative
    paths without [..], the only arguments the source builds when the
    project path is normalised.  Strings are sequences of ASCII code
    units: no pattern of the source mentions other characters, and they
    behave like any ordinary character.

    The functions a [customConfig] supplies are JavaScript outside the
    repository: [Callbacks] takes their results as a parameter
    ([js_env]), and so is the text of a closure or of an external value
    printed by a template literal.  Objects keep their keys in insertion
    order, while JavaScript enumerates integer-like keys first ([Prefetch]
    models that order where the source enumerates keys, in
    [Object.keys(compilation.assets)]); no key of the configuration is
    integer-like, and the values [merge] computes do not depend on the
    order.

    Every function of the program terminates and none reacts to an
    unbounded stream of events; its loops (over the rules of
    [chunkRules], the regex input, the chunks to sort, the keys to merge)
    run on finite lists by structural recursion.

    ** Later work

    The [include] conditions of the loader rules for [path.resolve]
    arguments with [..] or a trailing separator. *)

From Stdlib Require Export Ascii String.
From stdpp Require Export base list strings.

Declare Scope wpc_scope.
Delimit Scope wpc_scope with wpc.
Open Scope wpc_scope.

(** ** JavaScript strings

    A JavaScript string is a sequence of code units; we keep it as a list
    of characters so that the list library applies to it. *)

Abbreviation jstr := (list ascii).

(** A string literal of the source, as a [jstr]. *)
Definition str (s : string) : jstr := list_ascii_of_string s.

(** The line terminators of ECMAScript restricted to ASCII: [.] does not
    match them. *)
Definition is_line_terminator (c : ascii) : bool :=
  bool_decide (c = "010"%char) || bool_decide (c = "013"%char).

(** ** Computations that may throw

    The only exception the modelled code can raise is a [TypeError]
    (reading a property of [null] or [undefined]). *)

Inductive js_error :=
  | TypeError (what : string).

Inductive result (A : Type) :=
  | Ok (a : A)
  | Throw (e : js_error).
Arguments Ok {A} a.
Arguments Throw {A} e.

Definition rbind {A B} (m : result A) (k : A -> result B) : result B :=
  match m with
  | Ok a => k a
  | Throw e => Throw e
  end.

Notation "'let!' x ':=' m 'in' k" := (rbind m (fun x => k))
  (at level 10, x name, m at level 100, k at level 200) : wpc_scope.

Definition is_ok {A} (r : result A) : bool :=
  match r with Ok _ => true | Throw _ => false end.

Create HintDb wpc discriminated.
Create Rewrite HintDb wpc_rw.
#[export] Hint Constants Transparent : wpc.

Lemma rbind_ok {A B} (a : A) (k : A -> result B) : rbind (Ok a) k = k a.
Proof. reflexivity. Qed.

Lemma rbind_throw {A B} e (k : A -> result B) : rbind (Throw e) k = Throw e.
Proof. reflexivity. Qed.

Lemma rbind_eq_ok {A B} (m : result A) (k : A -> result B) b :
  rbind m k = Ok b -> exists a, m = Ok a /\ k a = Ok b.
Proof. destruct m; simpl; [eauto | discriminate]. Qed.

#[export] Hint Rewrite @rbind_ok @rbind_throw : wpc_rw.

(** ** Shared list lemmas *)

(** A greedy quantifier puts its fallback last, a lazy one first: either
    way the same elements. *)
Lemma in_if_app_cons {A} (g : bool) (l : list A) y x :
  In x (if g then l ++ [y] else y :: l) <-> In x l \/ x = y.
Proof. destruct g; rewrite ?in_app_iff; simpl; intuition auto. Qed.

Lemma flat_map_map {A B C} (f : B -> list C) (g : A -> B) (l : list A) :
  flat_map f (map g l) = flat_map (fun x => f (g x)) l.
Proof. induction l as [|x l IH]; simpl; [done|by rewrite IH]. Qed.

Lemma flat_map_seq_nil {X} (f : nat -> list X) a m :
  (forall i, a <= i -> i < a + m -> f i = []) -> flat_map f (seq a m) = [].
Proof.
  revert a. induction m as [|m IH]; intros a H; simpl; [done|].
  rewrite H by lia. apply IH. intros i ??. apply H; lia.
Qed.

(** The first success of a search over [0, 1, ..., m-1]: everything before
    [k] fails and [k] succeeds. *)
Lemma head_flat_map_seq {X} (f : nat -> list X) m k :
  k < m -> (forall i, i < k -> f i = []) -> f k <> [] ->
  head (flat_map f (seq 0 m)) = head (f k).
Proof.
  intros Hk Hbefore Hfk.
  replace m with (k + S (m - S k)) by lia. rewrite seq_app, flat_map_app.
  rewrite flat_map_seq_nil by (intros i ??; apply Hbefore; lia).
  simpl. destruct (f k); [done|reflexivity].
Qed.

(** The text a capture group records: what lies between the start [t] and
    the suffix [drop i t] is [take i t]. *)
Lemma take_sub_drop {A} (t : list A) i : take (length t - length (drop i t)) t = take i t.
Proof.
  rewrite length_drop. destruct (decide (i <= length t)).
  - by replace (length t - (length t - i)) with i by lia.
  - rewrite !take_ge by lia. done.
Qed.

(** [strip_prefix p s]: the rest of [s] after the prefix [p], if [s] starts
    with [p]. *)
Fixpoint strip_prefix (p s : jstr) : option jstr :=
  match p, s with
  | [], _ => Some s
  | a :: p', b :: s' => if bool_decide (a = b) then strip_prefix p' s' else None
  | _ :: _, [] => None
  end.

Lemma strip_prefix_app p s : strip_prefix p (p ++ s) = Some s.
Proof. induction p; simpl; [done|]. by rewrite bool_decide_eq_true_2. Qed.

Lemma strip_prefix_some p s s' : strip_prefix p s = Some s' -> s = p ++ s'.
Proof.
  revert s. induction p as [|a p IH]; intros [|b s] H; simpl in *; try congruence.
  case_bool_decide; [subst|done]. by rewrite (IH s H).
Qed.

#[export] Hint Rewrite @flat_map_map @take_sub_drop @strip_prefix_app : wpc_rw.

(** [first_at F s]: the result of [F] at the first suffix of [s] (from [s]
    itself down to the empty suffix) where it gives one. *)
Fixpoint first_at {X} (F : jstr -> option X) (s : jstr) : option X :=
  match F s with
  | Some x => Some x
  | None => match s with [] => None | _ :: s' => first_at F s' end
  end.

Lemma first_at_map {X Y} (f : X -> Y) (F : jstr -> option X) s :
  first_at (fun u => option_map f (F u)) s = option_map f (first_at F s).
Proof. induction s as [|a s IH]; simpl; destruct (F _); simpl; done. Qed.

(** Positions of a prefix where [F] fails can be skipped. *)
Lemma first_at_app {X} (F : jstr -> option X) p s :
  (forall i, i < length p -> F (drop i p ++ s) = None) ->
  first_at F (p ++ s) = first_at F s.
Proof.
  induction p as [|a p IH]; intros H; simpl; [done|].
  pose proof (H 0 ltac:(simpl; lia)) as H0. simpl in H0. rewrite H0. apply IH. intros i Hi. apply (H (S i)). simpl; lia.
Qed.

Lemma first_at_none {X} (F : jstr -> option X) s :
  (forall i, i <= length s -> F (drop i s) = None) -> first_at F s = None.
Proof.
  induction s as [|a s IH]; intros H; simpl.
  - pose proof (H 0 ltac:(simpl; lia)) as H0. simpl in H0. by rewrite H0.
  - pose proof (H 0 ltac:(simpl; lia)) as H0. simpl in H0. rewrite H0.
    apply IH. intros i Hi. apply (H (S i)). simpl; lia.
Qed.

(** [contains p s]: [p] occurs in [s]. *)
Definition contains (p s : jstr) : Prop := exists a b, s = a ++ p ++ b.

Definition containsb (p s : jstr) : bool :=
  existsb (fun i => bool_decide (take (length p) (drop i s) = p)) (seq 0 (S (length s))).

Lemma containsb_spec p s : containsb p s = true <-> contains p s.
Proof.
  unfold containsb. rewrite existsb_exists. split.
  - intros (i & Hi & Hp). apply bool_decide_eq_true_1 in Hp.
    exists (take i s), (drop (length p) (drop i s)).
    transitivity (take i s ++ drop i s); [by rewrite take_drop|]. f_equal.
    rewrite <- (take_drop (length p) (drop i s)) at 1. by rewrite Hp.
  - intros (a & b & ->). exists (length a). split.
    + apply in_seq. rewrite !length_app. lia.
    + apply bool_decide_eq_true_2. by rewrite drop_app_length, take_app_length.
Qed.

#[export] Instance contains_dec p s : Decision (contains p s).
Proof.
  destruct (containsb p s) eqn:E; [left|right]; rewrite <- containsb_spec; [done|].
  by rewrite E.
Defined.

Lemma flat_map_ext_in {A B} (f g : A -> list B) (l : list A) :
  (forall a, In a l -> f a = g a) -> flat_map f l = flat_map g l.
Proof.
  induction l as [|a l IH]; intros H; simpl; [done|].
  rewrite H by (by left). f_equal. apply IH. intros b Hb. apply H. by right.
Qed.

Lemma filter_forall_false {A} (f : A -> bool) (l : list A) :
  Forall (fun y => f y = false) l -> List.filter f l = [].
Proof. induction 1 as [|y l Hy _ IH]; simpl; [done|]. by rewrite Hy. Qed.

Lemma flat_map_nil_fun {A B} (l : list A) : flat_map (fun _ => @nil B) l = [].
Proof. induction l; simpl; done. Qed.

Lemma strip_prefix_app_split p q s :
  strip_prefix (p ++ q) s = match strip_prefix p s with Some s' => strip_prefix q s' | None => None end.
Proof.
  revert s. induction p as [|a p IH]; intros [|b s]; simpl; try done.
  case_bool_decide; [apply IH|done].
Qed.

Lemma contains_strip p w :
  contains p w <-> exists i s1, i <= length w /\ strip_prefix p (drop i w) = Some s1.
Proof.
  split.
  - intros (x & y & ->). exists (length x), y. split; [rewrite length_app; lia|].
    by rewrite drop_app_length, strip_prefix_app.
  - intros (i & s1 & _ & H). apply strip_prefix_some in H.
    exists (take i w), s1. by rewrite <- H, take_drop.
Qed.

Lemma filter_filter_impl {A} (f g : A -> bool) (l : list A) :
  (forall x, f x = true -> g x = true) -> List.filter f (List.filter g l) = List.filter f l.
Proof.
  intros H. induction l as [|x l IH]; simpl; [done|].
  destruct (g x) eqn:Eg; simpl; destruct (f x) eqn:Ef; rewrite ?IH; try done.
  rewrite H in Eg by done. discriminate.
Qed.

Lemma contains_forall (Q : ascii -> Prop) p w : contains p w -> Forall Q w -> Forall Q p.
Proof. intros (x & y & ->) H. by apply Forall_app in H as [_ [H _]%Forall_app]. Qed.
