(* ===== verification/RegexSyntax.v ===== *)
(** * Syntax of the JavaScript regular expressions of [src/index.js]

    The abstract syntax [regex] of the patterns the source writes as
    literals ([/[\\/]node_modules[\\/](.*?)([\\/]|$)/], [/^dva|redux|react/],
    [/\.jsx?$/], ...), and [parse], a reader of the pattern text between the
    slashes of a literal following the grammar of ECMAScript's [Pattern]
    (Disjunction, Alternative, Term, Assertion, Atom, Quantifier,
    CharacterClass), restricted to the constructs the source uses.  Groups
    are numbered by their opening parenthesis, from 1, as in ECMAScript.
    The reader is bounded by fuel; the last section proves the bound
    [parse] uses is enough. *)

From S2P Require Import Prelude.

(** An item of a character class: a character or a range [a-z]. *)
Inductive class_item :=
  | CChar (c : ascii)
  | CRange (lo hi : ascii).

Inductive regex :=
  | Eps                              (** the empty alternative *)
  | Chr (c : ascii)                  (** a pattern character or identity escape *)
  | Dot                              (** [.] *)
  | Cls (negated : bool) (items : list class_item)   (** [[...]], [[^...]] *)
  | Bol                              (** [^] (not multiline) *)
  | Eol                              (** [$] (not multiline) *)
  | Seq (r1 r2 : regex)              (** juxtaposition *)
  | Alt (r1 r2 : regex)              (** [r1|r2] *)
  | Group (k : nat) (r : regex)      (** capturing group number [k] *)
  | Star (greedy : bool) (r : regex) (** [r*], [r*?] *)
  | Plus (greedy : bool) (r : regex) (** [r+], [r+?] *)
  | Opt (greedy : bool) (r : regex). (** [r?], [r??] *)

#[export] Instance class_item_eq_dec : EqDecision class_item.
Proof. solve_decision. Defined.

#[export] Instance regex_eq_dec : EqDecision regex.
Proof. solve_decision. Defined.

(** The capturing groups a pattern contains (a quantifier resets them at
    each iteration, step 4 of RepeatMatcher). *)
Fixpoint groups (r : regex) : list nat :=
  match r with
  | Seq r1 r2 | Alt r1 r2 => groups r1 ++ groups r2
  | Group k r1 => k :: groups r1
  | Star _ r1 | Plus _ r1 | Opt _ r1 => groups r1
  | _ => []
  end.

(** ** The reader *)

Definition ascii_in (c : ascii) (set : string) : bool :=
  existsb (fun d => bool_decide (c = d)) (str set).

(** SyntaxCharacter, plus [/] which ends a literal. *)
Definition is_syntax_char (c : ascii) : bool := ascii_in c "^$\.*+?()[]{}|/".

(** One ClassAtom: [None] at the closing bracket or at the end. *)
Definition p_class_atom (s : jstr) : option (ascii * jstr) :=
  match s with
  | [] => None
  | "]"%char :: _ => None
  | "\"%char :: c :: s1 =>
      if is_syntax_char c || bool_decide (c = "-"%char) then Some (c, s1) else None
  | "\"%char :: [] => None
  | c :: s1 => Some (c, s1)
  end.

(** ClassRanges up to and including the closing bracket. *)
Fixpoint p_class (fuel : nat) (s : jstr) : option (list class_item * jstr) :=
  match fuel with
  | 0 => None
  | S f =>
      match s with
      | "]"%char :: s1 => Some ([], s1)
      | _ =>
          match p_class_atom s with
          | None => None
          | Some (lo, s1) =>
              match s1 with
              | "-"%char :: s2 =>
                  match p_class_atom s2 with
                  | Some (hi, s3) =>
                      match p_class f s3 with
                      | Some (its, s4) => Some (CRange lo hi :: its, s4)
                      | None => None
                      end
                  | None =>
                      match p_class f s2 with
                      | Some (its, s4) => Some (CChar lo :: CChar "-"%char :: its, s4)
                      | None => None
                      end
                  end
              | _ =>
                  match p_class f s1 with
                  | Some (its, s4) => Some (CChar lo :: its, s4)
                  | None => None
                  end
              end
          end
      end
  end.

(** A Quantifier after an atom; a [?] after it makes it lazy. *)
Definition p_quant (a : regex) (s : jstr) : regex * jstr :=
  match s with
  | "*"%char :: "?"%char :: s1 => (Star false a, s1)
  | "*"%char :: s1 => (Star true a, s1)
  | "+"%char :: "?"%char :: s1 => (Plus false a, s1)
  | "+"%char :: s1 => (Plus true a, s1)
  | "?"%char :: "?"%char :: s1 => (Opt false a, s1)
  | "?"%char :: s1 => (Opt true a, s1)
  | _ => (a, s)
  end.

(** Disjunction, Alternative, Term and Atom.  [g] counts the groups opened
    so far; each function returns the tree, the new count and the rest of
    the text.  [fuel] bounds the depth of the descent. *)
Fixpoint p_disj (fuel : nat) (g : nat) (s : jstr) : option (regex * nat * jstr) :=
  match fuel with
  | 0 => None
  | S f =>
      match p_alt f g s with
      | Some (a, g1, "|"%char :: s1) =>
          match p_disj f g1 s1 with
          | Some (d, g2, s2) => Some (Alt a d, g2, s2)
          | None => None
          end
      | res => res
      end
  end
with p_alt (fuel : nat) (g : nat) (s : jstr) : option (regex * nat * jstr) :=
  match fuel with
  | 0 => None
  | S f =>
      match s with
      | [] => Some (Eps, g, s)
      | "|"%char :: _ | ")"%char :: _ => Some (Eps, g, s)
      | _ =>
          match p_term f g s with
          | Some (t, g1, s1) =>
              match p_alt f g1 s1 with
              | Some (Eps, g2, s2) => Some (t, g2, s2)
              | Some (a, g2, s2) => Some (Seq t a, g2, s2)
              | None => None
              end
          | None => None
          end
      end
  end
with p_term (fuel : nat) (g : nat) (s : jstr) : option (regex * nat * jstr) :=
  match fuel with
  | 0 => None
  | S f =>
      match s with
      | "^"%char :: s1 => Some (Bol, g, s1)
      | "$"%char :: s1 => Some (Eol, g, s1)
      | _ =>
          match p_atom f g s with
          | Some (a, g1, s1) => let '(q, s2) := p_quant a s1 in Some (q, g1, s2)
          | None => None
          end
      end
  end
with p_atom (fuel : nat) (g : nat) (s : jstr) : option (regex * nat * jstr) :=
  match fuel with
  | 0 => None
  | S f =>
      match s with
      | "."%char :: s1 => Some (Dot, g, s1)
      | "("%char :: s1 =>
          match p_disj f (S g) s1 with
          | Some (d, g1, ")"%char :: s2) => Some (Group (S g) d, g1, s2)
          | _ => None
          end
      | "["%char :: "^"%char :: s1 =>
          match p_class f s1 with
          | Some (its, s2) => Some (Cls true its, g, s2)
          | None => None
          end
      | "["%char :: s1 =>
          match p_class f s1 with
          | Some (its, s2) => Some (Cls false its, g, s2)
          | None => None
          end
      | "\"%char :: c :: s1 => if is_syntax_char c then Some (Chr c, g, s1) else None
      | c :: s1 => if is_syntax_char c then None else Some (Chr c, g, s1)
      | [] => None
      end
  end.

(** The pattern of a literal: the whole text must be read.  Each call of
    the descent either consumes a character or moves one level down the
    four-level grammar, so [4 * (length + 1)] levels suffice. *)
Definition parse (src : string) : option regex :=
  let s := str src in
  match p_disj (4 * (length s + 1)) 0 s with
  | Some (r, _, []) => Some r
  | _ => None
  end.

(** A literal of the source; [Eps] stands for a text that does not parse,
    which the examples of [ChunkRules] rule out for every literal used. *)
Definition re (src : string) : regex := default Eps (parse src).

(** ** Termination of the reader

    The descent is bounded by its fuel; the lemmas below show that the fuel
    [parse] gives it is enough, so [parse] is the reader without a bound. *)

Lemma p_class_atom_length s c s1 : p_class_atom s = Some (c, s1) -> length s1 < length s.
Proof. unfold p_class_atom. intros H. repeat case_match; simplify_eq/=; lia. Qed.

Lemma p_class_length f s its s1 : p_class f s = Some (its, s1) -> length s1 < length s.
Proof.
  revert s its s1. induction f as [|f IH]; intros s its s1 H; [done|]. cbn [p_class] in H.
  repeat case_match; simplify_eq;
    repeat match goal with
    | H : p_class_atom _ = Some _ |- _ => apply p_class_atom_length in H
    | H : p_class _ _ = Some _ |- _ => apply IH in H
    end; simpl in *; lia.
Qed.

Lemma p_quant_length a s q s2 : p_quant a s = (q, s2) -> length s2 <= length s.
Proof. unfold p_quant. intros H. repeat case_match; simplify_eq/=; lia. Qed.

(** What each level of the descent leaves of the text: an Alternative or
    a Disjunction may read nothing, a Term or an Atom reads a character. *)
Lemma parse_length f :
  (forall g s r g1 s1, p_disj f g s = Some (r, g1, s1) -> length s1 <= length s) /\
  (forall g s r g1 s1, p_alt f g s = Some (r, g1, s1) -> length s1 <= length s) /\
  (forall g s r g1 s1, p_term f g s = Some (r, g1, s1) -> length s1 < length s) /\
  (forall g s r g1 s1, p_atom f g s = Some (r, g1, s1) -> length s1 < length s).
Proof.
  induction f as [|f (IHd & IHa & IHt & IHp)]; [done|].
  split_and!; intros g s r g1 s1 H; cbn [p_disj p_alt p_term p_atom] in H;
    repeat case_match; simplify_eq;
    repeat match goal with
    | H : p_class _ _ = Some _ |- _ => apply p_class_length in H
    | H : p_disj _ _ _ = Some _ |- _ => apply IHd in H
    | H : p_alt _ _ _ = Some _ |- _ => apply IHa in H
    | H : p_term _ _ _ = Some _ |- _ => apply IHt in H
    | H : p_atom _ _ _ = Some _ |- _ => apply IHp in H
    | H : p_quant _ _ = _ |- _ => apply p_quant_length in H
    end; simpl in *; lia.
Qed.

(** The length facts of the results in the context, for [lia]. *)
Local Ltac parse_lengths :=
  repeat match goal with
  | H : p_class_atom _ = Some _ |- _ => apply p_class_atom_length in H
  | H : p_class _ _ = Some _ |- _ => apply p_class_length in H
  | H : p_disj _ _ _ = Some _ |- _ => apply (proj1 (parse_length _)) in H
  | H : p_alt _ _ _ = Some _ |- _ => apply (proj1 (proj2 (parse_length _))) in H
  | H : p_term _ _ _ = Some _ |- _ => apply (proj1 (proj2 (proj2 (parse_length _)))) in H
  | H : p_atom _ _ _ = Some _ |- _ => apply (proj2 (proj2 (proj2 (parse_length _)))) in H
  | H : p_quant _ _ = _ |- _ => apply p_quant_length in H
  end; simpl in *; lia.

(** Rewrite a recursive call on the fuel [f1] into the same call on [f2]
    by a hypothesis [IH] whose bounds the context proves. *)
Local Ltac fuel_rw f2 :=
  match goal with
  | IH : forall h t, _ -> _ -> ?F ?f t = ?F h t |- context [?F ?f ?t] =>
      rewrite (IH f2 t) by parse_lengths
  | IH : forall h g t, _ -> _ -> ?F ?f g t = ?F h g t |- context [?F ?f ?g ?t] =>
      rewrite (IH f2 g t) by parse_lengths
  end.

(** Both sides unfolded once: rewrite the recursive calls, splitting the
    matches whose scrutinee makes no recursive call until they are
    exposed. *)
Local Ltac fuel_step f1 f2 :=
  repeat (cbv beta iota;
    first
      [ progress fuel_rw f2
      | match goal with
        | |- context [match ?x with _ => _ end] =>
            lazymatch x with context [f1] => fail | _ => destruct x eqn:? end
        end ]); try reflexivity.

Lemma p_class_fuel f1 f2 s : S (length s) <= f1 -> S (length s) <= f2 -> p_class f1 s = p_class f2 s.
Proof.
  revert f2 s. induction f1 as [|f1 IH]; intros [|f2] s H1 H2; try lia.
  cbn [p_class]. fuel_step f1 f2.
Qed.

(** Any two amounts of fuel beyond [4 * (length s + 1)] give the same
    result: each call of the descent reads a character or goes one level
    down the four-level grammar. *)
Lemma parse_fuel f1 :
  (forall f2 g s, 4 * length s + 4 <= f1 -> 4 * length s + 4 <= f2 -> p_disj f1 g s = p_disj f2 g s) /\
  (forall f2 g s, 4 * length s + 3 <= f1 -> 4 * length s + 3 <= f2 -> p_alt f1 g s = p_alt f2 g s) /\
  (forall f2 g s, 4 * length s + 2 <= f1 -> 4 * length s + 2 <= f2 -> p_term f1 g s = p_term f2 g s) /\
  (forall f2 g s, 4 * length s + 1 <= f1 -> 4 * length s + 1 <= f2 -> p_atom f1 g s = p_atom f2 g s).
Proof.
  induction f1 as [|f1 (IHd & IHa & IHt & IHp)]; [split_and!; intros; lia|].
  split_and!; intros [|f2] g s H1 H2; try lia; cbn [p_disj p_alt p_term p_atom].
  - fuel_step f1 f2.
  - fuel_step f1 f2.
  - fuel_step f1 f2.
  - pose proof (fun h t => p_class_fuel f1 h t) as HC. fuel_step f1 f2.
Qed.

(** [parse] reads with the fuel [4 * (length + 1)], and any larger fuel
    gives the same result: the reader terminates within it. *)
Lemma parse_fuel_adequate src f : 4 * (length (str src) + 1) <= f ->
  parse src = match p_disj f 0 (str src) with Some (r, _, []) => Some r | _ => None end.
Proof. intros Hf. unfold parse. by rewrite (proj1 (parse_fuel _) f) by lia. Qed.
