(* ===== verification/JsRegex.v ===== *)
(** * The regular-expression engine

    A model of ECMAScript's pattern matcher (ECMA-262, 22.2.2) for the
    syntax of [RegexSyntax], and of [RegExpBuiltinExec] for a regular
    expression without the [g], [y], [m], [s], [i], [u] flags (every literal
    of [src/index.js] is such).

    The matcher of the standard is written in continuation-passing style:
    each construct tries its alternatives in a fixed order and backtracks
    into the next one when the continuation fails.  [mtch n r s c] lists
    every way [r] can match at the start of the suffix [s] of the input
    (the input has length [n]), each as the suffix left after the match
    and the captures, in exactly that order: the first element is the one
    the standard's matcher commits to when the continuation accepts
    anything, and a sequence [Seq r1 r2] tries the results of [r2] after
    the first result of [r1] before the second result of [r1], as
    backtracking does.  Quantifiers follow RepeatMatcher: the captures of
    the quantified atom are reset before each iteration, an iteration of
    a [*] (or of a [?]) that consumes nothing fails, the greedy form
    tries one more iteration before stopping and the lazy form the other
    way round.

    [sem] is a declarative semantics of patterns: which suffixes a pattern
    can leave.  The refinement theorem [mtch_sem] says the matcher lists
    exactly those; [exec_leftmost] and [test_spec] lift it to the search
    of [RegExpBuiltinExec]. *)

From S2P Require Import Prelude RegexSyntax.

(** ** Captures

    The capture list of the standard, as an association list from group
    numbers to captured strings; a group absent from it is [undefined]. *)
Definition caps := list (nat * jstr).

Definition cap_get (k : nat) (c : caps) : option jstr :=
  match List.find (fun '(j, _) => Nat.eqb j k) c with
  | Some (_, v) => Some v
  | None => None
  end.

Definition cap_reset (ks : list nat) (c : caps) : caps :=
  List.filter (fun '(j, _) => negb (existsb (Nat.eqb j) ks)) c.

(** ** Characters *)

Definition item_matches (c : ascii) (it : class_item) : bool :=
  match it with
  | CChar d => bool_decide (c = d)
  | CRange lo hi =>
      Nat.leb (nat_of_ascii lo) (nat_of_ascii c) && Nat.leb (nat_of_ascii c) (nat_of_ascii hi)
  end.

Definition class_matches (neg : bool) (its : list class_item) (c : ascii) : bool :=
  xorb neg (existsb (item_matches c) its).

(** ** The matcher *)

Definition mresult := list (jstr * caps).

(** RepeatMatcher with [min = 0] and no maximum, for the atom matcher [m]
    whose groups are [ks].  [fuel] bounds the number of iterations; an
    iteration that consumes nothing fails, so [S (length s)] is enough
    ([star_iter_fuel]). *)
Fixpoint star_iter (m : jstr -> caps -> mresult) (ks : list nat) (greedy : bool)
    (fuel : nat) (s : jstr) (c : caps) : mresult :=
  match fuel with
  | 0 => []
  | S fuel' =>
      let more :=
        flat_map (fun '(s1, c1) =>
                    if Nat.ltb (length s1) (length s)
                    then star_iter m ks greedy fuel' s1 c1 else [])
                 (m s (cap_reset ks c)) in
      if greedy then more ++ [(s, c)] else (s, c) :: more
  end.

(** RepeatMatcher with [min = 0] and [max = 1]. *)
Definition opt_iter (m : jstr -> caps -> mresult) (ks : list nat) (greedy : bool)
    (s : jstr) (c : caps) : mresult :=
  let one := List.filter (fun '(s1, _) => Nat.ltb (length s1) (length s))
                         (m s (cap_reset ks c)) in
  if greedy then one ++ [(s, c)] else (s, c) :: one.

Fixpoint mtch (n : nat) (r : regex) (s : jstr) (c : caps) {struct r} : mresult :=
  match r with
  | Eps => [(s, c)]
  | Chr a =>
      match s with
      | b :: s1 => if bool_decide (a = b) then [(s1, c)] else []
      | [] => []
      end
  | Dot =>
      match s with
      | b :: s1 => if is_line_terminator b then [] else [(s1, c)]
      | [] => []
      end
  | Cls neg its =>
      match s with
      | b :: s1 => if class_matches neg its b then [(s1, c)] else []
      | [] => []
      end
  | Bol => if Nat.eqb (length s) n then [(s, c)] else []
  | Eol => match s with [] => [(s, c)] | _ :: _ => [] end
  | Seq r1 r2 => flat_map (fun '(s1, c1) => mtch n r2 s1 c1) (mtch n r1 s c)
  | Alt r1 r2 => mtch n r1 s c ++ mtch n r2 s c
  | Group k r1 =>
      map (fun '(s1, c1) => (s1, (k, take (length s - length s1) s) :: c1)) (mtch n r1 s c)
  | Star g r1 => star_iter (mtch n r1) (groups r1) g (S (length s)) s c
  | Plus g r1 =>
      flat_map (fun '(s1, c1) => star_iter (mtch n r1) (groups r1) g (S (length s1)) s1 c1)
               (mtch n r1 s (cap_reset (groups r1) c))
  | Opt g r1 => opt_iter (mtch n r1) (groups r1) g s c
  end.

(** ** Declarative semantics

    [sem n r s s1]: [r] can match the text between the suffixes [s] and
    [s1] of an input of length [n]. *)
Inductive sem (n : nat) : regex -> jstr -> jstr -> Prop :=
  | sem_eps s : sem n Eps s s
  | sem_chr a s : sem n (Chr a) (a :: s) s
  | sem_dot b s : is_line_terminator b = false -> sem n Dot (b :: s) s
  | sem_cls neg its b s : class_matches neg its b = true -> sem n (Cls neg its) (b :: s) s
  | sem_bol s : length s = n -> sem n Bol s s
  | sem_eol : sem n Eol [] []
  | sem_seq r1 r2 s s1 s2 : sem n r1 s s1 -> sem n r2 s1 s2 -> sem n (Seq r1 r2) s s2
  | sem_alt_l r1 r2 s s1 : sem n r1 s s1 -> sem n (Alt r1 r2) s s1
  | sem_alt_r r1 r2 s s1 : sem n r2 s s1 -> sem n (Alt r1 r2) s s1
  | sem_group k r s s1 : sem n r s s1 -> sem n (Group k r) s s1
  | sem_star_nil g r s : sem n (Star g r) s s
  | sem_star_cons g r s s1 s2 : sem n r s s1 -> sem n (Star g r) s1 s2 -> sem n (Star g r) s s2
  | sem_plus g r s s1 s2 : sem n r s s1 -> sem n (Star g r) s1 s2 -> sem n (Plus g r) s s2
  | sem_opt_none g r s : sem n (Opt g r) s s
  | sem_opt_some g r s s1 : sem n r s s1 -> sem n (Opt g r) s s1.

#[export] Hint Constructors sem : wpc.

(** ** The search of [RegExpBuiltinExec]

    From [lastIndex = 0], try the matcher at each position in turn and
    stop at the first that succeeds; fail after the end of the input. *)
Fixpoint search (n : nat) (r : regex) (i : nat) (s : jstr) : option (nat * jstr * caps) :=
  match mtch n r s [] with
  | (s1, c1) :: _ => Some (i, s1, c1)
  | [] => match s with [] => None | _ :: s' => search n r (S i) s' end
  end.

(** [r.exec(w)]: the start of the match, the rest of the input after it,
    and the captures; [None] is [null]. *)
Definition exec (r : regex) (w : jstr) : option (nat * jstr * caps) :=
  search (length w) r 0 w.

(** [r.test(w)]. *)
Definition test (r : regex) (w : jstr) : bool :=
  match exec r w with Some _ => true | None => false end.

(** [w.match(r)[k]] for a regular expression without the [g] flag:
    [match] returns the result of [exec]; indexing [null] throws, index 0 is
    the matched text and index [k] the [k]-th capture ([undefined] when the
    group did not take part). *)
Definition match_index (w : jstr) (r : regex) (k : nat) : result (option jstr) :=
  match exec r w with
  | None => Throw (TypeError "Cannot read properties of null")
  | Some (i, s1, c) =>
      Ok (match k with
          | 0 => Some (take (length (drop i w) - length s1) (drop i w))
          | S _ => cap_get k c
          end)
  end.

(** ** The star loop: fuel adequacy *)

Section StarIter.
Context (m : jstr -> caps -> mresult) (ks : list nat) (g : bool).

  (** Any two amounts of fuel beyond [length s] give the same list: the
      loop stops by itself, because each further iteration must consume
      input. *)
Lemma star_iter_fuel_eq f1 f2 s c :
    S (length s) <= f1 -> S (length s) <= f2 ->
    star_iter m ks g f1 s c = star_iter m ks g f2 s c.
  Proof.
    revert f2 s c. induction f1 as [|f1 IH]; intros [|f2] s c H1 H2; try lia.
    simpl.
    rewrite (flat_map_ext _ (fun '(s1, c1) => if Nat.ltb (length s1) (length s)
                                             then star_iter m ks g f2 s1 c1 else [])); [done|].
    intros [s1 c1]. destruct (Nat.ltb_spec (length s1) (length s)); auto with lia.
  Qed.

Lemma star_iter_more s c f x :
    In x (star_iter m ks g (S f) s c) <->
    x = (s, c) \/
    exists s1 c1, In (s1, c1) (m s (cap_reset ks c)) /\ length s1 < length s /\
                  In x (star_iter m ks g f s1 c1).
  Proof.
    simpl. rewrite in_if_app_cons, in_flat_map. split.
    - intros [[[s1 c1] [Hin Hx]]|Hx]; [right|left; done].
      destruct (Nat.ltb_spec (length s1) (length s)); [|done]. eauto 6.
    - intros [->|(s1 & c1 & Hin & Hlt & Hx)]; [right; done|left].
      exists (s1, c1). apply Nat.ltb_lt in Hlt. rewrite Hlt. done.
  Qed.

Lemma star_iter_nil s c : In (s, c) (star_iter m ks g (S (length s)) s c).
  Proof. apply star_iter_more. by left. Qed.

Lemma star_iter_cons s c s1 c1 x :
    In (s1, c1) (m s (cap_reset ks c)) -> length s1 < length s ->
    In x (star_iter m ks g (S (length s1)) s1 c1) ->
    In x (star_iter m ks g (S (length s)) s c).
  Proof.
    intros H1 Hlt H2. apply star_iter_more. right. exists s1, c1.
    rewrite (star_iter_fuel_eq (length s) (S (length s1))); auto with lia.
  Qed.

  (** Every result of the loop is reached by a chain of iterations: the
      loop is sound for any relation closed under iteration. *)
Lemma star_iter_sound (R Q : jstr -> jstr -> Prop) :
    (forall s c s1 c1, In (s1, c1) (m s c) -> R s s1) ->
    (forall s, Q s s) -> (forall s s1 s2, R s s1 -> Q s1 s2 -> Q s s2) ->
    forall f s c s1 c1, In (s1, c1) (star_iter m ks g f s c) -> Q s s1.
  Proof.
    intros HR Hnil Hcons f. induction f as [|f IH]; intros s c s1 c1 Hin; [done|].
    apply star_iter_more in Hin as [[= -> ->]|(s' & c' & H1 & _ & H2)]; eauto.
  Qed.
End StarIter.

(** The star loop of the matcher stops by itself: running it with
    any fuel beyond the length of the input gives the list the matcher
    computes, so the bound [S (length s)] chosen in [mtch] is enough. *)
Theorem mtch_star_fuel n g r s c f :
  S (length s) <= f -> star_iter (mtch n r) (groups r) g f s c = mtch n (Star g r) s c.
Proof. intros Hf. apply star_iter_fuel_eq; lia. Qed.

(** ** Soundness and completeness of the matcher *)

Lemma sem_suffix n r s s1 : sem n r s s1 -> s1 `suffix_of` s.
Proof.
  induction 1; try done; try by apply suffix_cons_r.
  all: by etrans.
Qed.

Lemma suffix_eq_or_shorter (s1 s : jstr) :
  s1 `suffix_of` s -> s1 = s \/ length s1 < length s.
Proof.
  intros Hs. destruct (decide (length s1 < length s)); [by right|left].
  apply suffix_length_eq; [done|]. lia.
Qed.

Lemma mtch_sound n r : forall s c s1 c1, In (s1, c1) (mtch n r s c) -> sem n r s s1.
Proof.
  induction r; intros s cp s1 c1 Hin; cbn [mtch] in Hin.
  - destruct Hin as [[= <- _]|[]]. constructor.
  - destruct s; [done|]. case_bool_decide; [subst|done].
    destruct Hin as [[= <- _]|[]]. constructor.
  - destruct s as [|b s]; [done|]. destruct (is_line_terminator b) eqn:E; [done|].
    destruct Hin as [[= <- _]|[]]. by constructor.
  - destruct s as [|b s]; [done|]. destruct (class_matches negated items b) eqn:E; [|done].
    destruct Hin as [[= <- _]|[]]. by constructor.
  - destruct (Nat.eqb_spec (length s) n); [|done].
    destruct Hin as [[= <- _]|[]]. by constructor.
  - destruct s; [|done]. destruct Hin as [[= <- _]|[]]. constructor.
  - apply in_flat_map in Hin as [[s' c'] [H1 H2]]. eauto with wpc.
  - apply in_app_iff in Hin as [H|H]; eauto with wpc.
  - apply in_map_iff in Hin as [[s' c'] [[= <- _] H]]. eauto with wpc.
  - eapply (star_iter_sound _ _ _ (sem n r) (sem n (Star greedy r))); [eauto|eauto with wpc|eauto with wpc|exact Hin].
  - apply in_flat_map in Hin as [[s' c'] [H1 H2]].
    eapply sem_plus; [by eapply IHr|].
    eapply (star_iter_sound _ _ _ (sem n r) (sem n (Star greedy r))); [eauto|eauto with wpc|eauto with wpc|exact H2].
  - unfold opt_iter in Hin. apply in_if_app_cons in Hin as [H|[= <- _]]; [|constructor].
    apply filter_In in H as [H _]. eauto with wpc.
Qed.

Lemma mtch_complete n r s s1 :
  sem n r s s1 -> forall c, exists c1, In (s1, c1) (mtch n r s c).
Proof.
  induction 1 as [| | b s Hb | neg its b s Hb | s Hs | | r1 r2 s s1 s2 _ IH1 _ IH2
                 | r1 r2 s s1 _ IH | r1 r2 s s1 _ IH | k r s s1 _ IH | g r s
                 | g r s s1 s2 H1 IH1 _ IH2 | g r s s1 s2 _ IH1 _ IH2 | g r s
                 | g r s s1 H1 IH]; intros c; simpl.
  - exists c. by left.
  - rewrite bool_decide_eq_true_2 by done. exists c. by left.
  - rewrite Hb. exists c. by left.
  - rewrite Hb. exists c. by left.
  - rewrite (proj2 (Nat.eqb_eq _ _) Hs). exists c. by left.
  - exists c. by left.
  - destruct (IH1 c) as [c1 H1]. destruct (IH2 c1) as [c2 H2].
    exists c2. apply in_flat_map. by exists (s1, c1).
  - destruct (IH c) as [c1 H1]. exists c1. apply in_app_iff. by left.
  - destruct (IH c) as [c1 H1]. exists c1. apply in_app_iff. by right.
  - destruct (IH c) as [c1 H1]. eexists. apply in_map_iff. by exists (s1, c1).
  - exists c. apply star_iter_nil.
  - destruct (suffix_eq_or_shorter s1 s (sem_suffix _ _ _ _ H1)) as [->|Hlt].
    { apply IH2. }
    destruct (IH1 (cap_reset (groups r) c)) as [c1 Hc1]. destruct (IH2 c1) as [c2 Hc2].
    exists c2. by eapply star_iter_cons.
  - destruct (IH1 (cap_reset (groups r) c)) as [c1 Hc1]. destruct (IH2 c1) as [c2 Hc2].
    exists c2. apply in_flat_map. by exists (s1, c1).
  - exists c. unfold opt_iter. apply in_if_app_cons. by right.
  - unfold opt_iter.
    destruct (suffix_eq_or_shorter s1 s (sem_suffix _ _ _ _ H1)) as [->|Hlt].
    { exists c. apply in_if_app_cons. by right. }
    destruct (IH (cap_reset (groups r) c)) as [c1 Hc1]. exists c1.
    apply in_if_app_cons. left. apply filter_In. split; [done|]. by apply Nat.ltb_lt.
Qed.

(** The matcher lists exactly the matches the declarative semantics
    allows, whatever the captures it starts from: the backtracking engine
    refines [sem]. *)
Theorem mtch_sem n r s s1 c :
  (exists c1, In (s1, c1) (mtch n r s c)) <-> sem n r s s1.
Proof.
  split; [intros [c1 H]; by eapply mtch_sound|].
  intros H. by apply mtch_complete.
Qed.

Lemma mtch_nil_iff n r s c : mtch n r s c = [] <-> forall s1, ~ sem n r s s1.
Proof.
  split.
  - intros H s1 Hs. destruct (mtch_complete _ _ _ _ Hs c) as [c1 Hin].
    by rewrite H in Hin.
  - intros H. destruct (mtch n r s c) as [|[s1 c1] l] eqn:E; [done|]. exfalso.
    apply (H s1), (mtch_sound _ _ _ c _ c1). rewrite E. by left.
Qed.

Lemma mtch_head_sem n r s c s1 c1 :
  head (mtch n r s c) = Some (s1, c1) -> sem n r s s1.
Proof.
  destruct (mtch n r s c) as [|x l] eqn:E; simpl; [done|]. intros [= ->].
  apply (mtch_sound _ _ _ c _ c1). rewrite E. by left.
Qed.

(** ** The search *)

Lemma search_some n r i s j s1 c1 :
  search n r i s = Some (j, s1, c1) ->
  i <= j /\ j - i <= length s /\ head (mtch n r (drop (j - i) s) []) = Some (s1, c1) /\
  forall d, d < j - i -> mtch n r (drop d s) [] = [].
Proof.
  revert i. induction s as [|a s IH]; intros i H; simpl in H.
  - destruct (mtch n r [] []) as [|[s' c'] l] eqn:E; [done|]. injection H as <- <- <-.
    rewrite Nat.sub_diag. simpl. rewrite E. split_and!; [lia|lia|done|lia].
  - destruct (mtch n r (a :: s) []) as [|[s' c'] l] eqn:E.
    + apply IH in H as (Hij & Hlen & Hhd & Hbefore).
      replace (j - i) with (S (j - S i)) by lia. simpl.
      split_and!; [lia|lia|done|]. intros [|d] Hd; [done|]. apply Hbefore. lia.
    + injection H as <- <- <-. rewrite Nat.sub_diag. simpl. rewrite E.
      split_and!; [lia|lia|done|lia].
Qed.

Lemma search_none n r i s :
  search n r i s = None -> forall d, d <= length s -> mtch n r (drop d s) [] = [].
Proof.
  revert i. induction s as [|a s IH]; intros i H d Hd; simpl in H.
  - destruct (mtch n r [] []) as [|[s' c'] l] eqn:E; [|done].
    by replace d with 0 by (simpl in Hd; lia).
  - destruct (mtch n r (a :: s) []) as [|[s' c'] l] eqn:E; [|done].
    destruct d as [|d]; [done|]. simpl in *. apply (IH (S i)); [done|lia].
Qed.

Lemma exec_some_sem r w i s1 c :
  exec r w = Some (i, s1, c) -> i <= length w /\ sem (length w) r (drop i w) s1.
Proof.
  unfold exec. intros H. apply search_some in H as (_ & Hlen & Hhd & _).
  rewrite Nat.sub_0_r in *. split; [lia|by eapply mtch_head_sem].
Qed.

(** [exec] commits to the leftmost position where the pattern can
    match at all, and there to the first match in the matcher's
    (backtracking) order. *)
Theorem exec_leftmost r w i s1 c :
  exec r w = Some (i, s1, c) ->
  i <= length w /\ head (mtch (length w) r (drop i w) []) = Some (s1, c) /\
  sem (length w) r (drop i w) s1 /\
  forall j s', j < i -> ~ sem (length w) r (drop j w) s'.
Proof.
  unfold exec. intros H. apply search_some in H as (_ & Hlen & Hhd & Hbefore).
  rewrite Nat.sub_0_r in *. split_and!; [lia|done|by eapply mtch_head_sem|].
  intros j s' Hj. apply (mtch_nil_iff _ _ _ []). by apply Hbefore.
Qed.

Lemma exec_none r w :
  exec r w = None <-> forall j s', j <= length w -> ~ sem (length w) r (drop j w) s'.
Proof.
  split.
  - intros H j s' Hj. apply (mtch_nil_iff _ _ _ []). by apply (search_none _ _ 0 w).
  - intros H. destruct (exec r w) as [[[i s1] c]|] eqn:E; [|done].
    apply exec_some_sem in E as (Hi & Hs). by destruct (H i s1 Hi).
Qed.

(** [test] is the existence of a match at some position of the input. *)
Theorem test_spec r w :
  test r w = true <-> exists i s1, i <= length w /\ sem (length w) r (drop i w) s1.
Proof.
  unfold test. destruct (exec r w) as [[[i s1] c]|] eqn:E.
  - apply exec_some_sem in E as (Hi & Hs). split; [eauto|done].
  - rewrite exec_none in E. split; [done|]. intros (i & s1 & Hi & Hs). by destruct (E i s1 Hi).
Qed.

(** ** Building blocks of the concrete patterns *)

(** A run of pattern characters, as the reader builds it. *)
Definition lit_seq (p : jstr) (r : regex) : regex := fold_right (fun a r => Seq (Chr a) r) r p.

Lemma mtch_lit_seq n p r s c :
  mtch n (lit_seq p r) s c = match strip_prefix p s with Some s' => mtch n r s' c | None => [] end.
Proof.
  revert s. induction p as [|a p IH]; intros s; [done|].
  destruct s as [|b s]; simpl; [done|]. case_bool_decide; simpl; [|done].
  rewrite app_nil_r. apply IH.
Qed.

Lemma mtch_seq_cls n neg its r s c :
  mtch n (Seq (Cls neg its) r) s c =
  match s with b :: s1 => if class_matches neg its b then mtch n r s1 c else [] | [] => [] end.
Proof.
  destruct s as [|b s]; simpl; [done|].
  destruct (class_matches neg its b); simpl; [by rewrite app_nil_r|done].
Qed.

Lemma cap_reset_nil c : cap_reset [] c = c.
Proof. induction c as [|[j v] c IH]; simpl; [done|by rewrite IH]. Qed.

(** How far [.] can go: up to the first line terminator. *)
Fixpoint dot_run (t : jstr) : nat :=
  match t with
  | [] => 0
  | b :: t' => if is_line_terminator b then 0 else S (dot_run t')
  end.

Lemma dot_run_le t : dot_run t <= length t.
Proof. induction t as [|b t IH]; simpl; [lia|]. destruct (is_line_terminator b); lia. Qed.

(** The lazy loop [.*?] tries the suffixes of the input from the longest
    to the shortest one it can reach: zero characters first, then one,
    and so on up to the first line terminator. *)
Lemma lazy_dot_star {X} n (K : jstr -> caps -> list X) t c :
  flat_map (fun '(s1, c1) => K s1 c1) (star_iter (mtch n Dot) [] false (S (length t)) t c) =
  flat_map (fun i => K (drop i t) c) (seq 0 (S (dot_run t))).
Proof.
  revert c. induction t as [|b t IH]; intros c.
  - simpl. done.
  - cbn [star_iter]. rewrite cap_reset_nil. cbn [mtch dot_run].
    destruct (is_line_terminator b); [done|].
    cbn [flat_map]. rewrite app_nil_r.
    replace (length t <? length (b :: t)) with true by (symmetry; apply Nat.ltb_lt; simpl; lia).
    rewrite IH. cbn [seq flat_map]. f_equal.
    rewrite <- (seq_shift _ 1), flat_map_map. done.
Qed.

(** A lazy capturing group [(.*?)] followed by [r]: try [r] after each
    reachable prefix, the shortest first, with the prefix captured. *)
Lemma mtch_lazy_group n k r t c :
  mtch n (Seq (Group k (Star false Dot)) r) t c =
  flat_map (fun i => mtch n r (drop i t) ((k, take i t) :: c)) (seq 0 (S (dot_run t))).
Proof.
  set (K := fun s1 c1 => mtch n r s1 ((k, take (length t - length s1) t) :: c1)).
  transitivity (flat_map (fun '(s1, c1) => K s1 c1)
                         (star_iter (mtch n Dot) [] false (S (length t)) t c)).
  { change (mtch n (Seq (Group k (Star false Dot)) r) t c) with
      (flat_map (fun '(s1, c1) => mtch n r s1 c1)
         (map (fun '(s1, c1) => (s1, (k, take (length t - length s1) t) :: c1))
              (star_iter (mtch n Dot) [] false (S (length t)) t c))).
    rewrite flat_map_map. apply flat_map_ext. by intros [s1 c1]. }
  rewrite lazy_dot_star. apply flat_map_ext. intros i. subst K. simpl. by rewrite take_sub_drop.
Qed.

(** The search of [exec] seen through a projection [P] of its result:
    when [P] of the matcher's first result at every position is [F] of
    that position, the search is [first_at F]. *)
Lemma search_first_at {X} n r (P : jstr -> caps -> X) (F : jstr -> option X) i s :
  (forall d, d <= length s ->
     option_map (fun '(s1, c1) => P s1 c1) (head (mtch n r (drop d s) [])) = F (drop d s)) ->
  option_map (fun '(_, s1, c1) => P s1 c1) (search n r i s) = first_at F s.
Proof.
  revert i. induction s as [|a s IH]; intros i H; simpl.
  - specialize (H 0 (Nat.le_refl _)). simpl in H.
    destruct (mtch n r [] []) as [|[s1 c1] l]; simpl in *; rewrite <- H; done.
  - pose proof (H 0 ltac:(lia)) as H0. simpl in H0.
    destruct (mtch n r (a :: s) []) as [|[s1 c1] l]; simpl in *; rewrite <- H0; [|done].
    apply IH. intros d Hd. apply (H (S d)). simpl; lia.
Qed.

(** [w.match(r)[k]] seen through a scanner [F]: when, at every position,
    the [k]-th capture of the first match is what [F] finds, [match]
    returns what [first_at F] finds, and throws when it finds nothing. *)
Lemma match_index_scan (r : regex) k (F : jstr -> option jstr) w :
  k <> 0 ->
  (forall u, option_map (fun '(_, c1) => cap_get k c1) (head (mtch (length w) r u [])) =
             option_map Some (F u)) ->
  match_index w r k = match first_at F w with
                      | Some v => Ok (Some v)
                      | None => Throw (TypeError "Cannot read properties of null")
                      end.
Proof.
  intros Hk HF. unfold match_index, exec.
  pose proof (search_first_at (length w) r (fun _ c1 => cap_get k c1)
                (fun u => option_map Some (F u)) 0 w (fun d _ => HF (drop d w))) as H.
  rewrite first_at_map in H.
  destruct (search (length w) r 0 w) as [[[i s1] c]|];
    destruct (first_at F w); simpl in H; try congruence.
  destruct k; [done|]. congruence.
Qed.

(** ** Literal patterns *)

Lemma mtch_chr n a s c :
  mtch n (Chr a) s c = match strip_prefix [a] s with Some s' => [(s', c)] | None => [] end.
Proof. destruct s as [|b s]; simpl; [done|]. by case_bool_decide. Qed.

Lemma mtch_literal n p a s c :
  mtch n (lit_seq p (Chr a)) s c =
  match strip_prefix (p ++ [a]) s with Some s' => [(s', c)] | None => [] end.
Proof.
  rewrite mtch_lit_seq, strip_prefix_app_split.
  destruct (strip_prefix p s); [apply mtch_chr|done].
Qed.

(** A pattern made of pattern characters only tests whether the input
    contains it. *)
Theorem test_literal p a w : test (lit_seq p (Chr a)) w = containsb (p ++ [a]) w.
Proof.
  apply eq_true_iff_eq. rewrite test_spec, containsb_spec, contains_strip.
  split.
  - intros (i & s1 & Hi & Hs). exists i, s1. split; [done|].
    destruct (mtch_complete _ _ _ _ Hs []) as [c1 Hin]. rewrite mtch_literal in Hin.
    destruct (strip_prefix _ _); [|done]. by destruct Hin as [[= ->]|[]].
  - intros (i & s1 & Hi & H). exists i, s1. split; [done|].
    apply (mtch_sound _ _ _ [] _ []). rewrite mtch_literal, H. by left.
Qed.

(** An alternation tests whether one of its branches does. *)
Lemma test_alt r1 r2 w : test (Alt r1 r2) w = test r1 w || test r2 w.
Proof.
  apply eq_true_iff_eq. rewrite orb_true_iff, !test_spec. split.
  - intros (i & s1 & Hi & Hs). inversion Hs; subst; [left|right]; eauto.
  - intros [(i & s1 & Hi & Hs)|(i & s1 & Hi & Hs)]; exists i, s1; split; eauto with wpc.
Qed.

(** ** Witnesses *)

Lemma exec_leftmost_witness :
  exec (re "b+") (str "aabb") = Some (2%nat, [], []) /\
  sem 4 (re "b+") (drop 2 (str "aabb")) [].
Proof.
  assert (H : exec (re "b+") (str "aabb") = Some (2%nat, [], [])) by (vm_compute; reflexivity).
  split; [exact H|]. exact (proj1 (proj2 (proj2 (exec_leftmost _ _ _ _ _ H)))).
Defined.

Lemma mtch_star_fuel_witness :
  star_iter (mtch 2 Dot) (groups Dot) true 10 (str "ab") [] = mtch 2 (Star true Dot) (str "ab") [].
Proof. apply mtch_star_fuel. simpl. lia. Defined.
