(* ===== verification/RegexLang.v ===== *)
(** * Finite languages and end-anchored patterns

    The [test] conditions of the loader rules ([/\.less$/],
    [/\.(png|jpe?g)$/], ...) and of the moment locale plugin are patterns
    without loops whose last element is [$].  Such a pattern denotes a
    finite set of words: [lang] computes it for the loop-free patterns made
    of characters, sequence, alternation, groups and [?], and [anchored]
    for a sequence of those ending in [$].  The theorem [test_anchored]
    reduces [r.test(w)] to "some word of the set is a suffix of [w]", so
    that what a rule accepts is read off by evaluating [anchored]. *)

From S2P Require Import Prelude RegexSyntax JsRegex.

Definition lang_cat (l1 l2 : list jstr) : list jstr := flat_map (fun u => map (app u) l2) l1.

Fixpoint lang (r : regex) : option (list jstr) :=
  match r with
  | Eps => Some [[]]
  | Chr a => Some [[a]]
  | Seq r1 r2 => match lang r1, lang r2 with Some l1, Some l2 => Some (lang_cat l1 l2) | _, _ => None end
  | Alt r1 r2 => match lang r1, lang r2 with Some l1, Some l2 => Some (l1 ++ l2) | _, _ => None end
  | Group _ r1 => lang r1
  | Opt _ r1 => match lang r1 with Some l => Some (l ++ [[]]) | None => None end
  | _ => None
  end.

Fixpoint anchored (r : regex) : option (list jstr) :=
  match r with
  | Eol => Some [[]]
  | Seq r1 r2 => match lang r1, anchored r2 with Some l1, Some l2 => Some (lang_cat l1 l2) | _, _ => None end
  | _ => None
  end.

Definition suffixb (u w : jstr) : bool := bool_decide (u `suffix_of` w).

Lemma in_lang_cat u l1 l2 : In u (lang_cat l1 l2) <-> exists u1 u2, In u1 l1 /\ In u2 l2 /\ u = u1 ++ u2.
Proof.
  unfold lang_cat. rewrite in_flat_map. split.
  - intros (u1 & H1 & H2). apply in_map_iff in H2 as (u2 & <- & H2). eauto.
  - intros (u1 & u2 & H1 & H2 & ->). exists u1. split; [done|]. by apply in_map.
Qed.

Ltac sem_inv := match goal with H : sem _ _ _ _ |- _ => inversion H; subst; clear H end.

Lemma sem_seq_inv n r1 r2 s s2 : sem n (Seq r1 r2) s s2 -> exists s1, sem n r1 s s1 /\ sem n r2 s1 s2.
Proof. intros H. sem_inv. eauto. Qed.

Lemma sem_alt_inv n r1 r2 s s1 : sem n (Alt r1 r2) s s1 -> sem n r1 s s1 \/ sem n r2 s s1.
Proof. intros H. sem_inv; auto. Qed.

Lemma sem_opt_inv n g r s s1 : sem n (Opt g r) s s1 -> s1 = s \/ sem n r s s1.
Proof. intros H. sem_inv; auto. Qed.

Lemma lang_sem n r l s s1 : lang r = Some l -> sem n r s s1 <-> exists u, In u l /\ s = u ++ s1.
Proof.
  revert l s s1. induction r as [| a | | | | | r1 IH1 r2 IH2 | r1 IH1 r2 IH2 | k r IH | | | g r IH];
    intros l s s1 Hl; simpl in Hl; try discriminate.
  - injection Hl as <-. split; [intros; sem_inv; exists []; simpl; auto|]. intros (u & [<-|[]] & ->). constructor.
  - injection Hl as <-. split; [intros; sem_inv; exists [a]; simpl; auto|]. intros (u & [<-|[]] & ->). constructor.
  - destruct (lang r1) as [l1|], (lang r2) as [l2|]; try discriminate. injection Hl as <-.
    setoid_rewrite in_lang_cat. split.
    + intros (t & Ha & Hb)%sem_seq_inv. apply (IH1 l1) in Ha as (u1 & H1 & ->); [|done].
      apply (IH2 l2) in Hb as (u2 & H2 & ->); [|done]. exists (u1 ++ u2). rewrite app_assoc. eauto 6.
    + intros (u & (u1 & u2 & H1 & H2 & ->) & ->). rewrite <- app_assoc.
      econstructor; [apply (IH1 l1); eauto|apply (IH2 l2); eauto].
  - destruct (lang r1) as [l1|], (lang r2) as [l2|]; try discriminate. injection Hl as <-.
    setoid_rewrite in_app_iff. split.
    + intros [Ha|Ha]%sem_alt_inv; [apply (IH1 l1) in Ha as (u & ? & ->)|apply (IH2 l2) in Ha as (u & ? & ->)]; eauto.
    + intros (u & [H|H] & ->); [apply sem_alt_l, (IH1 l1)|apply sem_alt_r, (IH2 l2)]; eauto.
  - rewrite <- (IH l s s1 Hl). split; [intros; by sem_inv|apply sem_group].
  - destruct (lang r) as [l1|]; [|discriminate]. injection Hl as <-. setoid_rewrite in_app_iff. split.
    + intros [->|Ha]%sem_opt_inv; [exists []; simpl; eauto|apply (IH l1) in Ha as (u & ? & ->); eauto].
    + intros (u & [H|[<-|[]]] & ->); [apply sem_opt_some, (IH l1); eauto|apply sem_opt_none].
Qed.

Lemma anchored_sem n r l s s1 : anchored r = Some l -> sem n r s s1 <-> s1 = [] /\ In s l.
Proof.
  revert l s s1. induction r as [| | | | | | r1 _ r2 IH2 | | | | |]; intros l s s1 Hl; simpl in Hl;
    try discriminate.
  - injection Hl as <-. split; [intros; sem_inv; simpl; auto|]. intros [-> [<-|[]]]. constructor.
  - destruct (lang r1) as [l1|] eqn:E1, (anchored r2) as [l2|]; try discriminate. injection Hl as <-.
    rewrite in_lang_cat. split.
    + intros (t & Ha & Hb)%sem_seq_inv. apply (lang_sem n _ l1) in Ha as (u1 & H1 & ->); [|done].
      apply (IH2 l2) in Hb as [-> H2]; [|done]. eauto 7.
    + intros (-> & u1 & u2 & H1 & H2 & ->). econstructor; [apply (lang_sem n _ l1); eauto|].
      apply (IH2 l2); auto.
Qed.

(** An end-anchored pattern over a finite language tests whether one of
    its words ends the input. *)
Theorem test_anchored r l w : anchored r = Some l -> test r w = existsb (fun u => suffixb u w) l.
Proof.
  intros Hl. apply eq_true_iff_eq. rewrite test_spec, existsb_exists. split.
  - intros (i & s1 & Hi & Hs). apply (anchored_sem _ _ _ _ _ Hl) in Hs as [-> Hin].
    exists (drop i w). split; [done|]. apply bool_decide_eq_true. exists (take i w). by rewrite take_drop.
  - intros (u & Hin & Hu). apply bool_decide_eq_true in Hu as [v ->].
    exists (length v), []. rewrite drop_app_length, length_app. split; [lia|].
    apply (anchored_sem _ _ _ _ _ Hl). auto.
Qed.
