(* ===== verification/ChunkRules.v ===== *)
(** * The cache groups of [optimization.splitChunks] ([src/index.js] 79-196)

    [chunkRules] is the list of eleven closures of lines 81-160, each
    [(name, context) => label | undefined]; [first_rule] is the [for ... of]
    loop of [bundle.name] (lines 170-175), which returns the first truthy
    label; [bundle_name] is [bundle.name] (lines 165-176), which first cuts
    the package name out of [module.context] with [re_package];
    [dynamic_name] is [dynamic.name] (lines 185-191).  [cacheGroups] is the
    object of lines 161-195.

    The theorems: the classifier is total and returns one of eleven labels;
    it is the first-match lookup in a declarative table; the package name
    is what a direct scan of the path finds (equivalence of the regular
    expression with a hand-written scanner), hence the first path segment
    after the first [node_modules] directory; the dynamic name likewise
    with the second segment; the two extractors throw a [TypeError]
    exactly when the scan finds nothing, which for [dynamic.name] happens
    on every module whose directory is the package root (finding); and the
    [^] of [/^dva|redux|react/] binds to [dva] alone (finding); the
    group test [/[\\/]node_modules/] also selects modules of a directory
    such as [node_modules_cache], whose [name] then throws (finding). *)

From S2P Require Import Prelude RegexSyntax JsRegex.

(** ** The rules *)

(** [ToString] of the value a rule receives: [match(...)[1]] is a string,
    or [undefined] when the group did not take part. *)
Definition js_to_string (v : option jstr) : jstr :=
  match v with Some s => s | None => str "undefined" end.

(** A rule of [chunkRules]: [(name, context) => label | undefined]. *)
Definition chunk_rule := option jstr -> jstr -> option jstr.

(** The ten rules of the shape
    [(name) => { if (/pat/.test(name)) { return 'label'; } }]. *)
Definition name_rule (pat label : string) : chunk_rule :=
  fun name _ => if test (re pat) (js_to_string name) then Some (str label) else None.

Definition rule_react : chunk_rule := name_rule "^dva|redux|react" "react".
Definition rule_rc : chunk_rule := name_rule "^rc-" "rc".
Definition rule_polyfill : chunk_rule :=
  name_rule "polyfill|babel|core-js|object-assign|isarray|symbol-observable|is-plain-object|isobject|async-validator" "polyfill".
Definition rule_moment : chunk_rule := name_rule "moment" "moment".
Definition rule_lodash : chunk_rule := name_rule "lodash" "lodash".
Definition rule_bizcharts : chunk_rule := name_rule "bizcharts" "bizcharts".
Definition rule_antv : chunk_rule := name_rule "^@antv" "antv".
Definition rule_antd : chunk_rule := name_rule "antd|@ant-design|sa-antd" "antd".

(** The one rule that looks at the context. *)
Definition rule_intl : chunk_rule :=
  fun _ context => if test (re "intl-messages") context then Some (str "intl") else None.

Definition rule_sc : chunk_rule := name_rule "^@sc" "sc".

Definition rule_other : chunk_rule := fun _ _ => Some (str "other").

Definition chunkRules : list chunk_rule :=
  [rule_react; rule_rc; rule_polyfill; rule_moment; rule_lodash; rule_bizcharts;
   rule_antv; rule_antd; rule_intl; rule_sc; rule_other].

(** [for (let rule of chunkRules) { const filename = rule(packageName,
    module.context); if (filename) { return filename; } }]: the empty
    string is falsy; falling off the loop returns [undefined] ([None]). *)
Fixpoint first_rule (rules : list chunk_rule) (name : option jstr) (context : jstr) : option jstr :=
  match rules with
  | [] => None
  | rule :: rest =>
      match rule name context with
      | Some filename =>
          if bool_decide (filename = []) then first_rule rest name context else Some filename
      | None => first_rule rest name context
      end
  end.

(** ** The [name] functions of the cache groups *)

(** What [name(module)] reads of a webpack module: its [context] (the
    directory of its resource, or [null]) and the resource path that
    webpack's [checkTest] gives to [test]. *)
Record module_info := {
  context : option jstr;
  resource : option jstr
}.

Definition re_package : regex := re "[\\/]node_modules[\\/](.*?)([\\/]|$)".

(** [bundle.name]: [module.context.match(re_package)[1]], then the loop. *)
Definition bundle_name (m : module_info) : result (option jstr) :=
  match context m with
  | None => Throw (TypeError "Cannot read properties of null (reading 'match')")
  | Some ctx =>
      let! packageName := match_index ctx re_package 1 in
      Ok (first_rule chunkRules packageName ctx)
  end.

Definition re_dynamic : regex := re "[\\/]node_modules[\\/](.*?)[\\/](.*?)([\\/]|$)".

(** [dynamic.name]: [`app.${match[2]}.dynamic`]. *)
Definition dynamic_name (m : module_info) : result jstr :=
  match context m with
  | None => Throw (TypeError "Cannot read properties of null (reading 'match')")
  | Some ctx =>
      let! seg := match_index ctx re_dynamic 2 in
      Ok (str "app." ++ js_to_string seg ++ str ".dynamic")
  end.

(** ** The cache groups *)

Inductive chunks_filter := InitialChunks | AsyncChunks.

Inductive group_name :=
  | NameFn (f : module_info -> result (option jstr))
  | NameStr (s : jstr).

Record cache_group := {
  cg_test : regex;
  cg_name : group_name;
  cg_chunks : option chunks_filter;  (** [None]: the [splitChunks.chunks] default *)
  cg_enforce : bool
}.

Definition re_node_modules : regex := re "[\\/]node_modules".

Definition cg_bundle : cache_group :=
  {| cg_test := re_node_modules; cg_name := NameFn bundle_name;
     cg_chunks := None; cg_enforce := false |}.

Definition cg_initial : cache_group :=
  {| cg_test := re_node_modules; cg_name := NameStr (str "app.initial");
     cg_chunks := Some InitialChunks; cg_enforce := false |}.

Definition cg_dynamic : cache_group :=
  {| cg_test := re_node_modules;
     cg_name := NameFn (fun m => let! s := dynamic_name m in Ok (Some s));
     cg_chunks := Some AsyncChunks; cg_enforce := true |}.

Definition cacheGroups : list (string * cache_group) :=
  [("bundle", cg_bundle); ("initial", cg_initial); ("dynamic", cg_dynamic)].

(** webpack 4's [SplitChunksPlugin.checkTest] for a regular expression:
    the module's [nameForCondition()] (its resource) exists and matches,
    or else the name of one of the chunks the module is in
    ([chunk_names], the names of [module.chunksIterable]) matches. *)
Definition group_applies (g : cache_group) (m : module_info) (chunk_names : list jstr) : bool :=
  match resource m with Some r => test (cg_test g) r | None => false end ||
  existsb (fun n => test (cg_test g) n) chunk_names.

(** ** A direct scanner of paths

    The reference against which the two extractors are compared: find the
    first [/node_modules/] (either separator), then read path segments. *)

Definition is_sep (c : ascii) : bool :=
  bool_decide (c = "\"%char) || bool_decide (c = "/"%char).

(** The class [[\\/]] of the source. *)
Definition sep_cls : regex := Cls false [CChar "\"; CChar "/"].

Definition marker : jstr := str "node_modules".

(** [segment t]: the text of [t] up to the first separator, with that
    separator and what follows it ([None] at the end of the text); fails
    at a line terminator, which [.] cannot cross. *)
Fixpoint segment (t : jstr) : option (jstr * option (ascii * jstr)) :=
  match t with
  | [] => Some ([], None)
  | b :: t' =>
      if is_sep b then Some ([], Some (b, t'))
      else if is_line_terminator b then None
      else match segment t' with Some (seg, term) => Some (b :: seg, term) | None => None end
  end.

(** What follows [s = <sep>node_modules<sep>...]. *)
Definition after_marker (s : jstr) : option jstr :=
  match s with
  | b :: s1 =>
      if is_sep b then
        match strip_prefix marker s1 with
        | Some (d :: t) => if is_sep d then Some t else None
        | _ => None
        end
      else None
  | [] => None
  end.

Definition package_at (s : jstr) : option jstr :=
  match after_marker s with
  | Some t => match segment t with Some (seg, _) => Some seg | None => None end
  | None => None
  end.

Definition dynamic_at (s : jstr) : option jstr :=
  match after_marker s with
  | Some t =>
      match segment t with
      | Some (_, Some (_, rest)) =>
          match segment rest with Some (seg2, _) => Some seg2 | None => None end
      | _ => None
      end
  | None => None
  end.

Definition find_package (s : jstr) : option jstr := first_at package_at s.
Definition find_dynamic (s : jstr) : option jstr := first_at dynamic_at s.

(** ** The scanner, piece by piece *)

Definition seg_ok (b : ascii) : Prop := is_sep b = false /\ is_line_terminator b = false.

Definition term_text (term : option (ascii * jstr)) : jstr :=
  match term with None => [] | Some (d, r) => d :: r end.

Lemma segment_some t seg term :
  segment t = Some (seg, term) ->
  Forall seg_ok seg /\ t = seg ++ term_text term /\
  (forall d r, term = Some (d, r) -> is_sep d = true).
Proof.
  revert seg. induction t as [|b t IH]; intros seg H; simpl in H.
  - injection H as <- <-. split_and!; [constructor|done|done].
  - destruct (is_sep b) eqn:Es.
    { injection H as <- <-. split_and!; [constructor|done|]. by intros d r [= <- _]. }
    destruct (is_line_terminator b) eqn:El; [done|].
    destruct (segment t) as [[seg' term']|] eqn:E; [|done]. injection H as <- ->.
    destruct (IH seg' eq_refl) as (Hok & -> & Hd).
    split_and!; [by constructor|done|done].
Qed.

Lemma segment_none t :
  segment t = None ->
  exists p b q, t = p ++ b :: q /\ Forall seg_ok p /\
                is_sep b = false /\ is_line_terminator b = true.
Proof.
  induction t as [|b t IH]; intros H; simpl in H; [done|].
  destruct (is_sep b) eqn:Es; [done|].
  destruct (is_line_terminator b) eqn:El.
  { by exists [], b, t. }
  destruct (segment t) as [[seg' term']|] eqn:E; [done|].
  destruct (IH eq_refl) as (p & b' & q & -> & Hok & Hs & Hl).
  exists (b :: p), b', q. split_and!; [done|by constructor|done|done].
Qed.

Lemma segment_app p u :
  Forall seg_ok p -> segment (p ++ u) = match segment u with
                                         | Some (seg, term) => Some (p ++ seg, term)
                                         | None => None end.
Proof.
  induction 1 as [|b p [Hs Hl] _ IH]; simpl.
  - by destruct (segment u) as [[??]|].
  - rewrite Hs, Hl, IH. by destruct (segment u) as [[??]|].
Qed.

Lemma dot_run_app p u : Forall seg_ok p -> dot_run (p ++ u) = length p + dot_run u.
Proof. induction 1 as [|b p [_ Hl] _ IH]; simpl; [done|]. by rewrite Hl, IH. Qed.

(** Inside a segment, every position starts with a character that is not a
    separator. *)
Lemma drop_in_segment p u i :
  Forall seg_ok p -> i < length p ->
  exists b v, drop i (p ++ u) = b :: v /\ is_sep b = false.
Proof.
  intros Hok Hi. destruct (lookup_lt_is_Some_2 p i Hi) as [b Hb].
  exists b, (drop (S i) (p ++ u)). split.
  - apply drop_S. by rewrite lookup_app_l.
  - by destruct (proj1 (Forall_lookup _ _) Hok i b Hb).
Qed.

Lemma class_sep b : class_matches false [CChar "\"; CChar "/"] b = is_sep b.
Proof. unfold class_matches, is_sep. simpl. by destruct (bool_decide _), (bool_decide _). Qed.

#[export] Hint Resolve segment_some segment_none : wpc.

(** ** The two patterns, position by position *)

(** [(.*?)([\\/]|$)] with its groups numbered [k] and [k+1]. *)
Definition seg_tail (k : nat) : regex := Seq (Group k (Star false Dot)) (Group (S k) (Alt sep_cls Eol)).

Lemma re_package_shape : re_package = Seq sep_cls (lit_seq marker (Seq sep_cls (seg_tail 1))).
Proof. vm_compute. reflexivity. Qed.

Lemma re_dynamic_shape :
  re_dynamic = Seq sep_cls (lit_seq marker (Seq sep_cls
                 (Seq (Group 1 (Star false Dot)) (Seq sep_cls (seg_tail 2))))).
Proof. vm_compute. reflexivity. Qed.

Lemma mtch_sep n r s c :
  mtch n (Seq sep_cls r) s c =
  match s with b :: s1 => if is_sep b then mtch n r s1 c else [] | [] => [] end.
Proof. unfold sep_cls. rewrite mtch_seq_cls. destruct s; [done|]. by rewrite class_sep. Qed.

Lemma after_marker_cons b s :
  after_marker (b :: s) =
  if is_sep b then
    match strip_prefix marker s with
    | Some (d :: t) => if is_sep d then Some t else None
    | _ => None
    end
  else None.
Proof. reflexivity. Qed.

(** [[\\/]node_modules[\\/]] at the start of [s]. *)
Lemma mtch_marker n r s c :
  mtch n (Seq sep_cls (lit_seq marker (Seq sep_cls r))) s c =
  match after_marker s with Some t => mtch n r t c | None => [] end.
Proof.
  rewrite mtch_sep. destruct s as [|b s]; [done|]. rewrite after_marker_cons.
  destruct (is_sep b); [|done]. rewrite mtch_lit_seq.
  destruct (strip_prefix marker s) as [[|d t]|]; [done| |done].
  rewrite mtch_sep. by destruct (is_sep d).
Qed.

(** [([\\/]|$)] as group [j]. *)
Lemma mtch_term_group n j u c :
  mtch n (Group j (Alt sep_cls Eol)) u c =
  match u with
  | [] => [([], (j, []) :: c)]
  | b :: u' => if is_sep b then [(u', (j, [b]) :: c)] else []
  end.
Proof.
  destruct u as [|b u]; [done|]. unfold sep_cls. cbn [mtch]. rewrite class_sep.
  destruct (is_sep b); [|done]. cbn.
  by replace (S (length u) - length u) with 1 by lia.
Qed.

Lemma seg_tail_none n k t c : segment t = None -> mtch n (seg_tail k) t c = [].
Proof.
  intros H. destruct (segment_none _ H) as (p & b & q & -> & Hok & Hs & Hl).
  unfold seg_tail. rewrite mtch_lazy_group. apply flat_map_seq_nil. intros i _ Hi.
  rewrite (dot_run_app _ _ Hok) in Hi. simpl in Hi. rewrite Hl in Hi.
  rewrite mtch_term_group. destruct (decide (i < length p)) as [Hlt|Hge].
  - destruct (drop_in_segment p (b :: q) i Hok Hlt) as (b' & v & -> & Hs'). by rewrite Hs'.
  - replace i with (length p) by lia. by rewrite drop_app_length, Hs.
Qed.

Lemma seg_tail_some n k t c seg term :
  segment t = Some (seg, term) ->
  head (mtch n (seg_tail k) t c) =
  Some (match term with
        | None => ([], (S k, []) :: (k, seg) :: c)
        | Some (d, r) => (r, (S k, [d]) :: (k, seg) :: c)
        end).
Proof.
  intros H. destruct (segment_some _ _ _ H) as (Hok & -> & Hd).
  assert (Hlast : mtch n (Group (S k) (Alt sep_cls Eol)) (term_text term) ((k, seg) :: c) =
                  [match term with
                   | None => ([], (S k, []) :: (k, seg) :: c)
                   | Some (d, r) => (r, (S k, [d]) :: (k, seg) :: c) end]).
  { rewrite mtch_term_group. destruct term as [[d r]|]; [|done]. simpl. by rewrite (Hd d r). }
  unfold seg_tail. rewrite mtch_lazy_group, (head_flat_map_seq _ _ (length seg)).
  - by rewrite drop_app_length, take_app_length, Hlast.
  - rewrite dot_run_app by done. lia.
  - intros i Hi. destruct (drop_in_segment seg (term_text term) i Hok Hi) as (b & v & Hdrop & Hs).
    by rewrite Hdrop, mtch_term_group, Hs.
  - by rewrite drop_app_length, take_app_length, Hlast.
Qed.

Lemma package_at_mtch n u :
  option_map (fun '(_, c1) => cap_get 1 c1) (head (mtch n re_package u [])) =
  option_map Some (package_at u).
Proof.
  rewrite re_package_shape, mtch_marker. unfold package_at.
  destruct (after_marker u) as [t|]; [|done].
  destruct (segment t) as [[seg term]|] eqn:E.
  - rewrite (seg_tail_some _ _ _ _ _ _ E). by destruct term as [[d r]|].
  - by rewrite (seg_tail_none _ _ _ _ E).
Qed.

(** [module.context.match(re_package)[1]] is the first segment after the
    first [/node_modules/] from which a segment can be read; [null] (and a
    [TypeError]) when there is none. *)
Lemma match_package ctx :
  match_index ctx re_package 1 =
  match find_package ctx with
  | Some seg => Ok (Some seg)
  | None => Throw (TypeError "Cannot read properties of null")
  end.
Proof. apply match_index_scan; [done|]. intros u. apply package_at_mtch. Qed.

(** ** The dynamic pattern: backtracking over the first group *)

Lemma sep_not_lt b : is_sep b = true -> is_line_terminator b = false.
Proof. unfold is_sep, is_line_terminator. by repeat case_bool_decide; subst. Qed.

Lemma sep_inside_nil n r p u i c :
  Forall seg_ok p -> i < length p -> mtch n (Seq sep_cls r) (drop i (p ++ u)) c = [].
Proof.
  intros Hok Hi. destruct (drop_in_segment p u i Hok Hi) as (b & v & -> & Hs).
  by rewrite mtch_sep, Hs.
Qed.

Lemma sep_at_nil n r u c :
  (u = [] \/ exists b v, u = b :: v /\ is_sep b = false) -> mtch n (Seq sep_cls r) u c = [].
Proof. intros [->|(b & v & -> & Hs)]; rewrite mtch_sep; [done|by rewrite Hs]. Qed.

(** No separator in reach: [(.*?)[\\/]] cannot match. *)
Lemma lazy_sep_nil n k r p u c :
  Forall seg_ok p -> dot_run (p ++ u) <= length p ->
  (u = [] \/ exists b v, u = b :: v /\ is_sep b = false) ->
  mtch n (Seq (Group k (Star false Dot)) (Seq sep_cls r)) (p ++ u) c = [].
Proof.
  intros Hok Hrun Hu. rewrite mtch_lazy_group. apply flat_map_seq_nil. intros i _ Hi.
  destruct (decide (i < length p)); [by apply sep_inside_nil|].
  replace i with (length p) by lia. rewrite drop_app_length. by apply sep_at_nil.
Qed.

(** The first separator is reached but the segment after it hits a line
    terminator: every longer first group fails too, since it would have to
    cross that line terminator to reach another separator. *)
Lemma lazy_sep_rest_nil n k seg1 d p b q c :
  Forall seg_ok seg1 -> is_sep d = true -> Forall seg_ok p ->
  is_sep b = false -> is_line_terminator b = true ->
  mtch n (Seq (Group k (Star false Dot)) (Seq sep_cls (seg_tail 2)))
    (seg1 ++ d :: p ++ b :: q) c = [].
Proof.
  intros Hok1 Hd Hok Hsb Hlb. rewrite mtch_lazy_group. apply flat_map_seq_nil. intros i _ Hi.
  rewrite dot_run_app in Hi by done. simpl in Hi.
  rewrite (sep_not_lt d Hd), dot_run_app in Hi by done. simpl in Hi. rewrite Hlb in Hi.
  destruct (lt_eq_lt_dec i (length seg1)) as [[Hlt| ->]|Hgt].
  - by apply sep_inside_nil.
  - rewrite drop_app_length, mtch_sep, Hd. apply seg_tail_none.
    rewrite segment_app by done. simpl. by rewrite Hsb, Hlb.
  - replace i with (length seg1 + S (i - S (length seg1))) by lia.
    rewrite <- drop_drop, drop_app_length, skipn_cons.
    destruct (decide (i - S (length seg1) < length p)); [by apply sep_inside_nil|].
    replace (i - S (length seg1)) with (length p) by lia. rewrite drop_app_length.
    apply sep_at_nil. right. eauto.
Qed.

Lemma dynamic_at_mtch n u :
  option_map (fun '(_, c1) => cap_get 2 c1) (head (mtch n re_dynamic u [])) =
  option_map Some (dynamic_at u).
Proof.
  rewrite re_dynamic_shape, mtch_marker. unfold dynamic_at.
  destruct (after_marker u) as [t|]; [|done].
  destruct (segment t) as [[seg1 [[d rest]|]]|] eqn:E.
  - destruct (segment_some _ _ _ E) as (Hok & -> & Hd). specialize (Hd d rest eq_refl).
    simpl term_text. destruct (segment rest) as [[seg2 term2]|] eqn:E2.
    + pose proof (seg_tail_some n 2 rest ((1, seg1) :: []) _ _ E2) as Htail.
      rewrite mtch_lazy_group, (head_flat_map_seq _ _ (length seg1)).
      * rewrite drop_app_length, take_app_length, mtch_sep, Hd, Htail.
        by destruct term2 as [[??]|].
      * rewrite dot_run_app by done. lia.
      * intros i Hi. by apply sep_inside_nil.
      * rewrite drop_app_length, take_app_length, mtch_sep, Hd.
        intros Hnil. by rewrite Hnil in Htail.
    + destruct (segment_none _ E2) as (p & b & q & -> & Hokp & Hsb & Hlb).
      by rewrite lazy_sep_rest_nil.
  - destruct (segment_some _ _ _ E) as (Hok & -> & _). simpl term_text.
    rewrite lazy_sep_nil; [done|done| |by left].
    rewrite dot_run_app by done. simpl. lia.
  - destruct (segment_none _ E) as (p & b & q & -> & Hok & Hs & Hl).
    rewrite lazy_sep_nil; [done|done| |by eauto].
    rewrite dot_run_app by done. simpl. rewrite Hl. lia.
Qed.

(** [module.context.match(re_dynamic)[2]] is the second segment after the
    first [/node_modules/] from which two segments can be read; [null]
    (and a [TypeError]) when there is none. *)
Lemma match_dynamic ctx :
  match_index ctx re_dynamic 2 =
  match find_dynamic ctx with
  | Some seg => Ok (Some seg)
  | None => Throw (TypeError "Cannot read properties of null")
  end.
Proof. apply match_index_scan; [done|]. intros u. apply dynamic_at_mtch. Qed.

(** ** Paths with a [node_modules] directory *)

Lemma marker_no_sep : Forall (fun ch => is_sep ch = false) marker.
Proof. repeat constructor. Qed.

(** [node_modules] cannot start inside [q] and run into a separator that
    follows [q] unless [q] itself contains it: no letter of [node_modules]
    is a separator. *)
Lemma strip_marker_straddle q d s y :
  is_sep d = true -> strip_prefix marker (q ++ d :: s) = Some y -> contains marker q.
Proof.
  intros Hd H. apply strip_prefix_some in H.
  destruct (decide (length marker <= length q)) as [Hle|Hlt].
  - exists [], (drop (length marker) q). rewrite app_nil_l.
    apply (f_equal (take (length marker))) in H.
    rewrite take_app_le, take_app_length in H by done.
    transitivity (take (length marker) q ++ drop (length marker) q); [by rewrite take_drop|].
    by rewrite H.
  - exfalso. assert (Hl : (q ++ d :: s) !! length q = Some d) by by apply list_lookup_middle.
    rewrite H, lookup_app_l in Hl by lia.
    pose proof (proj1 (Forall_lookup _ _) marker_no_sep _ _ Hl). congruence.
Qed.

(** No marker starts inside a prefix [pre] that does not contain
    [node_modules], when a separator follows [pre]. *)
Lemma marker_free_skip pre s :
  ~ contains marker pre -> (exists d s', s = d :: s' /\ is_sep d = true) ->
  forall i, i < length pre -> after_marker (drop i pre ++ s) = None.
Proof.
  intros Hfree (d & s' & -> & Hd) i Hi.
  destruct (drop i pre) as [|b q] eqn:E.
  { apply (f_equal length) in E. rewrite length_drop in E. simpl in E. lia. }
  change ((b :: q) ++ d :: s') with (b :: (q ++ d :: s')). rewrite after_marker_cons.
  destruct (is_sep b); [|done].
  destruct (strip_prefix marker (q ++ d :: s')) as [y|] eqn:Es; [|done].
  exfalso. apply Hfree. destruct (strip_marker_straddle _ _ _ _ Hd Es) as (a & c & Hq).
  exists (take i pre ++ b :: a), c. rewrite <- (take_drop i pre) at 1. rewrite E, Hq.
  by rewrite <- app_assoc.
Qed.

Definition sep_count (s : jstr) : nat := length (List.filter is_sep s).

Lemma sep_count_app a b : sep_count (a ++ b) = sep_count a + sep_count b.
Proof. unfold sep_count. by rewrite List.filter_app, length_app. Qed.

Lemma sep_count_cons b s : sep_count (b :: s) = (if is_sep b then 1 else 0) + sep_count s.
Proof. unfold sep_count. simpl. by destruct (is_sep b). Qed.

Lemma sep_count_drop i s : sep_count (drop i s) <= sep_count s.
Proof.
  revert i. induction s as [|b s IH]; intros [|i]; simpl; try lia.
  rewrite sep_count_cons. specialize (IH i). lia.
Qed.

Lemma sep_count_seg seg : Forall seg_ok seg -> sep_count seg = 0.
Proof. induction 1 as [|b s [Hs _] _ IH]; [done|]. by rewrite sep_count_cons, Hs. Qed.

(** A marker needs two separators. *)
Lemma after_marker_seps s t : after_marker s = Some t -> 2 <= sep_count s.
Proof.
  destruct s as [|b s]; [done|]. rewrite after_marker_cons, sep_count_cons.
  destruct (is_sep b); [|done].
  destruct (strip_prefix marker s) as [[|d t']|] eqn:E; try done.
  destruct (is_sep d) eqn:Hd; [|done]. intros _.
  apply strip_prefix_some in E as ->.
  rewrite sep_count_app, sep_count_cons, Hd. change (sep_count marker) with 0. lia.
Qed.

Lemma package_at_marker d1 d2 seg rest :
  is_sep d1 = true -> is_sep d2 = true -> Forall seg_ok seg ->
  (rest = [] \/ exists d r, rest = d :: r /\ is_sep d = true) ->
  package_at (d1 :: marker ++ d2 :: seg ++ rest) = Some seg.
Proof.
  intros H1 H2 Hok Hrest. unfold package_at.
  rewrite after_marker_cons, H1, strip_prefix_app, H2, segment_app by done.
  destruct Hrest as [->|(d & r & -> & Hd)]; simpl; [|rewrite Hd]; by rewrite app_nil_r.
Qed.

Lemma dynamic_at_marker d1 d2 d3 seg1 seg2 rest :
  is_sep d1 = true -> is_sep d2 = true -> is_sep d3 = true ->
  Forall seg_ok seg1 -> Forall seg_ok seg2 ->
  (rest = [] \/ exists d r, rest = d :: r /\ is_sep d = true) ->
  dynamic_at (d1 :: marker ++ d2 :: seg1 ++ d3 :: seg2 ++ rest) = Some seg2.
Proof.
  intros H1 H2 H3 Hok1 Hok2 Hrest. unfold dynamic_at.
  rewrite after_marker_cons, H1, strip_prefix_app, H2, segment_app by done.
  simpl. rewrite H3, segment_app by done.
  destruct Hrest as [->|(d & r & -> & Hd)]; simpl; [|rewrite Hd]; by rewrite app_nil_r.
Qed.

Theorem find_package_path pre d1 d2 seg rest :
  ~ contains marker pre -> is_sep d1 = true -> is_sep d2 = true -> Forall seg_ok seg ->
  (rest = [] \/ exists d r, rest = d :: r /\ is_sep d = true) ->
  find_package (pre ++ d1 :: marker ++ d2 :: seg ++ rest) = Some seg.
Proof.
  intros Hfree H1 H2 Hok Hrest. unfold find_package. rewrite first_at_app.
  - cbn [first_at]. by rewrite package_at_marker.
  - intros i Hi. unfold package_at. rewrite marker_free_skip; eauto.
Qed.

Theorem find_dynamic_path pre d1 d2 d3 seg1 seg2 rest :
  ~ contains marker pre -> is_sep d1 = true -> is_sep d2 = true -> is_sep d3 = true ->
  Forall seg_ok seg1 -> Forall seg_ok seg2 ->
  (rest = [] \/ exists d r, rest = d :: r /\ is_sep d = true) ->
  find_dynamic (pre ++ d1 :: marker ++ d2 :: seg1 ++ d3 :: seg2 ++ rest) = Some seg2.
Proof.
  intros Hfree H1 H2 H3 Hok1 Hok2 Hrest. unfold find_dynamic. rewrite first_at_app.
  - cbn [first_at]. by rewrite dynamic_at_marker.
  - intros i Hi. unfold dynamic_at. rewrite marker_free_skip; eauto.
Qed.

(** A directory directly under [node_modules] (the root of a package) has
    no second segment. *)
Lemma find_dynamic_root pre d1 d2 seg :
  ~ contains marker pre -> is_sep d1 = true -> is_sep d2 = true -> Forall seg_ok seg ->
  find_dynamic (pre ++ d1 :: marker ++ d2 :: seg) = None.
Proof.
  intros Hfree H1 H2 Hok. unfold find_dynamic. rewrite first_at_app.
  - assert (Hd : dynamic_at (d1 :: marker ++ d2 :: seg) = None).
    { unfold dynamic_at. rewrite after_marker_cons, H1, strip_prefix_app, H2.
      by rewrite <- (app_nil_r seg), segment_app. }
    cbn [first_at]. rewrite Hd, <- (app_nil_r seg).
    apply first_at_none. intros i _. unfold dynamic_at.
    destruct (after_marker _) eqn:E; [|done]. exfalso. apply after_marker_seps in E.
    pose proof (sep_count_drop i (marker ++ d2 :: seg ++ [])) as Hle.
    rewrite sep_count_app, sep_count_cons, H2, sep_count_app, (sep_count_seg seg Hok) in Hle.
    assert (sep_count marker = 0) by reflexivity. assert (sep_count [] = 0) by reflexivity. lia.
  - intros i Hi. unfold dynamic_at. rewrite marker_free_skip; eauto.
Qed.

(** ** The classifier *)

(** ** A [node_modules] directory that is not followed by a package *)

Lemma after_marker_contains s t : after_marker s = Some t -> contains marker s.
Proof.
  destruct s as [|b s]; [done|]. rewrite after_marker_cons. destruct (is_sep b); [|done].
  destruct (strip_prefix marker s) as [y|] eqn:E; [|done]. intros _.
  apply strip_prefix_some in E. exists [b], y. by rewrite E.
Qed.

Lemma contains_drop p s j : contains p (drop j s) -> contains p s.
Proof. intros (a & b & E). exists (take j s ++ a), b. by rewrite <- app_assoc, <- E, take_drop. Qed.

(** No marker starts at a letter of [node_modules]. *)
Lemma after_marker_in_marker i x : i < length marker -> after_marker (drop i marker ++ x) = None.
Proof. intros Hi. do 12 (destruct i as [|i]; [reflexivity|]). simpl in Hi. lia. Qed.

(** When the only [node_modules] of a path is not followed by a separator
    (a directory [node_modules_cache], or the path ends there), the scan
    finds no package. *)
Lemma find_package_unsegmented pre d rest :
  ~ contains marker pre -> ~ contains marker rest -> is_sep d = true ->
  (forall c r, rest = c :: r -> is_sep c = false) ->
  find_package (pre ++ d :: marker ++ rest) = None.
Proof.
  intros Hpre Hrest Hd Hc. unfold find_package. rewrite first_at_app.
  - cbn [first_at]. assert (H0 : package_at (d :: marker ++ rest) = None).
    { unfold package_at. rewrite after_marker_cons, Hd, strip_prefix_app.
      destruct rest as [|c r]; [done|]. by rewrite (Hc c r eq_refl). }
    rewrite H0. apply first_at_none. intros i Hi. unfold package_at.
    destruct (decide (i < length marker)) as [Hlt|Hge].
    + by rewrite drop_app_le, after_marker_in_marker by lia.
    + rewrite drop_app_ge by lia. destruct (after_marker _) eqn:E; [|done].
      exfalso. apply Hrest, (contains_drop _ _ (i - length marker)). by apply after_marker_contains in E.
  - intros i Hi. unfold package_at. rewrite marker_free_skip; eauto.
Qed.

Definition labels : list jstr :=
  map str ["react"; "rc"; "polyfill"; "moment"; "lodash"; "bizcharts";
           "antv"; "antd"; "intl"; "sc"; "other"].

Lemma first_rule_total name ctx : exists l, first_rule chunkRules name ctx = Some l /\ In l labels.
Proof.
  unfold first_rule, chunkRules, rule_react, rule_rc, rule_polyfill, rule_moment, rule_lodash,
    rule_bizcharts, rule_antv, rule_antd, rule_intl, rule_sc, rule_other, name_rule.
  repeat (destruct (test _ _); [eexists; split; [reflexivity|cbn; tauto]|]).
  eexists; split; [reflexivity|cbn; tauto].
Qed.

(** C1: [bundle.name] never returns [undefined]: when it returns, it returns
    one of the eleven labels, the one of the first rule that fires on the
    package name the scan finds; it throws exactly when the module has no
    context or the scan finds no package name. *)
Theorem bundle_name_spec m :
  match context m with
  | None => bundle_name m = Throw (TypeError "Cannot read properties of null (reading 'match')")
  | Some ctx =>
      match find_package ctx with
      | Some seg => exists l, bundle_name m = Ok (Some l) /\
                              first_rule chunkRules (Some seg) ctx = Some l /\ In l labels
      | None => bundle_name m = Throw (TypeError "Cannot read properties of null")
      end
  end.
Proof.
  unfold bundle_name. destruct (context m) as [ctx|]; [|done].
  rewrite match_package. destruct (find_package ctx) as [seg|]; [|done].
  destruct (first_rule_total (Some seg) ctx) as (l & Hl & Hin).
  exists l. split_and!; [|done|done]. by rewrite rbind_ok, Hl.
Qed.

(** [rest] ends the segment: nothing, or a separator and anything. *)
Definition seg_end (rest : jstr) : Prop :=
  rest = [] \/ exists d r, rest = d :: r /\ is_sep d = true.

(** C2: [dynamic.name] returns [app.<seg>.dynamic] for the second segment
    [seg] the scan finds after the first [/node_modules/], and throws
    exactly when the module has no context or the scan finds none. *)
Theorem dynamic_name_spec m :
  dynamic_name m =
  match context m with
  | None => Throw (TypeError "Cannot read properties of null (reading 'match')")
  | Some ctx =>
      match find_dynamic ctx with
      | Some seg => Ok (str "app." ++ seg ++ str ".dynamic")
      | None => Throw (TypeError "Cannot read properties of null")
      end
  end.
Proof.
  unfold dynamic_name. destruct (context m) as [ctx|]; [|done].
  rewrite match_dynamic. by destruct (find_dynamic ctx).
Qed.

(** C4: on a context [pre/node_modules/seg(/...)] where [pre] does not
    contain [node_modules] and [seg] is a path segment, [bundle.name]
    classifies [seg]. *)
Theorem bundle_name_path m pre d1 d2 seg rest :
  context m = Some (pre ++ d1 :: marker ++ d2 :: seg ++ rest) ->
  ~ contains marker pre -> is_sep d1 = true -> is_sep d2 = true ->
  Forall seg_ok seg -> seg_end rest ->
  bundle_name m = Ok (first_rule chunkRules (Some seg) (pre ++ d1 :: marker ++ d2 :: seg ++ rest)).
Proof.
  intros Hc Hfree H1 H2 Hok Hrest. unfold bundle_name.
  by rewrite Hc, match_package, find_package_path.
Qed.

(** C5: on a context [pre/node_modules/seg1/seg2(/...)], [dynamic.name] is
    [app.<seg2>.dynamic]. *)
Theorem dynamic_name_path m pre d1 d2 d3 seg1 seg2 rest :
  context m = Some (pre ++ d1 :: marker ++ d2 :: seg1 ++ d3 :: seg2 ++ rest) ->
  ~ contains marker pre -> is_sep d1 = true -> is_sep d2 = true -> is_sep d3 = true ->
  Forall seg_ok seg1 -> Forall seg_ok seg2 -> seg_end rest ->
  dynamic_name m = Ok (str "app." ++ seg2 ++ str ".dynamic").
Proof.
  intros Hc Hfree H1 H2 H3 Hok1 Hok2 Hrest. unfold dynamic_name.
  by rewrite Hc, match_dynamic, find_dynamic_path.
Qed.

(** C3: [dynamic.name] throws a [TypeError] for a module whose directory is
    the root of its package ([pre/node_modules/seg], e.g. the [index.js]
    of [react]): [match] returns [null] and [match[2]] reads [null]. *)
Theorem dynamic_name_package_root m pre d1 d2 seg :
  context m = Some (pre ++ d1 :: marker ++ d2 :: seg) ->
  ~ contains marker pre -> is_sep d1 = true -> is_sep d2 = true -> Forall seg_ok seg ->
  dynamic_name m = Throw (TypeError "Cannot read properties of null").
Proof.
  intros Hc Hfree H1 H2 Hok. unfold dynamic_name.
  by rewrite Hc, match_dynamic, find_dynamic_root.
Qed.

Lemma re_react_shape :
  re "^dva|redux|react" =
  Alt (Seq Bol (lit_seq (str "dv") (Chr "a"))) (Alt (lit_seq (str "redu") (Chr "x")) (lit_seq (str "reac") (Chr "t"))).
Proof. vm_compute. reflexivity. Qed.

(** C6: in [/^dva|redux|react/] the anchor binds to [dva] alone: every
    package whose name contains [redux] or [react] anywhere ([preact],
    [@reduxjs/toolkit], [draft-js-react]) goes to the [react] chunk. *)
Theorem react_rule_unanchored name ctx :
  containsb (str "redux") name = true \/ containsb (str "react") name = true ->
  first_rule chunkRules (Some name) ctx = Some (str "react").
Proof.
  intros H. cbn [first_rule chunkRules]. unfold rule_react, name_rule. cbn [js_to_string].
  rewrite re_react_shape, !test_alt, !test_literal.
  change (str "redu" ++ ["x"%char]) with (str "redux"). change (str "reac" ++ ["t"%char]) with (str "react").
  destruct H as [-> | ->]; rewrite ?orb_true_r; reflexivity.
Qed.

Lemma re_node_modules_shape : re_node_modules = Seq sep_cls (lit_seq (str "node_module") (Chr "s")).
Proof. vm_compute. reflexivity. Qed.

(** The cache-group test accepts every path with a separator followed by
    [node_modules]. *)
Lemma test_node_modules pre d x : is_sep d = true -> test re_node_modules (pre ++ d :: marker ++ x) = true.
Proof.
  intros Hd. apply test_spec. exists (length pre), x. rewrite drop_app_length, length_app. split; [simpl; lia|].
  apply (mtch_sound _ _ _ [] _ []). rewrite re_node_modules_shape, mtch_sep, Hd, mtch_literal.
  change (str "node_module" ++ ["s"%char]) with marker. rewrite strip_prefix_app. by left.
Qed.

(** C24: the test [/[\\/]node_modules/] of the [bundle] cache group does
    not require a separator after [node_modules]: a module in a directory
    such as [/proj/node_modules_cache] (or directly in [node_modules]) is
    selected by the group, and its [name] function then throws, since
    [match] finds no package segment and [match(...)[1]] reads [null]. *)
Theorem bundle_group_without_package m pre d rest tail :
  context m = Some (pre ++ d :: marker ++ rest) -> resource m = Some (pre ++ d :: marker ++ rest ++ tail) ->
  ~ contains marker pre -> ~ contains marker rest -> is_sep d = true ->
  (forall c r, rest = c :: r -> is_sep c = false) ->
  (forall cs, group_applies cg_bundle m cs = true) /\ bundle_name m = Throw (TypeError "Cannot read properties of null").
Proof.
  intros Hc Hr Hpre Hrest Hd Hsep. split.
  - intros cs. unfold group_applies. rewrite Hr, test_node_modules by done. done.
  - unfold bundle_name. by rewrite Hc, match_package, find_package_unsegmented.
Qed.

(** What [bundle.name] returns is one of the labels. *)
Lemma bundle_name_label m l : bundle_name m = Ok (Some l) -> In l labels.
Proof.
  unfold bundle_name. destruct (context m) as [ctx|]; [|done].
  destruct (match_index ctx re_package 1) as [pkg|]; cbn [rbind]; [|done].
  destruct (first_rule_total pkg ctx) as (l' & Hl & Hin). rewrite Hl. by intros [= <-].
Qed.

(** ** Witnesses *)

Lemma bundle_name_path_witness :
  bundle_name {| context := Some (str "/app/node_modules/@ant-design/icons/lib"); resource := None |} =
  Ok (Some (str "antd")).
Proof.
  rewrite (bundle_name_path _ (str "/app") "/" "/" (str "@ant-design") (str "/icons/lib")).
  - reflexivity.
  - reflexivity.
  - apply (bool_decide_eq_true_1 _). vm_compute. reflexivity.
  - reflexivity.
  - reflexivity.
  - repeat constructor.
  - right. eexists _, _. split; reflexivity.
Defined.

Lemma dynamic_name_path_witness :
  dynamic_name {| context := Some (str "/app/node_modules/foo/bar/index.js"); resource := None |} =
  Ok (str "app.bar.dynamic").
Proof.
  apply (dynamic_name_path _ (str "/app") "/" "/" "/" (str "foo") (str "bar") (str "/index.js")).
  - reflexivity.
  - apply (bool_decide_eq_true_1 _). vm_compute. reflexivity.
  - reflexivity.
  - reflexivity.
  - reflexivity.
  - repeat constructor.
  - repeat constructor.
  - right. eexists _, _. split; reflexivity.
Defined.

Lemma dynamic_name_package_root_witness :
  group_applies cg_dynamic {| context := Some (str "/app/node_modules/react");
                              resource := Some (str "/app/node_modules/react/index.js") |} [] = true /\
  dynamic_name {| context := Some (str "/app/node_modules/react");
                  resource := Some (str "/app/node_modules/react/index.js") |} =
  Throw (TypeError "Cannot read properties of null").
Proof.
  split; [vm_compute; reflexivity|].
  apply (dynamic_name_package_root _ (str "/app") "/" "/" (str "react")).
  - reflexivity.
  - apply (bool_decide_eq_true_1 _). vm_compute. reflexivity.
  - reflexivity.
  - reflexivity.
  - repeat constructor.
Defined.

Lemma react_rule_unanchored_witness :
  first_rule chunkRules (Some (str "preact")) (str "/app/node_modules/preact/dist") = Some (str "react").
Proof. apply react_rule_unanchored. right. vm_compute. reflexivity. Defined.

Lemma bundle_group_without_package_witness :
  (forall cs, group_applies cg_bundle {| context := Some (str "/proj/node_modules_cache");
                                         resource := Some (str "/proj/node_modules_cache/x.js") |} cs = true) /\
  bundle_name {| context := Some (str "/proj/node_modules_cache");
                 resource := Some (str "/proj/node_modules_cache/x.js") |} =
  Throw (TypeError "Cannot read properties of null").
Proof.
  apply (bundle_group_without_package _ (str "/proj") "/" (str "_cache") (str "/x.js")).
  - reflexivity.
  - reflexivity.
  - intros Hc. apply containsb_spec in Hc. vm_compute in Hc. discriminate.
  - intros Hc. apply containsb_spec in Hc. vm_compute in Hc. discriminate.
  - reflexivity.
  - intros c r [= <- _]. reflexivity.
Defined.
