(* ===== verification/ChunkOrder.v ===== *)
(** * The chunk order of [HtmlWebpackPlugin] ([src/index.js] 209-222)

    [chunksSortMode] maps each chunk to the index, in the table [order], of
    the part of its first name before the first dot, and compares chunks
    by the difference of these keys.  The plugin passes it to
    [Array.prototype.sort], modelled by [js_sort], a stable insertion sort
    in which a throwing comparator makes the sort throw (ECMAScript
    requires [sort] to be stable since 2019).

    The theorems: the comparator is the difference of keys in [-1..5]
    (hence antisymmetric and transitive); for named chunks the sort
    returns the chunks grouped by key in increasing key order, each group
    in its original order ([js_sort_bucket], an abstract specification
    independent of the algorithm), hence a sorted, stable permutation; the
    sort throws exactly when a chunk without a name meets another chunk;
    and, composing with [ChunkRules], the keys of every chunk the cache
    groups name: the labels of the [bundle] group other than [polyfill]
    and [antv] are not in the table, so their chunks get key [-1] and are
    injected before the polyfills (finding). *)

From S2P Require Import Prelude RegexSyntax JsRegex ChunkRules.
From Stdlib Require Import ZArith Sorted Permutation.

Open Scope Z_scope.

(** ** The comparator *)

(** A chunk as the comparator sees it; [chunk_id] stands for the identity
    of the JavaScript object. *)
Record chunk := {
  chunk_id : nat;
  names : list jstr
}.

Definition order : list jstr :=
  map str ["polyfill"; "lib"; "antv"; "component"; "app"; "main"].

(** [Array.prototype.indexOf] with strict equality: [-1] when absent. *)
Fixpoint index_of (x : jstr) (l : list jstr) : Z :=
  match l with
  | [] => -1
  | y :: l' =>
      if bool_decide (x = y) then 0
      else let i := index_of x l' in if Z.ltb i 0 then -1 else i + 1
  end.

(** [s.split('.')[0]]: the text before the first dot (all of [s] when it
    has none). *)
Fixpoint first_segment (s : jstr) : jstr :=
  match s with
  | [] => []
  | c :: s' => if bool_decide (c = "."%char) then [] else c :: first_segment s'
  end.

(** [order.indexOf(chunk.names[0].split('.')[0])]: [names[0]] of a chunk
    without names is [undefined], and [undefined.split] throws. *)
Definition chunk_key (ch : chunk) : result Z :=
  match names ch with
  | [] => Throw (TypeError "Cannot read properties of undefined (reading 'split')")
  | n :: _ => Ok (index_of (first_segment n) order)
  end.

Definition chunksSortMode (chunk1 chunk2 : chunk) : result Z :=
  let! k1 := chunk_key chunk1 in
  let! k2 := chunk_key chunk2 in
  Ok (k1 - k2).

(** ** [Array.prototype.sort] *)

Section Sort.
Context {A : Type} (cmp : A -> A -> result Z).

  (** Put [x] before the first element it is not greater than. *)
Fixpoint insert (x : A) (l : list A) : result (list A) :=
    match l with
    | [] => Ok [x]
    | y :: l' =>
        let! c := cmp x y in
        if Z.leb c 0 then Ok (x :: y :: l')
        else let! r := insert x l' in Ok (y :: r)
    end.

Fixpoint js_sort (l : list A) : result (list A) :=
    match l with
    | [] => Ok []
    | x :: l' => let! s := js_sort l' in insert x s
    end.
End Sort.

(** ** Sorting by a key: the abstract specification

    For a comparator that is the difference of integer keys drawn from a
    strictly increasing list [ks], a stable sort returns the elements of
    key [ks_1], in their original order, then those of key [ks_2], and so
    on: [bucket].  This does not depend on the sorting algorithm. *)

Lemma sorted_split (ks : list Z) k :
  StronglySorted Z.lt ks -> In k ks ->
  exists ks1 ks2, ks = ks1 ++ k :: ks2 /\ Forall (fun j => j < k) ks1 /\ Forall (fun j => k < j) ks2.
Proof.
  induction 1 as [|j ks Hs IH Hall]; [done|]. intros [->|Hin].
  - exists [], ks. split_and!; [done|constructor|done].
  - destruct (IH Hin) as (ks1 & ks2 & -> & H1 & H2). exists (j :: ks1), ks2.
    split_and!; [done| |done]. constructor; [|done].
    apply Forall_app in Hall as [_ Hall]. by inversion Hall.
Qed.

Lemma strongly_sorted_middle {A} (R : A -> A -> Prop) p q x :
  StronglySorted R (p ++ q) -> Forall (fun y => R y x) p -> Forall (R x) q ->
  StronglySorted R (p ++ x :: q).
Proof.
  induction p as [|y p IH]; simpl; intros Hs Hp Hq.
  - by constructor.
  - apply StronglySorted_inv in Hs as [Hs Hall]. inversion Hp as [|? ? Hyx Hp']; subst.
    constructor; [by apply IH|]. apply Forall_app in Hall as [H1 H2].
    apply Forall_app. split; [done|]. by constructor.
Qed.

Section Buckets.
Context {A : Type} (key : A -> Z) (named : A -> Prop) (cmp : A -> A -> result Z) (ks : list Z).
Hypothesis Hks : StronglySorted Z.lt ks.
Hypothesis Hkey : forall x, named x -> In (key x) ks.
Hypothesis Hcmp : forall x y, named x -> named y -> cmp x y = Ok (key x - key y).

Definition bucket (l : list A) : list A :=
    flat_map (fun k => List.filter (fun x => Z.eqb (key x) k) l) ks.

Lemma insert_skip x p q :
    named x -> Forall named p -> Forall (fun y => key y < key x) p ->
    (forall y q', q = y :: q' -> named y /\ key x <= key y) ->
    insert cmp x (p ++ q) = Ok (p ++ x :: q).
  Proof.
    intros Hx. induction 1 as [|y p Hy Hp IH]; intros Hlt Hq; simpl.
    - destruct q as [|y q']; simpl; [done|]. destruct (Hq y q' eq_refl) as [Hy Hle].
      rewrite Hcmp by done. simpl. by rewrite (proj2 (Z.leb_le _ _)) by lia.
    - inversion Hlt as [|? ? Hlt1 Hlt2]; subst. rewrite Hcmp by done. simpl.
      rewrite (proj2 (Z.leb_gt _ _)) by lia. by rewrite IH.
  Qed.

Lemma blocks_forall (P : A -> Prop) js l :
    (forall y j, In j js -> key y = j -> P y) ->
    Forall P (flat_map (fun k => List.filter (fun y => Z.eqb (key y) k) l) js).
  Proof.
    intros H. apply List.Forall_forall. intros y Hin. apply in_flat_map in Hin as (j & Hj & Hy).
    apply filter_In in Hy as [_ Hy]. apply Z.eqb_eq in Hy. eauto.
  Qed.

Lemma blocks_cons_ne x l js :
    (forall j, In j js -> j <> key x) ->
    flat_map (fun k => List.filter (fun y => Z.eqb (key y) k) (x :: l)) js =
    flat_map (fun k => List.filter (fun y => Z.eqb (key y) k) l) js.
  Proof.
    intros H. apply flat_map_ext_in. intros j Hj. simpl.
    by rewrite (proj2 (Z.eqb_neq _ _)) by (intros E; by apply (H j Hj)).
  Qed.

Lemma bucket_named l : Forall named l -> Forall named (bucket l).
  Proof.
    intros Hl. apply List.Forall_forall. intros y Hin. apply in_flat_map in Hin as (j & _ & Hy).
    apply filter_In in Hy as [Hy _]. by apply (proj1 (List.Forall_forall _ _) Hl).
  Qed.

Lemma filter_key_cons x l :
    List.filter (fun y => Z.eqb (key y) (key x)) (x :: l) =
    x :: List.filter (fun y => Z.eqb (key y) (key x)) l.
  Proof. simpl. by rewrite Z.eqb_refl. Qed.

  (** Where a new element goes: after every element of a smaller key,
      before every element of a key at least its own. *)
Lemma bucket_cons x l :
    named x ->
    exists p q, bucket l = p ++ q /\ bucket (x :: l) = p ++ x :: q /\
                Forall (fun y => key y < key x) p /\ Forall (fun y => key x <= key y) q.
  Proof.
    intros Hx. destruct (sorted_split ks (key x) Hks (Hkey x Hx)) as (ks1 & ks2 & Heq & H1 & H2).
    unfold bucket. rewrite Heq, !flat_map_app. cbn [flat_map].
    rewrite (blocks_cons_ne x l ks1), (blocks_cons_ne x l ks2), filter_key_cons.
    2: { intros j Hj. apply (proj1 (List.Forall_forall _ _) H2) in Hj. lia. }
    2: { intros j Hj. apply (proj1 (List.Forall_forall _ _) H1) in Hj. lia. }
    eexists _, _. split_and!; [reflexivity|reflexivity| |].
    - apply blocks_forall. intros y j Hj <-. by apply (proj1 (List.Forall_forall _ _) H1).
    - apply Forall_app. split.
      + apply List.Forall_forall. intros y Hy. apply filter_In in Hy as [_ Hy].
        apply Z.eqb_eq in Hy. lia.
      + apply blocks_forall. intros y j Hj <-.
        apply (proj1 (List.Forall_forall _ _) H2) in Hj. lia.
  Qed.

Lemma insert_bucket x l :
    named x -> Forall named l -> insert cmp x (bucket l) = Ok (bucket (x :: l)).
  Proof.
    intros Hx Hl. destruct (bucket_cons x l Hx) as (p & q & Hb & Hbx & Hp & Hq).
    pose proof (bucket_named l Hl) as Hn. rewrite Hb in Hn. apply Forall_app in Hn as [Hnp Hnq].
    rewrite Hb, Hbx. apply insert_skip; [done|done|done|].
    intros y q' ->. inversion Hnq. inversion Hq. by split.
  Qed.

Lemma bucket_nil : bucket [] = [].
  Proof. apply flat_map_nil_fun. Qed.

  (** The insertion sort computes the buckets. *)
Lemma js_sort_bucket l : Forall named l -> js_sort cmp l = Ok (bucket l).
  Proof.
    induction 1 as [|x l Hx Hl IH]; simpl; [by rewrite bucket_nil|].
    rewrite IH. simpl. by apply insert_bucket.
  Qed.

Lemma bucket_perm l : Forall named l -> Permutation l (bucket l).
  Proof.
    induction 1 as [|x l Hx Hl IH]; [by rewrite bucket_nil|].
    destruct (bucket_cons x l Hx) as (p & q & Hb & Hbx & _ & _).
    rewrite Hbx. rewrite Hb in IH. by apply Permutation_cons_app.
  Qed.

Lemma bucket_sorted l :
    Forall named l -> StronglySorted (fun a b => key a <= key b) (bucket l).
  Proof.
    induction 1 as [|x l Hx Hl IH]; [rewrite bucket_nil; constructor|].
    destruct (bucket_cons x l Hx) as (p & q & Hb & Hbx & Hp & Hq).
    rewrite Hbx. rewrite Hb in IH. apply strongly_sorted_middle; [done| |done].
    eapply Forall_impl; [exact Hp|]. simpl. lia.
  Qed.

  (** Stability: the elements of each key keep their original order. *)
Lemma bucket_stable l k :
    Forall named l ->
    List.filter (fun y => Z.eqb (key y) k) (bucket l) = List.filter (fun y => Z.eqb (key y) k) l.
  Proof.
    induction 1 as [|x l Hx Hl IH]; [by rewrite bucket_nil|].
    destruct (bucket_cons x l Hx) as (p & q & Hb & Hbx & Hp & Hq).
    rewrite Hbx, List.filter_app. rewrite Hb, List.filter_app in IH. cbn [List.filter].
    destruct (Z.eqb_spec (key x) k) as [<-|Hne]; [|done].
    rewrite <- IH, (filter_forall_false _ p); [done|].
    eapply Forall_impl; [exact Hp|]. intros y Hy. simpl in Hy. apply Z.eqb_neq. lia.
  Qed.
End Buckets.

Section SortFacts.
Context {A : Type} (cmp : A -> A -> result Z).

Lemma insert_length x s r : insert cmp x s = Ok r -> length r = S (length s).
  Proof.
    revert r. induction s as [|y s IH]; intros r H; simpl in H; [by injection H as <-|].
    destruct (cmp x y) as [c|]; simpl in H; [|done].
    destruct (Z.leb c 0); [by injection H as <-|].
    destruct (insert cmp x s) as [r'|] eqn:E; simpl in H; [|done].
    injection H as <-. simpl. by rewrite (IH r').
  Qed.

Lemma js_sort_length l s : js_sort cmp l = Ok s -> length s = length l.
  Proof.
    revert s. induction l as [|x l IH]; intros s H; simpl in H; [by injection H as <-|].
    destruct (js_sort cmp l) as [s'|] eqn:E; simpl in H; [|done].
    rewrite (insert_length _ _ _ H). simpl. by rewrite (IH s').
  Qed.

  (** Inserting into a non-empty list compares with its first element. *)
Lemma insert_compares x y s r : insert cmp x (y :: s) = Ok r -> exists c, cmp x y = Ok c.
  Proof. simpl. destruct (cmp x y); [eauto|done]. Qed.
End SortFacts.

(** ** The chunk order *)

Definition named (c : chunk) : Prop := names c <> [].

Definition chunk_rank (c : chunk) : Z :=
  match chunk_key c with Ok k => k | Throw _ => -1 end.

Definition ranks : list Z := [-1; 0; 1; 2; 3; 4; 5].

Lemma index_of_range x l : -1 <= index_of x l < Z.of_nat (length l).
Proof.
  induction l as [|y l IH]; simpl; [lia|].
  case_bool_decide; [lia|]. destruct (Z.ltb_spec (index_of x l) 0); lia.
Qed.

Lemma chunk_key_named c : named c -> chunk_key c = Ok (chunk_rank c) /\ -1 <= chunk_rank c <= 5.
Proof.
  unfold named, chunk_rank, chunk_key. destruct (names c) as [|n ns]; [done|]. intros _.
  split; [done|]. pose proof (index_of_range (first_segment n) order) as H.
  replace (Z.of_nat (length order)) with 6 in H by reflexivity. lia.
Qed.

Lemma chunk_key_ok c z : chunk_key c = Ok z -> named c /\ z = chunk_rank c.
Proof. unfold chunk_rank, chunk_key, named. destruct (names c); [done|]. by intros [= <-]. Qed.

Lemma chunksSortMode_ok a b z :
  chunksSortMode a b = Ok z -> named a /\ named b /\ z = chunk_rank a - chunk_rank b.
Proof.
  unfold chunksSortMode. destruct (chunk_key a) as [ka|] eqn:Ea; [|done].
  destruct (chunk_key b) as [kb|] eqn:Eb; [|done]. simpl. intros [= <-].
  apply chunk_key_ok in Ea as [? ->], Eb as [? ->]. done.
Qed.

Lemma chunksSortMode_named a b :
  named a -> named b -> chunksSortMode a b = Ok (chunk_rank a - chunk_rank b).
Proof.
  intros Ha Hb. unfold chunksSortMode.
  by rewrite (proj1 (chunk_key_named a Ha)), (proj1 (chunk_key_named b Hb)).
Qed.

Lemma rank_in_ranks c : named c -> In (chunk_rank c) ranks.
Proof.
  intros H. destruct (chunk_key_named c H) as [_ Hr].
  assert (chunk_rank c = -1 \/ chunk_rank c = 0 \/ chunk_rank c = 1 \/ chunk_rank c = 2 \/
          chunk_rank c = 3 \/ chunk_rank c = 4 \/ chunk_rank c = 5) as Hc by lia.
  unfold ranks. destruct Hc as [E|[E|[E|[E|[E|[E|E]]]]]]; rewrite E; simpl; tauto.
Qed.

Lemma ranks_sorted : StronglySorted Z.lt ranks.
Proof. repeat constructor. Qed.

#[export] Hint Resolve chunksSortMode_named rank_in_ranks ranks_sorted : wpc.

(** C9: [chunksSortMode] is a consistent comparator: it returns only
    differences of keys in [-1..5], so it is additive along chains
    (hence transitive), antisymmetric, and bounded by 6. *)
Theorem chunksSortMode_consistent a b c z1 z2 :
  chunksSortMode a b = Ok z1 -> chunksSortMode b c = Ok z2 ->
  chunksSortMode a c = Ok (z1 + z2) /\ chunksSortMode b a = Ok (- z1) /\ -6 <= z1 <= 6.
Proof.
  intros H1 H2. apply chunksSortMode_ok in H1 as (Ha & Hb & ->), H2 as (_ & Hc & ->).
  rewrite !chunksSortMode_named by done.
  pose proof (proj2 (chunk_key_named a Ha)). pose proof (proj2 (chunk_key_named b Hb)).
  split_and!; [f_equal; lia|f_equal; lia|lia|lia].
Qed.

(** C7: on chunks that all have a name, the sort returns them grouped by
    key in increasing key order, each group in its original order. *)
Theorem chunk_sort_buckets l :
  Forall named l -> js_sort chunksSortMode l = Ok (bucket chunk_rank ranks l).
Proof. apply (js_sort_bucket chunk_rank named chunksSortMode ranks); eauto with wpc. Qed.

(** C8: the result is a permutation of the chunks, sorted by key, and stable:
    the chunks of each key are in their original order. *)
Theorem chunk_sort_correct l s :
  Forall named l -> js_sort chunksSortMode l = Ok s ->
  Permutation l s /\ StronglySorted (fun a b => chunk_rank a <= chunk_rank b) s /\
  forall k, List.filter (fun c => Z.eqb (chunk_rank c) k) s =
            List.filter (fun c => Z.eqb (chunk_rank c) k) l.
Proof.
  intros Hl Hs.
  rewrite (js_sort_bucket chunk_rank named chunksSortMode ranks) in Hs by eauto with wpc.
  injection Hs as <-.
  split_and!.
  - apply (bucket_perm chunk_rank named ranks); eauto with wpc.
  - apply (bucket_sorted chunk_rank named ranks); eauto with wpc.
  - intros k. apply (bucket_stable chunk_rank named ranks); eauto with wpc.
Qed.

(** C10: the sort throws exactly when a chunk without a name meets another
    chunk ([names[0]] is [undefined] and [undefined.split] throws). *)
Theorem chunk_sort_ok_iff l :
  is_ok (js_sort chunksSortMode l) = true <-> Forall named l \/ (length l <= 1)%nat.
Proof.
  split.
  - induction l as [|x l IH]; simpl; [intros _; right; simpl; lia|].
    destruct (js_sort chunksSortMode l) as [s|] eqn:E; simpl; [|done]. intros Hins.
    destruct s as [|y s].
    { apply js_sort_length in E. simpl in E. right. simpl. lia. }
    destruct (insert chunksSortMode x (y :: s)) as [r|] eqn:Ei; [|done].
    destruct (insert_compares _ _ _ _ _ Ei) as [c Hc].
    apply chunksSortMode_ok in Hc as (Hx & Hy & _).
    destruct (IH eq_refl) as [Hl|Hlen]; [left; by constructor|].
    destruct l as [|w [|? ?]]; simpl in *; try lia.
    injection E as <- <-. left. by repeat constructor.
  - intros [Hl|Hlen].
    + by rewrite (js_sort_bucket chunk_rank named chunksSortMode ranks) by eauto with wpc.
    + destruct l as [|x [|? ?]]; simpl in *; [done|done|lia].
Qed.

(** C22: the keys [chunksSortMode] gives to the chunks the cache groups
    name: a [bundle] chunk has key [-1], except [polyfill] ([0]) and
    [antv] ([2]); the [initial] chunk and every [dynamic] chunk have key
    [4] (their names start with [app.]), like the application chunks; so
    the vendor chunks come first, then the polyfills, and the dynamic
    chunks tie with [app.initial] and keep their original order. *)
Theorem cache_group_chunk_keys m i :
  (forall l, bundle_name m = Ok (Some l) ->
     chunk_key {| chunk_id := i; names := [l] |} =
     Ok (if bool_decide (l = str "polyfill") then 0 else if bool_decide (l = str "antv") then 2 else -1)) /\
  (forall n, dynamic_name m = Ok n -> chunk_key {| chunk_id := i; names := [n] |} = Ok 4) /\
  chunk_key {| chunk_id := i; names := [str "app.initial"] |} = Ok 4.
Proof.
  split_and!; [|intros n|reflexivity].
  - intros l Hl. apply bundle_name_label in Hl.
    repeat (destruct Hl as [<-|Hl]; [reflexivity|]). done.
  - unfold dynamic_name. destruct (context m) as [ctx|]; [|done].
    destruct (match_index ctx re_dynamic 2) as [seg|]; cbn [rbind]; [|done]. intros [= <-]. reflexivity.
Qed.

(** ** Witnesses *)

Definition chunk_named (i : nat) (n : string) : chunk := {| chunk_id := i; names := [str n] |}.

Lemma chunksSortMode_consistent_witness :
  chunksSortMode (chunk_named 0 "polyfill.vendor") (chunk_named 1 "app.x.dynamic") = Ok (-4) /\
  chunksSortMode (chunk_named 1 "app.x.dynamic") (chunk_named 2 "main") = Ok (-1) /\
  chunksSortMode (chunk_named 0 "polyfill.vendor") (chunk_named 2 "main") = Ok (-5).
Proof.
  split; [reflexivity|]. split; [reflexivity|].
  apply (proj1 (chunksSortMode_consistent (chunk_named 0 "polyfill.vendor")
                  (chunk_named 1 "app.x.dynamic") (chunk_named 2 "main") (-4) (-1)
                  ltac:(reflexivity) ltac:(reflexivity))).
Defined.

Lemma chunk_sort_buckets_witness :
  js_sort chunksSortMode [chunk_named 0 "app.x.dynamic"; chunk_named 1 "polyfill.vendor"; chunk_named 2 "main"] =
  Ok [chunk_named 1 "polyfill.vendor"; chunk_named 0 "app.x.dynamic"; chunk_named 2 "main"].
Proof.
  rewrite chunk_sort_buckets.
  - vm_compute. reflexivity.
  - repeat constructor; discriminate.
Defined.

Lemma chunk_sort_correct_witness :
  exists s, js_sort chunksSortMode [chunk_named 0 "main"; chunk_named 1 "react"; chunk_named 2 "polyfill"] = Ok s /\
            Permutation [chunk_named 0 "main"; chunk_named 1 "react"; chunk_named 2 "polyfill"] s.
Proof.
  eexists. split; [vm_compute; reflexivity|].
  apply (chunk_sort_correct [chunk_named 0 "main"; chunk_named 1 "react"; chunk_named 2 "polyfill"]).
  - repeat constructor; discriminate.
  - vm_compute. reflexivity.
Defined.
