(* ===== verification/Prefetch.v ===== *)
(** * The prefetch list of [HtmlWebpackPlugin] ([src/index.js] 224-231)

    [templateParameters] receives the compilation and returns
    [{ prefetchAssets }]: the keys of [compilation.assets] that match
    [/\.dynamic\./], each prefixed with [publicPath].  [Object.keys] lists
    the keys of an ordinary object in the order of OrdinaryOwnPropertyKeys:
    the array indices first, in increasing numeric order, then the other
    string keys in insertion order; [object_keys] models it.

    The theorems: the prefetch list is the assets whose name contains
    [.dynamic.], in emission order (the reordering of [Object.keys] never
    matters, since an array index has no dot); and every asset emitted for
    a chunk that [dynamic.name] names is prefetched. *)

From S2P Require Import Prelude RegexSyntax JsRegex ChunkRules.
From Stdlib Require Import NArith Sorted Permutation.

(** ** [Object.keys] *)

Definition is_digit (c : ascii) : bool :=
  Nat.leb 48 (nat_of_ascii c) && Nat.leb (nat_of_ascii c) 57.

Fixpoint digits_value (acc : N) (s : jstr) : N :=
  match s with
  | [] => acc
  | c :: s' => digits_value (acc * 10 + N.of_nat (nat_of_ascii c - 48))%N s'
  end.

(** A canonical array index: the decimal form of a number below [2^32 - 1]
    without leading zeros. *)
Definition array_index (k : jstr) : option N :=
  if forallb is_digit k && negb (bool_decide (k = [])) &&
     (bool_decide (k = str "0") || negb (bool_decide (head k = Some "0"%char)))
  then let v := digits_value 0 k in if N.ltb v 4294967295 then Some v else None
  else None.

Fixpoint insert_index (k : jstr) (v : N) (l : list (jstr * N)) : list (jstr * N) :=
  match l with
  | [] => [(k, v)]
  | (k', v') :: l' => if N.leb v v' then (k, v) :: l else (k', v') :: insert_index k v l'
  end.

Definition index_keys (keys : list jstr) : list (jstr * N) :=
  fold_right (fun k acc => match array_index k with
                           | Some v => insert_index k v acc
                           | None => acc end) [] keys.

(** The keys of an object whose keys were created in the order [keys]. *)
Definition object_keys (keys : list jstr) : list jstr :=
  map fst (index_keys keys) ++
  List.filter (fun k => match array_index k with Some _ => false | None => true end) keys.

(** ** [templateParameters] *)

(** What the callback reads of the compilation: the keys of [assets], in
    the order the assets were emitted. *)
Record compilation := { assets : list jstr }.

Record template_parameters := { prefetchAssets : list jstr }.

Definition re_dynamic_asset : regex := re "\.dynamic\.".

Definition templateParameters (publicPath : jstr) (comp : compilation) : template_parameters :=
  {| prefetchAssets :=
       map (fun item => publicPath ++ item)
           (List.filter (fun item => test re_dynamic_asset item) (object_keys (assets comp))) |}.

(** The file name webpack gives to an asset of the chunk [name] with the
    templates [[name].[chunkhash:8].js] / [[name].[hash:8].js] of
    [output.filename] (and their [.css] counterparts of
    [MiniCssExtractPlugin]): the hash is cut to 8 characters. *)
Definition asset_name (name hash ext : jstr) : jstr := name ++ str "." ++ take 8 hash ++ ext.

(** ** [Object.keys] and the filter *)

Lemma array_index_digits k v : array_index k = Some v -> Forall (fun c => is_digit c = true) k.
Proof.
  unfold array_index. destruct (forallb is_digit k) eqn:E; [|done]. intros _.
  apply List.Forall_forall. intros c Hc. by apply (proj1 (forallb_forall _ _) E).
Qed.

Lemma insert_index_in k v l x : In x (insert_index k v l) -> x = (k, v) \/ In x l.
Proof.
  induction l as [|[k' v'] l IH]; simpl; intros Hx.
  - destruct Hx as [<-|[]]. by left.
  - destruct (N.leb v v'); simpl in Hx.
    + destruct Hx as [<-|Hx]; [by left|by right].
    + destruct Hx as [<-|Hx]; [right; by left|].
      destruct (IH Hx) as [->|H]; [by left|right; by right].
Qed.

Lemma index_keys_index keys k v : In (k, v) (index_keys keys) -> array_index k = Some v.
Proof.
  induction keys as [|k' keys IH]; simpl; [done|].
  destruct (array_index k') eqn:E; [|done]. intros Hin.
  apply insert_index_in in Hin as [[= -> ->]|Hin]; auto.
Qed.

(** A filter that rejects every array index sees the keys in insertion
    order. *)
Lemma object_keys_filter (f : jstr -> bool) keys :
  (forall k v, array_index k = Some v -> f k = false) ->
  List.filter f (object_keys keys) = List.filter f keys.
Proof.
  intros Hf. unfold object_keys. rewrite List.filter_app.
  rewrite filter_forall_false.
  - apply filter_filter_impl. intros k Hk. destruct (array_index k) eqn:E; [|done].
    by rewrite (Hf k n E) in Hk.
  - apply List.Forall_forall. intros k Hk. apply in_map_iff in Hk as [[k' v] [<- Hin]].
    apply (Hf k' v). by apply (index_keys_index keys).
Qed.

Lemma re_dynamic_asset_shape : re_dynamic_asset = lit_seq (str ".dynamic") (Chr "."%char).
Proof. vm_compute. reflexivity. Qed.

Lemma dynamic_asset_test k : test re_dynamic_asset k = containsb (str ".dynamic.") k.
Proof. by rewrite re_dynamic_asset_shape, test_literal. Qed.

(** An array index is all digits, so it never contains [.dynamic.]. *)
Lemma array_index_not_dynamic k v : array_index k = Some v -> containsb (str ".dynamic.") k = false.
Proof.
  intros Hk. destruct (containsb _ k) eqn:E; [|done]. exfalso.
  apply containsb_spec in E. apply array_index_digits in Hk.
  apply (contains_forall _ _ _ E) in Hk. by inversion Hk.
Qed.

(** ** Array indices and their decimal form *)

(** C11: the prefetch list is [publicPath] followed by each asset name that
    contains [.dynamic.], in the order the assets were emitted. *)
Theorem prefetch_assets_spec publicPath comp :
  prefetchAssets (templateParameters publicPath comp) =
  map (fun k => publicPath ++ k) (List.filter (containsb (str ".dynamic.")) (assets comp)).
Proof.
  unfold templateParameters. simpl. f_equal.
  rewrite (List.filter_ext _ _ dynamic_asset_test).
  apply object_keys_filter. apply array_index_not_dynamic.
Qed.

(** C12: every asset emitted for a chunk that the [dynamic] cache group
    names ([app.<seg>.dynamic]) is prefetched, whatever its hash and
    extension. *)
Theorem dynamic_chunk_assets_prefetched m name hash ext publicPath comp :
  dynamic_name m = Ok name -> In (asset_name name hash ext) (assets comp) ->
  In (publicPath ++ asset_name name hash ext) (prefetchAssets (templateParameters publicPath comp)).
Proof.
  intros Hn Hin. unfold templateParameters. simpl.
  rewrite (List.filter_ext _ _ dynamic_asset_test), object_keys_filter by apply array_index_not_dynamic.
  apply in_map, filter_In. split; [done|].
  apply containsb_spec. unfold dynamic_name in Hn. destruct (context m); [|done].
  destruct (match_index _ _ _) as [seg|]; cbn [rbind] in Hn; [|done].
  assert (Hname : name = str "app." ++ js_to_string seg ++ str ".dynamic") by congruence.
  exists (str "app." ++ js_to_string seg), (take 8 hash ++ ext). unfold asset_name. rewrite Hname.
  rewrite <- !app_assoc. reflexivity.
Qed.

(** ** Witnesses *)

Lemma dynamic_chunk_assets_prefetched_witness :
  In (str "/static/" ++ asset_name (str "app.bar.dynamic") (str "0123abcd") (str ".js"))
     (prefetchAssets (templateParameters (str "/static/")
        {| assets := map str ["main.0123abcd.js"; "app.bar.dynamic.0123abcd.js"] |})).
Proof.
  apply (dynamic_chunk_assets_prefetched
           {| context := Some (str "/app/node_modules/foo/bar/index.js"); resource := None |}).
  - vm_compute. reflexivity.
  - simpl. tauto.
Defined.
