(* ===== verification/JsValue.v ===== *)
(** * JavaScript values for the configuration object

    The configuration [src/index.js] builds is a tree of JavaScript values:
    objects (with the key order and the duplicate-key rule of object
    literals), arrays (with spread elements), strings, numbers, booleans,
    regular-expression literals, closures, and the values of external
    expressions ([path.resolve(...)], [new HtmlWebpackPlugin(...)],
    [MiniCssExtractPlugin.loader]) that only webpack interprets.  The last
    three are kept symbolically: a closure by the name of the definition
    that models it and the variables it captures, an external value by its
    expression and arguments.

    [truthy] is ToBoolean; [get] is property access, which throws on
    [undefined] and [null]; [obj_lit] and [arr_lit] evaluate literals with
    spread elements; [default_to] is the default of a destructuring binding.
    [to_string] is ToString as a template literal applies it; every
    object literal has distinct keys ([obj_lit_nodup]). *)

From stdpp Require Import pretty.
From S2P Require Import Prelude.
From Stdlib Require Import ZArith.

Inductive jsval :=
  | JUndef
  | JNull
  | JBool (b : bool)
  | JNum (n : Z)                       (** the integer numbers of the source *)
  | JInfinity
  | JStr (s : jstr)
  | JArr (xs : list jsval)
  | JObj (props : list (string * jsval))
  | JRegExp (pattern : string)         (** a literal, by its pattern text *)
  | JFun (name : string) (env : list jsval)  (** a closure: its model's name, its captured variables *)
  | JExt (expr : string) (args : list jsval).  (** an external value *)

Definition js (s : string) : jsval := JStr (str s).

(** ToBoolean. *)
Definition truthy (v : jsval) : bool :=
  match v with
  | JUndef | JNull => false
  | JBool b => b
  | JNum n => negb (Z.eqb n 0)
  | JStr s => negb (bool_decide (s = []))
  | _ => true
  end.

Fixpoint assoc {V} (k : string) (ps : list (string * V)) : option V :=
  match ps with
  | [] => None
  | (k', v) :: ps' => if String.eqb k k' then Some v else assoc k ps'
  end.

(** The own property [k] of a value: [undefined] when it is missing or the
    value is a primitive. *)
Definition prop (o : jsval) (k : string) : jsval :=
  match o with
  | JObj ps => default JUndef (assoc k ps)
  | _ => JUndef
  end.

(** [o[k]]: reading a property of [undefined] or [null] throws. *)
Definition get (o : jsval) (k : string) : result jsval :=
  match o with
  | JUndef | JNull => Throw (TypeError "Cannot read properties of undefined")
  | _ => Ok (prop o k)
  end.

(** [[[DefineOwnProperty]]] in a literal: a new key goes last, a key seen
    before keeps its place and takes the new value. *)
Fixpoint set_prop (ps : list (string * jsval)) (k : string) (v : jsval) : list (string * jsval) :=
  match ps with
  | [] => [(k, v)]
  | (k', v') :: ps' => if String.eqb k k' then (k, v) :: ps' else (k', v') :: set_prop ps' k v
  end.

Inductive obj_entry :=
  | Field (k : string) (v : jsval)
  | Spread (v : jsval).                (** [...v] *)

(** An object literal: its entries from left to right; spreading an object
    copies its properties, spreading anything else copies nothing. *)
Definition obj_step (ps : list (string * jsval)) (e : obj_entry) : list (string * jsval) :=
  match e with
  | Field k v => set_prop ps k v
  | Spread (JObj qs) => fold_left (fun ps '(k, v) => set_prop ps k v) qs ps
  | Spread _ => ps
  end.

Definition obj_lit (es : list obj_entry) : jsval := JObj (fold_left obj_step es []).

Inductive arr_entry :=
  | Elem (v : jsval)
  | ASpread (v : jsval).               (** [...v] of an array *)

Definition arr_lit (es : list arr_entry) : jsval :=
  JArr (flat_map (fun e => match e with
                           | Elem v => [v]
                           | ASpread (JArr xs) => xs
                           | ASpread _ => []
                           end) es).

(** [cond ? a : b] on a JavaScript condition. *)
Definition js_if {A} (c : jsval) (a b : A) : A := if truthy c then a else b.

(** The default of a destructuring binding applies to [undefined] only. *)
Definition default_to (v d : jsval) : jsval :=
  match v with JUndef => d | _ => v end.

(** ** ToString *)

Fixpoint join_comma (ss : list jstr) : jstr :=
  match ss with
  | [] => []
  | [s] => s
  | s :: ss' => s ++ str "," ++ join_comma ss'
  end.

Section ToString.

(** The text of the values the model keeps symbolic: the source text of a
    closure, the string of an external value. *)
Variable sym_string : jsval -> jstr.

(** ToString, as a template literal applies it to a substitution; an
    array prints as [Array.prototype.join], with [undefined] and [null]
    elements as empty strings. *)
Fixpoint to_string (v : jsval) : jstr :=
  match v with
  | JUndef => str "undefined"
  | JNull => str "null"
  | JBool b => str (if b then "true" else "false")
  | JNum n => str (pretty n)
  | JInfinity => str "Infinity"
  | JStr s => s
  | JArr xs => join_comma (map (fun x => match x with JUndef | JNull => [] | _ => to_string x end) xs)
  | JObj _ => str "[object Object]"
  | JRegExp p => str "/" ++ str p ++ str "/"
  | JFun _ _ | JExt _ _ => sym_string v
  end.

End ToString.

(** Lookup along a path of keys, for stating properties of the result. *)
Fixpoint path_get (v : jsval) (ks : list string) : option jsval :=
  match ks with
  | [] => Some v
  | k :: ks' => match v with JObj ps => match assoc k ps with
                                        | Some w => path_get w ks'
                                        | None => None end
                             | _ => None end
  end.

Lemma assoc_set_prop_eq (ps : list (string * jsval)) k v : assoc k (set_prop ps k v) = Some v.
Proof.
  induction ps as [|[k' v'] ps IH]; simpl; [by rewrite String.eqb_refl|].
  destruct (String.eqb_spec k k'); simpl; [by rewrite String.eqb_refl|].
  rewrite (proj2 (String.eqb_neq k k')) by done. done.
Qed.

Lemma assoc_set_prop_ne (ps : list (string * jsval)) k k' v :
  k <> k' -> assoc k (set_prop ps k' v) = assoc k ps.
Proof.
  intros Hne. induction ps as [|[k'' v'] ps IH]; simpl.
  - by rewrite (proj2 (String.eqb_neq k k')).
  - destruct (String.eqb_spec k' k''); simpl.
    + subst. by rewrite (proj2 (String.eqb_neq k k'')).
    + by destruct (String.eqb k k''); [|rewrite IH].
Qed.

Lemma assoc_none_notin (ps : list (string * jsval)) k : assoc k ps = None <-> k ∉ map fst ps.
Proof.
  induction ps as [|[k' v'] ps IH]; simpl; [split; [intros _; apply not_elem_of_nil|done]|].
  rewrite not_elem_of_cons, <- IH.
  destruct (String.eqb_spec k k'); [split; [done|intros [[] _]; done]|tauto].
Qed.

Lemma set_prop_new (ps : list (string * jsval)) k v : assoc k ps = None -> set_prop ps k v = ps ++ [(k, v)].
Proof.
  induction ps as [|[k' v'] ps IH]; simpl; [done|].
  destruct (String.eqb k k'); [done|]. intros H. by rewrite IH.
Qed.

Lemma set_prop_keys (ps : list (string * jsval)) k v :
  map fst (set_prop ps k v) = if bool_decide (k ∈ map fst ps) then map fst ps else map fst ps ++ [k].
Proof.
  induction ps as [|[k' v'] ps IH]; simpl; [done|].
  destruct (String.eqb_spec k k') as [->|Hne].
  - rewrite bool_decide_true; [done|]. apply elem_of_cons. by left.
  - simpl. rewrite IH. case_bool_decide as H1; case_bool_decide as H2; simpl; try done.
    + exfalso. apply H2, elem_of_cons. by right.
    + exfalso. apply elem_of_cons in H2 as [?|?]; auto.
Qed.

#[export] Hint Resolve NoDup_nil_2 : wpc.

Lemma set_prop_nodup (ps : list (string * jsval)) k v :
  NoDup (map fst ps) -> NoDup (map fst (set_prop ps k v)).
Proof.
  intros H. rewrite set_prop_keys. case_bool_decide as Hk; [done|].
  apply NoDup_app. split; [done|]. split; [|apply NoDup_singleton].
  intros x Hx ->%list_elem_of_singleton. by apply Hk.
Qed.

Lemma fold_set_prop_nodup (qs ps : list (string * jsval)) :
  NoDup (map fst ps) -> NoDup (map fst (fold_left (fun ps '(k, v) => set_prop ps k v) qs ps)).
Proof.
  revert ps. induction qs as [|[k v] qs IH]; intros ps H; simpl; [done|]. by apply IH, set_prop_nodup.
Qed.

Lemma fold_obj_step_nodup es ps :
  NoDup (map fst ps) -> NoDup (map fst (fold_left obj_step es ps)).
Proof.
  revert ps. induction es as [|e es IH]; intros ps H; simpl; [done|]. apply IH.
  destruct e as [k v|[] ]; simpl; auto using set_prop_nodup, fold_set_prop_nodup.
Qed.

(** Every object literal has distinct keys. *)
Lemma obj_lit_nodup es : exists ps, obj_lit es = JObj ps /\ NoDup (map fst ps).
Proof. eexists; split; [reflexivity|]. apply fold_obj_step_nodup, NoDup_nil_2. Qed.
