(* ===== verification/Config.v ===== *)
(** * The options and the top-level sections of the configuration

    [src/index.js] 39-266 and 481-497: the destructuring of [options] with
    its thirteen defaults, and the sections of the object literal passed to
    [merge] other than [module.rules] (in [Loaders]): [output], the
    production-only [mode]/[stats] spread, [optimization], [resolve],
    [plugins] and [devServer].  The three closures of the configuration
    ([name] of the cache groups, [chunksSortMode], [templateParameters]) are
    values [JFun] naming the definitions of [ChunkRules], [ChunkOrder] and
    [Prefetch] that model them.  The theorem of the file describes the
    plugin list and its conditional entries. *)

From S2P Require Import Prelude JsValue.
From Stdlib Require Import ZArith.

(** ** The options *)

Record options := {
  isProduction : jsval; needAnalyzer : jsval; needSpeedMeasure : jsval;
  tinifyApiKey : jsval; entry : jsval; template : jsval; favicon : jsval;
  publicPath : jsval; alias : jsval; globalConstants : jsval; port : jsval;
  proxy : jsval; host : jsval
}.

(** [const { isProduction = false, ..., host = '0.0.0.0' } = options]:
    RequireObjectCoercible first, then each property with its default. *)
Definition read_options (o : jsval) : result options :=
  match o with
  | JUndef => Throw (TypeError "Cannot destructure property 'isProduction' of 'options' as it is undefined.")
  | JNull => Throw (TypeError "Cannot destructure property 'isProduction' of 'options' as it is null.")
  | _ => Ok {| isProduction := default_to (prop o "isProduction") (JBool false);
               needAnalyzer := default_to (prop o "needAnalyzer") (JBool false);
               needSpeedMeasure := default_to (prop o "needSpeedMeasure") (JBool false);
               tinifyApiKey := default_to (prop o "tinifyApiKey") (js "");
               entry := default_to (prop o "entry") (js "./src/index.js");
               template := default_to (prop o "template") (js "src/index.ejs");
               favicon := default_to (prop o "favicon") (js "");
               publicPath := default_to (prop o "publicPath") (js "/");
               alias := default_to (prop o "alias") (JObj []);
               globalConstants := default_to (prop o "globalConstants") (JObj []);
               port := default_to (prop o "port") (JNum 8001);
               proxy := default_to (prop o "proxy") (JObj []);
               host := default_to (prop o "host") (js "0.0.0.0") |}
  end.

(** ** [output] and the production spread *)

Definition output_config (projectAbsolutePath : jsval) (o : options) : jsval :=
  obj_lit [Field "path" (JExt "path.resolve" [projectAbsolutePath; js "dist"]);
           Field "publicPath" (publicPath o);
           Field "filename" (js_if (isProduction o) (js "[name].[chunkhash:8].js")
                                                    (js "[name].[hash:8].js"));
           Field "libraryTarget" (js "umd")].

(** [...(isProduction ? { mode: 'production', stats: 'minimal' } : {})] *)
Definition mode_config (o : options) : jsval :=
  js_if (isProduction o) (obj_lit [Field "mode" (js "production"); Field "stats" (js "minimal")])
                         (obj_lit []).

(** ** [optimization] *)

Definition node_modules_test : jsval := JRegExp "[\\/]node_modules".

(** The object the immediately invoked function of lines 80-197 returns. *)
Definition cache_groups_config : jsval :=
  obj_lit [Field "bundle" (obj_lit [Field "test" node_modules_test;
                                    Field "name" (JFun "bundle_name" [])]);
           Field "initial" (obj_lit [Field "test" node_modules_test;
                                     Field "name" (js "app.initial");
                                     Field "chunks" (js "initial")]);
           Field "dynamic" (obj_lit [Field "test" node_modules_test;
                                     Field "name" (JFun "dynamic_name" []);
                                     Field "chunks" (js "async");
                                     Field "enforce" (JBool true)])].

Definition optimization_config (o : options) : jsval :=
  obj_lit [Field "minimize" (isProduction o);
           Field "splitChunks" (obj_lit [Field "chunks" (js "all");
                                         Field "maxInitialRequests" JInfinity;
                                         Field "minSize" (JNum 0);
                                         Field "cacheGroups" cache_groups_config])].

(** ** [resolve] *)

Definition resolve_config (o : options) : jsval :=
  obj_lit [Field "alias" (alias o);
           Field "extensions" (JArr (map js [".wasm"; ".mjs"; ".js"; ".json"; ".jsx"; ".ts"; ".tsx"]))].

(** ** [plugins] *)

Definition html_options (o : options) : jsval :=
  obj_lit [Field "template" (template o);
           Field "favicon" (favicon o);
           Field "chunksSortMode" (JFun "chunksSortMode" []);
           Field "templateParameters" (JFun "templateParameters" [publicPath o])].

(** The feature sets of [LodashModuleReplacementPlugin], all enabled. *)
Definition lodash_features : list string :=
  ["shorthands"; "cloning"; "currying"; "caching"; "collections"; "exotics";
   "guards"; "metadata"; "deburring"; "unicode"; "chaining"; "memoizing";
   "coercions"; "flattening"; "paths"; "placeholders"].

Definition plugins_config (o : options) : jsval :=
  arr_lit
    [Elem (JExt "new webpack.DefinePlugin" [globalConstants o]);
     Elem (JExt "new HtmlWebpackPlugin" [html_options o]);
     Elem (JExt "new MiniCssExtractPlugin"
             [obj_lit [Field "filename" (js_if (isProduction o) (js "[name].[chunkhash:8].css")
                                                                (js "[name].[hash:8].css"))]]);
     Elem (JExt "new webpack.ContextReplacementPlugin"
             [JRegExp "moment[/\\]locale$"; JRegExp "en|zh-cn|zh-tw"]);
     Elem (JExt "new LodashModuleReplacementPlugin"
             [obj_lit (map (fun f => Field f (JBool true)) lodash_features)]);
     ASpread (js_if (isProduction o) (JArr [JExt "new OptimizeCssAssetsPlugin" []]) (JArr []));
     ASpread (js_if (needAnalyzer o) (JArr [JExt "new BundleAnalyzerPlugin" []]) (JArr []))].

(** ** [devServer] *)

Definition devServer_config (o : options) : jsval :=
  obj_lit [Field "port" (port o); Field "host" (host o);
           Field "historyApiFallback" (JBool true); Field "open" (JBool true);
           Field "hot" (JBool true); Field "inline" (JBool true);
           Field "overlay" (obj_lit [Field "errors" (JBool true)]);
           Field "proxy" (proxy o)].
