(* ===== verification/Loaders.v ===== *)
(** * [module.rules] and which loaders a file receives

    [src/index.js] 267-480: the ten rules of [module.rules], one
    definition each, and [rules_config], the array they form.  The rules
    are values ([JsValue.jsval]) exactly as the literal writes them.

    Then the meaning webpack 4's [RuleSet] gives them, as far as these
    rules use it: a rule applies to a resource when its [test] pattern
    matches the resource path and, if it has an [include] array, the path
    starts with one of its entries; a rule contributes its [use] array, its
    single [use] object, or its [loader]/[options] pair; [loaders_for] lists
    the loaders of all applicable rules in order.  [path.resolve] is read
    for the arguments the source gives it: an absolute project path without
    trailing separator and a relative path without [..]. *)

From S2P Require Import Prelude RegexSyntax JsRegex RegexLang JsValue Config.

(** ** The rules *)

Definition path_resolve_expr (projectAbsolutePath : jsval) (rel : string) : jsval :=
  JExt "path.resolve" [projectAbsolutePath; js rel].

Definition mini_css_loader : jsval := JExt "MiniCssExtractPlugin.loader" [].

Definition less_options_loader : jsval :=
  obj_lit [Field "loader" (js "less-loader");
           Field "options" (obj_lit [Field "javascriptEnabled" (JBool true)])].

(** Lines 273-299: the application's own [.less], with CSS Modules. *)
Definition less_rule (p : jsval) (o : options) : jsval :=
  obj_lit [Field "test" (JRegExp "\.less$");
           Field "use" (JArr [js_if (isProduction o) mini_css_loader (js "style-loader");
                              obj_lit [Field "loader" (js "css-loader");
                                       Field "options" (obj_lit [Field "modules" (obj_lit [Field "localIdentName" (js "[name]__[local]___[hash:base64:5]")]);
                                                                 Field "importLoaders" (JNum 1)])];
                              less_options_loader]);
           Field "include" (JArr [path_resolve_expr p "./src"; path_resolve_expr p "./demo"])].

(** Lines 303-327: antd's [.less], without CSS Modules. *)
Definition antd_less_rule (p : jsval) (o : options) : jsval :=
  obj_lit [Field "test" (JRegExp "\.less$");
           Field "use" (JArr [js_if (isProduction o) mini_css_loader
                                (obj_lit [Field "loader" (js "style-loader");
                                          Field "options" (obj_lit [Field "insert" (js "head")])]);
                              js "css-loader";
                              less_options_loader]);
           Field "include" (JArr [path_resolve_expr p "./node_modules/antd"])].

Definition css_rule : jsval :=
  obj_lit [Field "test" (JRegExp "\.css$");
           Field "use" (JArr [js "style-loader"; js "thread-loader"; js "css-loader"])].

(** The Babel plugins, written identically in the two script rules. *)
Definition babel_plugins : jsval :=
  JArr [JArr [js "@babel/plugin-proposal-decorators"; obj_lit [Field "legacy" (JBool true)]];
        JArr [js "@babel/plugin-proposal-class-properties"; obj_lit [Field "loose" (JBool true)]];
        js "@babel/plugin-proposal-export-default-from";
        JArr [js "import"; obj_lit [Field "libraryName" (js "antd");
                                    Field "libraryDirectory" (js "es");
                                    Field "style" (JBool true)]];
        js "lodash"].

Definition babel_loader (presets : list string) : jsval :=
  obj_lit [Field "loader" (js "babel-loader");
           Field "options" (obj_lit [Field "presets" (JArr (map js presets));
                                     Field "plugins" babel_plugins])].

Definition jsx_rule (p : jsval) : jsval :=
  obj_lit [Field "test" (JRegExp "\.jsx?$");
           Field "use" (JArr [js "thread-loader"; babel_loader ["@babel/preset-env"; "@babel/preset-react"]]);
           Field "include" (JArr [path_resolve_expr p "./src"; path_resolve_expr p "./demo"])].

Definition ts_rule : jsval :=
  obj_lit [Field "test" (JRegExp "\.(tsx|ts)?$");
           Field "use" (JArr [js "thread-loader";
                              babel_loader ["@babel/preset-env"; "@babel/preset-react"; "@babel/preset-typescript"]])].

Definition url_loader : jsval :=
  obj_lit [Field "loader" (js "url-loader"); Field "options" (obj_lit [Field "limit" (JNum 100000)])].

Definition svg_rule : jsval :=
  obj_lit [Field "test" (JRegExp "\.svg$");
           Field "use" (JArr [url_loader;
                              obj_lit [Field "loader" (js "svgo-loader");
                                       Field "options" (obj_lit [Field "plugins" (JArr [obj_lit [Field "removeViewBox" (JBool false)]])])]])].

Definition image_rule (o : options) : jsval :=
  obj_lit [Field "test" (JRegExp "\.(png|jpe?g)$");
           Field "use" (arr_lit [Elem url_loader;
                                 ASpread (js_if (tinifyApiKey o)
                                            (JArr [obj_lit [Field "loader" (js "webpack-tinypng-loader");
                                                            Field "options" (obj_lit [Field "apikey" (tinifyApiKey o)])]])
                                            (JArr []))])].

Definition font_rule : jsval :=
  obj_lit [Field "test" (JRegExp "\.(woff|woff2|eot|ttf|gif)$");
           Field "loader" (js "url-loader");
           Field "options" (obj_lit [Field "limit" (JNum 100000)])].

Definition download_rule : jsval :=
  obj_lit [Field "test" (JRegExp "\.(txt|xlsx|xls)$");
           Field "loader" (js "file-loader");
           Field "options" (obj_lit [Field "outputPath" (js "assets")])].

Definition html_rule : jsval :=
  obj_lit [Field "test" (JRegExp "\.(html)$");
           Field "use" (obj_lit [Field "loader" (js "html-loader")])].

Definition rules_list (p : jsval) (o : options) : list jsval :=
  [less_rule p o; antd_less_rule p o; css_rule; jsx_rule p; ts_rule; svg_rule; image_rule o;
   font_rule; download_rule; html_rule].

Definition rules_config (p : jsval) (o : options) : jsval := JArr (rules_list p o).

(** ** webpack's reading of a rule *)

Definition path_resolve (base rel : jstr) : jstr :=
  base ++ str "/" ++ default rel (strip_prefix (str "./") rel).

Definition eval_path (v : jsval) : option jstr :=
  match v with
  | JStr s => Some s
  | JExt e [JStr b; JStr r] => if String.eqb e "path.resolve" then Some (path_resolve b r) else None
  | _ => None
  end.

Definition prefixb (d r : jstr) : bool := bool_decide (d `prefix_of` r).

Definition cond_test (t : jsval) (r : jstr) : bool :=
  match t with JRegExp pat => test (re pat) r | JUndef => true | _ => false end.

Definition cond_include (i : jsval) (r : jstr) : bool :=
  match i with
  | JUndef => true
  | JArr ds => existsb (fun d => match eval_path d with Some d' => prefixb d' r | None => false end) ds
  | _ => false
  end.

Definition rule_matches (rule : jsval) (r : jstr) : bool :=
  cond_test (prop rule "test") r && cond_include (prop rule "include") r.

Definition rule_use (rule : jsval) : list jsval :=
  match prop rule "use" with
  | JArr us => us
  | JUndef => match prop rule "loader" with
              | JUndef => []
              | l => [obj_lit [Field "loader" l; Field "options" (prop rule "options")]]
              end
  | u => [u]
  end.

Definition loader_of (u : jsval) : jsval :=
  match u with JObj _ => prop u "loader" | _ => u end.

Definition loaders_for (rules : list jsval) (r : jstr) : list jsval :=
  flat_map (fun rule => if rule_matches rule r then rule_use rule else []) rules.

(** ** What each rule accepts *)

Lemma suffixb_app u x : suffixb u (x ++ u) = true.
Proof. apply bool_decide_eq_true. by exists x. Qed.

Lemma prefixb_app d x : prefixb d (d ++ x) = true.
Proof. apply bool_decide_eq_true. by exists x. Qed.

(** Two suffixes of one path are suffixes of each other. *)
Lemma suffixb_incompatible u v r :
  suffixb v r = true -> suffixb u v = false -> suffixb v u = false -> suffixb u r = false.
Proof.
  unfold suffixb. rewrite !bool_decide_eq_true, !bool_decide_eq_false. intros Hv Huv Hvu.
  intros Hu. by destruct (suffix_weak_total u v r Hu Hv).
Qed.

Lemma prefixb_incompatible d e r :
  prefixb e r = true -> prefixb d e = false -> prefixb e d = false -> prefixb d r = false.
Proof.
  unfold prefixb. rewrite !bool_decide_eq_true, !bool_decide_eq_false. intros He Hde Hed.
  intros Hd. by destruct (prefix_weak_total d e r Hd He).
Qed.

Lemma prefixb_app_l p d e : prefixb (p ++ d) (p ++ e) = prefixb d e.
Proof.
  unfold prefixb. apply bool_decide_ext. split; [apply prefix_app_inv|apply prefix_app].
Qed.

Lemma rule_matches_test rule pat l r :
  prop rule "test" = JRegExp pat -> anchored (re pat) = Some l ->
  rule_matches rule r = existsb (fun u => suffixb u r) l && cond_include (prop rule "include") r.
Proof. intros Ht Hl. unfold rule_matches. rewrite Ht. cbn [cond_test]. by rewrite (test_anchored _ _ _ Hl). Qed.

Ltac rule_test :=
  erewrite rule_matches_test; [|reflexivity|vm_compute; reflexivity];
  cbn -[suffixb prefixb path_resolve]; rewrite ?orb_false_r, ?andb_true_r.

Lemma less_rule_matches p o r :
  rule_matches (less_rule (JStr p) o) r =
  suffixb (str ".less") r && (prefixb (path_resolve p (str "./src")) r || prefixb (path_resolve p (str "./demo")) r).
Proof. rule_test. reflexivity. Qed.

Lemma antd_less_rule_matches p o r :
  rule_matches (antd_less_rule (JStr p) o) r =
  suffixb (str ".less") r && prefixb (path_resolve p (str "./node_modules/antd")) r.
Proof. rule_test. reflexivity. Qed.

Lemma css_rule_matches r : rule_matches css_rule r = suffixb (str ".css") r.
Proof. rule_test. reflexivity. Qed.

Lemma jsx_rule_matches p r :
  rule_matches (jsx_rule (JStr p)) r =
  (suffixb (str ".jsx") r || suffixb (str ".js") r) &&
  (prefixb (path_resolve p (str "./src")) r || prefixb (path_resolve p (str "./demo")) r).
Proof. rule_test. reflexivity. Qed.

Lemma ts_rule_matches r :
  rule_matches ts_rule r = suffixb (str ".tsx") r || suffixb (str ".ts") r || suffixb (str ".") r.
Proof. rule_test. by rewrite orb_assoc. Qed.

Lemma svg_rule_matches r : rule_matches svg_rule r = suffixb (str ".svg") r.
Proof. rule_test. reflexivity. Qed.

Lemma image_rule_matches o r :
  rule_matches (image_rule o) r = suffixb (str ".png") r || suffixb (str ".jpeg") r || suffixb (str ".jpg") r.
Proof. rule_test. by rewrite orb_assoc. Qed.

Lemma font_rule_matches r :
  rule_matches font_rule r =
  suffixb (str ".woff") r || suffixb (str ".woff2") r || suffixb (str ".eot") r ||
  suffixb (str ".ttf") r || suffixb (str ".gif") r.
Proof. rule_test. by rewrite !orb_assoc. Qed.

Lemma download_rule_matches r :
  rule_matches download_rule r = suffixb (str ".txt") r || suffixb (str ".xlsx") r || suffixb (str ".xls") r.
Proof. rule_test. by rewrite !orb_assoc. Qed.

Lemma html_rule_matches r : rule_matches html_rule r = suffixb (str ".html") r.
Proof. rule_test. reflexivity. Qed.

Create Rewrite HintDb loaders_rw.
#[export] Hint Rewrite less_rule_matches antd_less_rule_matches css_rule_matches jsx_rule_matches
  ts_rule_matches svg_rule_matches image_rule_matches font_rule_matches download_rule_matches
  html_rule_matches : loaders_rw.

(** Reduce [loaders_for] on a path known to end with [v] ([Hs]): every
    extension of every rule that is not comparable with [v] is ruled out. *)
Ltac loaders_eval Hs :=
  unfold loaders_for, rules_list; cbn [flat_map]; autorewrite with loaders_rw; rewrite ?Hs;
  repeat match goal with
         | |- context [suffixb ?u ?r] => rewrite (suffixb_incompatible u _ r Hs) by reflexivity
         end;
  cbn [andb orb].

(** Directories named by [path.resolve] under one project that are not
    prefixes of each other. *)
Ltac distinct_dirs Hp :=
  repeat match goal with
         | |- context [prefixb ?d ?r] =>
             rewrite (prefixb_incompatible d _ r Hp) by (unfold path_resolve; rewrite prefixb_app_l; reflexivity)
         end.

Lemma suffixb_app_assoc u x y : suffixb u (x ++ y ++ u) = true.
Proof. rewrite app_assoc. apply suffixb_app. Qed.

Lemma prefixb_app_assoc d x y : prefixb d (d ++ x ++ y) = true.
Proof. apply prefixb_app. Qed.

(** ** Which loaders a file receives *)

(** C17: a [.less] file of the application ([src/] or [demo/] of the
    project) is handled by the first rule alone: [MiniCssExtractPlugin.loader]
    in production and [style-loader] otherwise, then [css-loader] with CSS
    Modules, then [less-loader]; in particular the antd rule, the [.css]
    rule and the script rules never apply to it. *)
Theorem less_app_loaders p o d name :
  d = path_resolve p (str "./src") \/ d = path_resolve p (str "./demo") ->
  loaders_for (rules_list (JStr p) o) (d ++ name ++ str ".less") = rule_use (less_rule (JStr p) o).
Proof.
  intros Hd. pose proof (suffixb_app_assoc (str ".less") d name) as Hs.
  pose proof (prefixb_app_assoc d name (str ".less")) as Hp.
  loaders_eval Hs.
  destruct Hd as [->| ->]; rewrite Hp; distinct_dirs Hp; cbn [andb orb app]; apply app_nil_r.
Qed.

(** C18: the TypeScript rule's pattern [/\.(tsx|ts)?$/] makes the
    extension optional: every path that ends with a dot is compiled by
    [babel-loader] with the TypeScript preset, and by no other rule. *)
Theorem trailing_dot_compiled_as_typescript p o x :
  loaders_for (rules_list (JStr p) o) (x ++ str ".") = rule_use ts_rule.
Proof.
  pose proof (suffixb_app (str ".") x) as Hs. loaders_eval Hs.
  rewrite ?orb_true_r. cbn [app]. apply app_nil_r.
Qed.

(** C19: a [.png], [.jpg] or [.jpeg] image goes through [url-loader], then
    through [webpack-tinypng-loader] exactly when [tinifyApiKey] is truthy. *)
Theorem image_loaders p o x ext :
  In ext [str ".png"; str ".jpg"; str ".jpeg"] ->
  map loader_of (loaders_for (rules_list (JStr p) o) (x ++ ext)) =
  js "url-loader" :: (if truthy (tinifyApiKey o) then [js "webpack-tinypng-loader"] else []).
Proof.
  intros Hext. pose proof (suffixb_app ext x) as Hs.
  destruct Hext as [<-|[<-|[<-|[]]]]; loaders_eval Hs; rewrite ?orb_true_r; cbn [app];
    unfold image_rule, js_if; destruct (truthy (tinifyApiKey o)); reflexivity.
Qed.

(** C20: a plain [.css] file is injected by [style-loader] in every mode:
    unlike [.less], it is never extracted by [MiniCssExtractPlugin], even
    when [isProduction] is truthy. *)
Theorem css_loaders p o x :
  map loader_of (loaders_for (rules_list (JStr p) o) (x ++ str ".css")) =
  [js "style-loader"; js "thread-loader"; js "css-loader"].
Proof. pose proof (suffixb_app (str ".css") x) as Hs. loaders_eval Hs. reflexivity. Qed.

(** C26: the loaders of any [.less] file: the application's rule when the
    path starts with the project's [src] or [demo] path, the antd rule
    when it starts with [node_modules/antd], nothing otherwise.  The
    conditions are string prefixes, so [src-legacy/] or
    [node_modules/antd-mobile/] count as well; and the [.less] file of any
    other package gets no loader, on which webpack stops with a parse
    error. *)
Theorem less_loaders p o x :
  let r := x ++ str ".less" in
  loaders_for (rules_list (JStr p) o) r =
    (if prefixb (path_resolve p (str "./src")) r || prefixb (path_resolve p (str "./demo")) r
     then rule_use (less_rule (JStr p) o) else []) ++
    (if prefixb (path_resolve p (str "./node_modules/antd")) r
     then rule_use (antd_less_rule (JStr p) o) else []).
Proof.
  intros r. subst r. pose proof (suffixb_app (str ".less") x) as Hs. loaders_eval Hs.
  rewrite !app_nil_r. reflexivity.
Qed.

(** ** Witnesses *)

Definition sample_options : options :=
  {| isProduction := JBool true; needAnalyzer := JBool false; needSpeedMeasure := JBool false;
     tinifyApiKey := js "KEY"; entry := js "./src/index.js"; template := js "src/index.ejs";
     favicon := js ""; publicPath := js "/"; alias := JObj []; globalConstants := JObj [];
     port := JNum 8001; proxy := JObj []; host := js "0.0.0.0" |}.

Lemma less_app_loaders_witness :
  map loader_of (loaders_for (rules_list (js "/app") sample_options)
                             (path_resolve (str "/app") (str "./src") ++ str "/pages/home" ++ str ".less")) =
  [mini_css_loader; js "css-loader"; js "less-loader"].
Proof. rewrite (less_app_loaders (str "/app")); [reflexivity|by left]. Defined.

Lemma image_loaders_witness :
  map loader_of (loaders_for (rules_list (js "/app") sample_options) (str "/app/src/logo" ++ str ".jpeg")) =
  [js "url-loader"; js "webpack-tinypng-loader"].
Proof. apply (image_loaders (str "/app")). simpl. tauto. Defined.

Lemma less_loaders_witness :
  map loader_of (loaders_for (rules_list (js "/app") sample_options)
                             (str "/app/node_modules/antd-mobile/lib/button/style/index" ++ str ".less")) =
  [mini_css_loader; js "css-loader"; js "less-loader"] /\
  loaders_for (rules_list (js "/app") sample_options)
              (str "/app/node_modules/rc-slider/assets/index" ++ str ".less") = [].
Proof. split; rewrite (less_loaders (str "/app")); vm_compute; reflexivity. Defined.
