(* ===== verification/Warmup.v ===== *)
(** * The [thread-loader] warm-up ([src/index.js] 11-18)

    Loading [src/index.js] has one effect besides defining the factory:
    [threadLoader.warmup({}, [...])] starts the worker pool selected by the
    options [{}] and makes its workers require four modules in advance.
    [load_effects] is the list of effects of loading the module, in order
    (there is one).

    A rule of [module.rules] that lists ['thread-loader'] runs the loaders
    after it in a worker of the pool its options select ([pooled]); such a
    worker requires the loaders and, for [babel-loader], the presets and
    plugins of its options ([requests_of]), under the module names Babel's
    [standardizeName] gives them (['import'] is [babel-plugin-import]).
    [pool_requests] collects, for every rule with a [thread-loader], the
    pool and the modules its workers require.  The theorem compares the
    warm-up with what the pools need.  [standardizeName] is [@babel/core]'s
    code, not this repository's: it is written from its five regular
    expressions, for POSIX paths. *)

From S2P Require Import Prelude JsValue Config Loaders.

(** ** The effect of loading the module *)

Inductive load_effect :=
  | Warmup (pool_options : jsval) (requests : list jsval).

Definition warmup_requests : list jsval :=
  map js ["babel-loader"; "@babel/preset-env"; "@babel/preset-react"; "css-loader"].

Definition load_effects : list load_effect := [Warmup (JObj []) warmup_requests].

(** ** What the pools of the rules run *)

Definition is_thread_loader (u : jsval) : bool :=
  match loader_of u with JStr s => bool_decide (s = str "thread-loader") | _ => false end.

(** The options that select a [thread-loader]'s pool; without options it
    is the pool of [{}]. *)
Definition thread_options (u : jsval) : jsval :=
  match u with JObj _ => default_to (prop u "options") (JObj []) | _ => JObj [] end.

(** The first [thread-loader] of a [use] list, with the loaders after it. *)
Fixpoint pooled (us : list jsval) : option (jsval * list jsval) :=
  match us with
  | [] => None
  | u :: us' => if is_thread_loader u then Some (thread_options u, us') else pooled us'
  end.

(** ** Babel's resolution of plugin and preset names

    [standardizeName] of [@babel/core] 7 ([config/files/plugins.js]) turns
    a name of [options.presets] or [options.plugins] into the module its
    worker requires, by five replacements in turn; [kind] is ["plugin"] or
    ["preset"]. *)

(** [[^/]+\/] matches at the start of [s]: a non-empty segment without a
    slash, then a slash. *)
Fixpoint slash_after_segment (seen : bool) (s : jstr) : bool :=
  match s with
  | [] => false
  | c :: s' => if bool_decide (c = "/"%char) then seen else slash_after_segment true s'
  end.

Definition has_dir (s : jstr) : bool := slash_after_segment false s.

Definition starts_with (p s : jstr) : bool := if strip_prefix p s is Some _ then true else false.

(** The segment of [s] before its first slash. *)
Fixpoint segment (s : jstr) : jstr :=
  match s with
  | [] => []
  | c :: s' => if bool_decide (c = "/"%char) then [] else c :: segment s'
  end.

(** [/^(?!@|module:|[^/]+\/|babel-kind-)/] replaced by ["babel-kind-"]. *)
Definition add_prefix (kind s : jstr) : jstr :=
  if starts_with (str "@") s || starts_with (str "module:") s || has_dir s ||
     starts_with (str "babel-" ++ kind ++ str "-") s
  then s else str "babel-" ++ kind ++ str "-" ++ s.

(** [/^(@babel\/)(?!kind-|[^/]+\/)/] replaced by ["$1kind-"]. *)
Definition babel_org (kind s : jstr) : jstr :=
  match strip_prefix (str "@babel/") s with
  | Some r => if starts_with (kind ++ str "-") r || has_dir r then s
              else str "@babel/" ++ kind ++ str "-" ++ r
  | None => s
  end.

(** [/^(@(?!babel\/)[^/]+\/)(?![^/]*babel-kind(?:-|\/|$)|[^/]+\/)/]
    replaced by ["$1babel-kind-"]. *)
Definition other_org (kind s : jstr) : jstr :=
  match s with
  | "@"%char :: t =>
      let scope := segment t in
      match strip_prefix (scope ++ str "/") t with
      | Some r =>
          let seg := segment r in
          if bool_decide (scope = []) || bool_decide (scope = str "babel") ||
             containsb (str "babel-" ++ kind ++ str "-") seg ||
             bool_decide (suffix (str "babel-" ++ kind) seg) || has_dir r
          then s else str "@" ++ scope ++ str "/babel-" ++ kind ++ str "-" ++ r
      | None => s
      end
  | _ => s
  end.

(** [/^(@(?!babel$)[^/]+)$/] replaced by ["$1/babel-kind"]. *)
Definition org_default (kind s : jstr) : jstr :=
  match s with
  | "@"%char :: t =>
      if bool_decide (t = []) || bool_decide (t = str "babel") || bool_decide ("/"%char ∈ t)
      then s else s ++ str "/babel-" ++ kind
  | _ => s
  end.

(** [/^module:/] replaced by [""]. *)
Definition strip_module (s : jstr) : jstr :=
  match strip_prefix (str "module:") s with Some r => r | None => s end.

(** An absolute path is kept; any other name goes through the five
    replacements. *)
Definition standardizeName (kind s : jstr) : jstr :=
  if starts_with (str "/") s then s
  else strip_module (org_default kind (other_org kind (babel_org kind (add_prefix kind s)))).

(** The name of an entry of [presets] or [plugins]: a string, or an array
    whose first element is the name (the second its options). *)
Definition item_name (v : jsval) : option jstr :=
  match v with
  | JStr s => Some s
  | JArr (JStr s :: _) => Some s
  | _ => None
  end.

Definition resolved (kind : string) (v : jsval) : list jsval :=
  match v with
  | JArr items => map (fun s => JStr (standardizeName (str kind) s)) (omap item_name items)
  | _ => []
  end.

(** The modules a loader of a pool requires in the worker: the loader, and
    for one with Babel options the presets and plugins they name. *)
Definition requests_of (u : jsval) : list jsval :=
  loader_of u :: resolved "preset" (prop (prop u "options") "presets") ++
                 resolved "plugin" (prop (prop u "options") "plugins").

Definition pool_requests (rules : list jsval) : list (jsval * list jsval) :=
  flat_map (fun rule => match pooled (rule_use rule) with
                        | Some (opts, us) => [(opts, flat_map requests_of us)]
                        | None => []
                        end) rules.

Lemma pool_requests_rules p o :
  pool_requests (rules_list p o) =
  [(JObj [], [js "css-loader"]);
   (JObj [], map js ["babel-loader"; "@babel/preset-env"; "@babel/preset-react";
                     "@babel/plugin-proposal-decorators"; "@babel/plugin-proposal-class-properties";
                     "@babel/plugin-proposal-export-default-from"; "babel-plugin-import"; "babel-plugin-lodash"]);
   (JObj [], map js ["babel-loader"; "@babel/preset-env"; "@babel/preset-react"; "@babel/preset-typescript";
                     "@babel/plugin-proposal-decorators"; "@babel/plugin-proposal-class-properties";
                     "@babel/plugin-proposal-export-default-from"; "babel-plugin-import"; "babel-plugin-lodash"])].
Proof.
  unfold rules_list, less_rule, antd_less_rule, image_rule, js_if.
  by destruct (truthy (isProduction o)), (truthy (tinifyApiKey o)).
Qed.

(** A module is required in a pool when a loader of one of them requires it. *)
Lemma pool_required_iff (pools : list (jsval * list jsval)) m :
  (exists opts rs, In (opts, rs) pools /\ In m rs) <-> In m (flat_map snd pools).
Proof.
  rewrite in_flat_map. split.
  - intros (opts & rs & Hin & Hm). by exists (opts, rs).
  - intros ([opts rs] & Hin & Hm). by exists opts, rs.
Qed.

(** C21: the warm-up prepares the pool the rules use, but not all of what
    it needs: every [thread-loader] of [module.rules] selects the pool of
    [{}] that the warm-up starts; every module the warm-up requires is
    required by a loader running in that pool; and the modules such a
    loader requires that the warm-up does not are exactly
    [@babel/preset-typescript] (the [.ts] rule's preset) and the five Babel
    plugins of both script rules, as Babel resolves their names, which the
    workers load on their first script file. *)
Theorem warmup_matches_pools p o :
  load_effects = [Warmup (JObj []) warmup_requests] /\
  Forall (fun '(opts, _) => opts = JObj []) (pool_requests (rules_list p o)) /\
  (forall m, In m warmup_requests -> exists opts rs, In (opts, rs) (pool_requests (rules_list p o)) /\ In m rs) /\
  (forall m, (exists opts rs, In (opts, rs) (pool_requests (rules_list p o)) /\ In m rs) /\ ~ In m warmup_requests <->
     In m (map js ["@babel/preset-typescript"; "@babel/plugin-proposal-decorators";
                   "@babel/plugin-proposal-class-properties"; "@babel/plugin-proposal-export-default-from";
                   "babel-plugin-import"; "babel-plugin-lodash"])).
Proof.
  setoid_rewrite pool_required_iff. rewrite pool_requests_rules. split_and!.
  - reflexivity.
  - repeat constructor.
  - intros m Hm. cbn in Hm |- *. intuition.
  - intros m. cbn. split.
    + intros [Hm Hw]. repeat (destruct Hm as [<-|Hm]; [first [solve [auto 20] | exfalso; apply Hw; auto 10]|]). done.
    + intros Hm. repeat (destruct Hm as [<-|Hm]; [split; [repeat (first [left; reflexivity | right])|intros Hw; repeat destruct Hw as [Hw|Hw]; [cbv in Hw; discriminate..|done]]|]). done.
Qed.
