(* ===== verification/Factory.v ===== *)
(** * The configuration factory ([src/index.js] 39-508)

    [create_config] is the exported arrow function: it defaults
    [customConfig] to [{}], destructures [options] ([Config.read_options]),
    builds the object literal [base_config] from the sections of [Config]
    and [Loaders] (whose first call, [path.resolve(projectAbsolutePath,
    'dist')], throws unless the project path is a string:
    [check_path]), merges [customConfig] into it with [webpack-merge], and
    wraps the result with [SpeedMeasureWebpackPlugin] when
    [needSpeedMeasure] is truthy.

    [merge] is [webpack-merge] 4 (the version whose export is the merge
    function the source calls): the keys of the first object, then the new
    keys of the second, each combined by the [joinArrays] customizer: two
    arrays are concatenated, two plain objects merged recursively, a
    second value that is [undefined] keeps the first, any other second
    value replaces the first (deep copies are the same values here), and
    two functions are joined into one that merges their results.

    The theorems: when the factory throws; what [isProduction],
    [customConfig] and its plugins do; and, seen through [obj_map] as a
    finite map, the configuration is the union of the literal and
    [customConfig] combined by [joinArrays]. *)

From stdpp Require Import pretty gmap.
From Stdlib Require Import NArith.
From S2P Require Import Prelude RegexSyntax JsRegex RegexLang JsValue Config Loaders.

(** ** The object literal passed to [merge] (lines 57-498) *)

Definition base_config (projectAbsolutePath : jsval) (o : options) : jsval :=
  obj_lit [Field "entry" (entry o);
           Field "output" (output_config projectAbsolutePath o);
           Spread (mode_config o);
           Field "optimization" (optimization_config o);
           Field "resolve" (resolve_config o);
           Field "plugins" (plugins_config o);
           Field "module" (obj_lit [Field "rules" (rules_config projectAbsolutePath o)]);
           Field "devServer" (devServer_config o)].

(** ** [webpack-merge] *)

(** [ret[k] = typeof v === 'undefined' ? a[k] : v] *)
Definition keep (a v : jsval) : jsval := match v with JUndef => a | _ => v end.

Fixpoint merge_props_with (f : jsval -> jsval -> jsval) (acc qs : list (string * jsval)) :
  list (string * jsval) :=
  match qs with
  | [] => acc
  | (k, v) :: qs' =>
      let a := default JUndef (assoc k acc) in
      merge_props_with f (set_prop acc k (keep a (f a v))) qs'
  end.

(** The [joinArrays] customizer, on the value [a] of the first object and
    [b] of the second. *)
Fixpoint join (a b : jsval) {struct b} : jsval :=
  match a, b with
  | JFun _ _, JFun _ _ => JFun "join_functions" [a; b]
  | JArr xs, JArr ys => JArr (xs ++ ys)
  | _, JRegExp _ => b
  | JObj ps, JObj qs => JObj (merge_props_with join ps qs)
  | _, _ => b
  end.

Definition merge_props := merge_props_with join.

(** The enumerable own properties [Object.keys(v)] / [v[k]] that
    [mergeTo] reads: an array or a string has its indices, [undefined] and
    [null] make [Object.keys] throw, the other values have none. *)
Definition own_props (v : jsval) : result (list (string * jsval)) :=
  match v with
  | JObj ps => Ok ps
  | JArr xs => Ok (zip (map (fun i => pretty (N.of_nat i)) (seq 0 (length xs))) xs)
  | JStr s => Ok (zip (map (fun i => pretty (N.of_nat i)) (seq 0 (length s))) (map (fun c => JStr [c]) s))
  | JUndef | JNull => Throw (TypeError "Cannot convert undefined or null to object")
  | _ => Ok []
  end.

(** [merge(a, b)]: [mergeTo({}, a)] copies [a], then [mergeTo] with [b]. *)
Definition merge (a b : jsval) : result jsval :=
  let! ps := own_props a in
  let! qs := own_props b in
  Ok (JObj (merge_props (merge_props [] ps) qs)).

(** ** The factory *)

(** Node's [path.resolve] checks each argument: a project path that is not
    a string makes the first call of the literal, line 60, throw. *)
Definition check_path (projectAbsolutePath : jsval) : result unit :=
  match projectAbsolutePath with
  | JStr _ => Ok tt
  | _ => Throw (TypeError "The paths[0] argument must be of type string")
  end.

Definition create_config (projectAbsolutePath options customConfig : jsval) : result jsval :=
  let customConfig := default_to customConfig (JObj []) in
  let! o := read_options options in
  let! resolved := check_path projectAbsolutePath in
  let! config := merge (base_config projectAbsolutePath o) customConfig in
  Ok (if truthy (needSpeedMeasure o)
      then JExt "new SpeedMeasureWebpackPlugin().wrap" [config]
      else config).

(** ** [webpack-merge] on objects *)

Lemma assoc_app (ps qs : list (string * jsval)) k :
  assoc k (ps ++ qs) = match assoc k ps with Some v => Some v | None => assoc k qs end.
Proof. induction ps as [|[k' v'] ps IH]; simpl; [done|]. by destruct (String.eqb k k'). Qed.

(** What [mergeTo] gives for each key of its result. *)
Lemma merge_props_lookup f acc qs k :
  NoDup (map fst qs) ->
  assoc k (merge_props_with f acc qs) =
  match assoc k qs with
  | Some v => Some (keep (default JUndef (assoc k acc)) (f (default JUndef (assoc k acc)) v))
  | None => assoc k acc
  end.
Proof.
  revert acc. induction qs as [|[k0 v0] qs IH]; intros acc Hnd; simpl; [done|].
  apply NoDup_cons in Hnd as [Hk0 Hnd]. rewrite IH by done.
  destruct (String.eqb_spec k k0) as [->|Hne].
  - rewrite (proj2 (assoc_none_notin qs k0) Hk0). apply assoc_set_prop_eq.
  - by rewrite !assoc_set_prop_ne.
Qed.

Lemma keep_join_undef v : keep JUndef (join JUndef v) = v.
Proof. by destruct v. Qed.

(** [mergeTo({}, a)] copies an object with distinct keys. *)
Lemma merge_props_copy acc ps :
  NoDup (map fst ps) -> (forall k, k ∈ map fst ps -> assoc k acc = None) ->
  merge_props acc ps = acc ++ ps.
Proof.
  revert acc. induction ps as [|[k v] ps IH]; intros acc Hnd Hfresh; [by rewrite app_nil_r|].
  apply NoDup_cons in Hnd as [Hk Hnd].
  assert (Hacc : assoc k acc = None) by (apply Hfresh, elem_of_cons; by left).
  unfold merge_props; cbn [merge_props_with]. rewrite Hacc. cbn [default].
  rewrite keep_join_undef, set_prop_new by done. fold merge_props.
  rewrite IH; [by rewrite <- app_assoc|done|].
  intros k' Hk'. rewrite assoc_app, (Hfresh k') by (apply elem_of_cons; by right). simpl.
  destruct (String.eqb_spec k' k) as [->|]; [by destruct Hk|done].
Qed.

Lemma merge_objects ps qs :
  NoDup (map fst ps) -> merge (JObj ps) (JObj qs) = Ok (JObj (merge_props ps qs)).
Proof. intros H. unfold merge. simpl. rewrite (merge_props_copy [] ps); [done|done|by intros]. Qed.

Lemma base_config_obj p o : exists ps, base_config p o = JObj ps /\ NoDup (map fst ps).
Proof. apply obj_lit_nodup. Qed.

(** The factory on options it can read and a [customConfig] that is an
    object: the merge of the base object with it, wrapped or not. *)
Lemma create_config_ok pa opts o qs :
  read_options opts = Ok o ->
  exists ps, base_config (JStr pa) o = JObj ps /\ NoDup (map fst ps) /\
    create_config (JStr pa) opts (JObj qs) =
    Ok (if truthy (needSpeedMeasure o) then JExt "new SpeedMeasureWebpackPlugin().wrap" [JObj (merge_props ps qs)]
        else JObj (merge_props ps qs)).
Proof.
  intros Ho. destruct (base_config_obj (JStr pa) o) as (ps & Hps & Hnd). exists ps. split_and!; [done|done|].
  unfold create_config. cbn [default_to]. rewrite Ho. cbn [rbind check_path].
  rewrite Hps, merge_objects by done. reflexivity.
Qed.

(** ** The configuration *)

(** [merge] of two objects with distinct keys keeps the keys of the
    first, adds the new keys of the second, and for a key of the second
    combines the two values with [joinArrays] (arrays concatenated, objects
    merged, an [undefined] second value ignored, any other replacing). *)
Theorem merge_spec ps qs k :
  NoDup (map fst ps) -> NoDup (map fst qs) ->
  exists rs, merge (JObj ps) (JObj qs) = Ok (JObj rs) /\
    assoc k rs = match assoc k qs with
                 | Some v => Some (keep (prop (JObj ps) k) (join (prop (JObj ps) k) v))
                 | None => assoc k ps
                 end.
Proof.
  intros H1 H2. exists (merge_props ps qs). split; [by apply merge_objects|].
  unfold merge_props. by rewrite merge_props_lookup.
Qed.

(** C13: the factory throws exactly when [options] is [undefined] or
    [null] (it has no default, unlike [customConfig], although the JSDoc
    marks it optional), when [projectAbsolutePath] is not a string (the
    first [path.resolve] of the literal rejects it), or when
    [customConfig] is [null] (a default parameter replaces [undefined]
    only, and [Object.keys(null)] throws in [webpack-merge]). *)
Theorem create_config_throws p opts c :
  is_ok (create_config p opts c) = false <->
  opts = JUndef \/ opts = JNull \/ (forall s, p <> JStr s) \/ c = JNull.
Proof.
  unfold create_config. destruct (read_options opts) as [o|e] eqn:Ho.
  - assert (opts <> JUndef /\ opts <> JNull) as [Hu Hn] by (split; intros ->; discriminate).
    destruct p as [| | | | |pa| | | | |];
      try (cbn; split; [intros _; right; right; left; intros ? [=]|done]).
    assert (Hs : (forall s, JStr pa <> JStr s) <-> False) by (split; [intros H; by apply (H pa)|done]).
    rewrite Hs. destruct (base_config_obj (JStr pa) o) as (ps & Hps & _).
    cbn [rbind check_path]. unfold merge. rewrite Hps.
    destruct c; cbn; split; intros H; try discriminate; intuition congruence.
  - destruct opts; cbn; try discriminate; intuition.
Qed.

(** C15: without [customConfig] (or with [{}]) and without
    [needSpeedMeasure], the configuration is the object literal of the
    source itself: [merge] adds and changes nothing. *)
Theorem create_config_default_custom p opts o c :
  read_options opts = Ok o -> truthy (needSpeedMeasure o) = false -> c = JUndef \/ c = JObj [] ->
  create_config (JStr p) opts c = Ok (base_config (JStr p) o).
Proof.
  intros Ho Hs Hc. assert (create_config (JStr p) opts c = create_config (JStr p) opts (JObj [])) as ->
    by (destruct Hc as [-> | ->]; reflexivity).
  destruct (create_config_ok p opts o [] Ho) as (ps & Hps & _ & ->). by rewrite Hs, Hps.
Qed.

(** C16: the plugins of [customConfig] are appended to the factory's
    plugin list, not substituted for it. *)
Theorem create_config_custom_plugins p opts o qs extra :
  read_options opts = Ok o -> truthy (needSpeedMeasure o) = false -> NoDup (map fst qs) ->
  assoc "plugins" qs = Some (JArr extra) ->
  exists xs cfg, plugins_config o = JArr xs /\ create_config (JStr p) opts (JObj qs) = Ok cfg /\
    path_get cfg ["plugins"] = Some (JArr (xs ++ extra)).
Proof.
  intros Ho Hs Hnd Hq. destruct (create_config_ok p opts o qs Ho) as (ps & Hps & Hnd' & ->).
  rewrite Hs. eexists _, _. split_and!; [reflexivity|reflexivity|]. cbn [path_get].
  unfold merge_props. rewrite merge_props_lookup, Hq by done.
  assert (Hpl : prop (base_config (JStr p) o) "plugins" = plugins_config o)
    by (unfold base_config, mode_config, js_if; by destruct (truthy (isProduction o))).
  rewrite Hps in Hpl. cbn [prop] in Hpl. rewrite Hpl. reflexivity.
Qed.

(** C14: [isProduction] is read by its truthiness: a truthy value (also
    the string ["false"]) sets [mode: 'production'], the [chunkhash]
    file names and [minimize] to the value itself; a falsy one leaves
    [mode] unset, so webpack 4 falls back to its default mode, which is
    ['production'] as well. *)
Theorem create_config_mode p opts o :
  read_options opts = Ok o -> truthy (needSpeedMeasure o) = false ->
  exists cfg, create_config (JStr p) opts JUndef = Ok cfg /\
    path_get cfg ["mode"] = (if truthy (isProduction o) then Some (js "production") else None) /\
    path_get cfg ["output"; "filename"] =
      Some (if truthy (isProduction o) then js "[name].[chunkhash:8].js" else js "[name].[hash:8].js") /\
    path_get cfg ["optimization"; "minimize"] = Some (isProduction o).
Proof.
  intros Ho Hs. destruct (create_config_ok p opts o [] Ho) as (ps & Hps & _ & Hc).
  rewrite Hs in Hc. exists (JObj ps). split; [exact Hc|]. rewrite <- Hps.
  unfold base_config, mode_config, output_config, js_if. by destruct (truthy (isProduction o)).
Qed.

(** ** Objects as finite maps *)

(** The abstract view of an object: the finite map from its keys to its
    values (the first occurrence of a key, as property lookup reads it). *)
Definition obj_map (ps : list (string * jsval)) : gmap string jsval := list_to_map ps.

Lemma obj_map_lookup ps k : obj_map ps !! k = assoc k ps.
Proof.
  unfold obj_map. induction ps as [|[k' v] ps IH]; simpl; [apply lookup_empty|].
  rewrite lookup_insert. destruct (String.eqb_spec k k') as [->|Hne].
  - by rewrite decide_True.
  - rewrite decide_False by congruence. apply IH.
Qed.

(** [mergeTo] refines the union of finite maps combined by [joinArrays]. *)
Lemma merge_props_refines ps qs :
  NoDup (map fst qs) ->
  obj_map (merge_props ps qs) = union_with (fun a b => Some (keep a (join a b))) (obj_map ps) (obj_map qs).
Proof.
  intros Hnd. apply map_eq. intros k. rewrite lookup_union_with, !obj_map_lookup.
  unfold merge_props. rewrite merge_props_lookup by done.
  destruct (assoc k qs) as [v|], (assoc k ps) as [a|]; simpl; try done. by rewrite keep_join_undef.
Qed.

(** C23: seen as a finite map from keys to values, the configuration is
    the union of the factory's object literal and [customConfig], a key of
    both taking the value [joinArrays] computes from the two: the
    association list of [webpack-merge] refines this abstract merge (and
    adds only the order of the keys). *)
Theorem create_config_refines_union p opts o qs :
  read_options opts = Ok o -> truthy (needSpeedMeasure o) = false -> NoDup (map fst qs) ->
  exists ps rs, base_config (JStr p) o = JObj ps /\ create_config (JStr p) opts (JObj qs) = Ok (JObj rs) /\
    obj_map rs = union_with (fun a b => Some (keep a (join a b))) (obj_map ps) (obj_map qs).
Proof.
  intros Ho Hs Hnd. destruct (create_config_ok p opts o qs Ho) as (ps & Hps & _ & Hc).
  rewrite Hs in Hc. exists ps, (merge_props ps qs). split_and!; [done|done|].
  by apply merge_props_refines.
Qed.

(** ** Witnesses *)

Definition default_options : jsval := JObj [].

Lemma merge_spec_example :
  exists rs, merge (JObj [("plugins", JArr [JNum 1]); ("mode", js "production")])
                   (JObj [("plugins", JArr [JNum 2]); ("mode", JUndef); ("devtool", js "source-map")]) =
             Ok (JObj rs) /\
    assoc "plugins" rs = Some (JArr [JNum 1; JNum 2]).
Proof.
  apply (merge_spec [("plugins", JArr [JNum 1]); ("mode", js "production")]
                    [("plugins", JArr [JNum 2]); ("mode", JUndef); ("devtool", js "source-map")] "plugins");
    apply (bool_decide_unpack _); vm_compute; reflexivity.
Defined.

Lemma create_config_default_custom_witness :
  create_config (js "/app") default_options JUndef = Ok (base_config (js "/app")
    {| isProduction := JBool false; needAnalyzer := JBool false; needSpeedMeasure := JBool false;
       tinifyApiKey := js ""; entry := js "./src/index.js"; template := js "src/index.ejs";
       favicon := js ""; publicPath := js "/"; alias := JObj []; globalConstants := JObj [];
       port := JNum 8001; proxy := JObj []; host := js "0.0.0.0" |}).
Proof. apply create_config_default_custom; [reflexivity|reflexivity|by left]. Defined.

Lemma create_config_custom_plugins_witness :
  exists xs cfg, plugins_config {| isProduction := JBool false; needAnalyzer := JBool false; needSpeedMeasure := JBool false;
       tinifyApiKey := js ""; entry := js "./src/index.js"; template := js "src/index.ejs";
       favicon := js ""; publicPath := js "/"; alias := JObj []; globalConstants := JObj [];
       port := JNum 8001; proxy := JObj []; host := js "0.0.0.0" |} = JArr xs /\
    create_config (js "/app") default_options (JObj [("plugins", JArr [JExt "new CopyPlugin" []])]) = Ok cfg /\
    path_get cfg ["plugins"] = Some (JArr (xs ++ [JExt "new CopyPlugin" []])).
Proof.
  apply create_config_custom_plugins; [reflexivity|reflexivity| |reflexivity].
  apply (bool_decide_unpack _); vm_compute; reflexivity.
Defined.

Definition string_false_options : jsval := JObj [("isProduction", js "false")].

(** The string ["false"] (as read from an environment variable) is truthy. *)
Lemma create_config_mode_witness :
  exists cfg, create_config (js "/app") string_false_options JUndef = Ok cfg /\
    path_get cfg ["mode"] = Some (js "production") /\
    path_get cfg ["output"; "filename"] = Some (js "[name].[chunkhash:8].js") /\
    path_get cfg ["optimization"; "minimize"] = Some (js "false").
Proof.
  refine (create_config_mode (str "/app") string_false_options
            {| isProduction := js "false"; needAnalyzer := JBool false; needSpeedMeasure := JBool false;
               tinifyApiKey := js ""; entry := js "./src/index.js"; template := js "src/index.ejs";
               favicon := js ""; publicPath := js "/"; alias := JObj []; globalConstants := JObj [];
               port := JNum 8001; proxy := JObj []; host := js "0.0.0.0" |} _ _); reflexivity.
Defined.

Lemma create_config_refines_union_witness :
  exists ps rs, base_config (js "/app") {| isProduction := JBool false; needAnalyzer := JBool false;
       needSpeedMeasure := JBool false; tinifyApiKey := js ""; entry := js "./src/index.js";
       template := js "src/index.ejs"; favicon := js ""; publicPath := js "/"; alias := JObj [];
       globalConstants := JObj []; port := JNum 8001; proxy := JObj []; host := js "0.0.0.0" |} = JObj ps /\
    create_config (js "/app") default_options (JObj [("devtool", js "source-map")]) = Ok (JObj rs) /\
    obj_map rs = union_with (fun a b => Some (keep a (join a b))) (obj_map ps) (obj_map [("devtool", js "source-map")]).
Proof.
  apply create_config_refines_union; [reflexivity|reflexivity|].
  apply (bool_decide_unpack _); vm_compute; reflexivity.
Defined.
