(* ===== verification/Callbacks.v ===== *)
(** * Calling the functions of the configuration ([src/index.js] 161-231)

    The configuration holds functions as values ([JFun]): the [name]
    functions of the cache groups [bundle] and [dynamic], which webpack
    calls as [name(module, chunks, cacheGroupKey)] for each module a group
    selects; [chunksSortMode] and [templateParameters], which
    [HtmlWebpackPlugin] calls with two chunks and with the compilation; and
    the functions a [customConfig] may supply.  [call] gives them their
    meaning: the closures of the source run the definitions of
    [ChunkRules], [ChunkOrder] and [Prefetch] on what they read of their
    arguments ([module_arg], [chunk_arg], [compilation_arg]); the function
    [merge] makes of two functions ([join_functions], from [joinArrays]:
    [(...args) => _joinArrays(a(...args), b(...args), k)]) calls both, in
    order, and joins their results; any other function is one of
    [customConfig], whose behaviour the class [js_env] stands for.

    The theorems compose the factory with these calls: a [customConfig]
    that sets [optimization.splitChunks.cacheGroups.bundle.name] to a
    function does not replace the factory's function (both run on every
    module, and an exception of the factory's one escapes); and the
    prefetch closure prints the [publicPath] option it captured, [null]
    included. *)

From stdpp Require Import pretty gmap.
From S2P Require Import Prelude RegexSyntax JsRegex ChunkRules ChunkOrder Prefetch JsValue Config Loaders Factory.

(** ** The arguments and results of the [name] functions *)

(** What [name] reads of its first argument, the webpack module: the
    string [context] (webpack gives a string or [null]) and the resource
    its group's [test] saw. *)
Definition module_arg (args : list jsval) : module_info :=
  let m := default JUndef (head args) in
  {| context := match prop m "context" with JStr s => Some s | _ => None end;
     resource := match prop m "resource" with JStr s => Some s | _ => None end |}.

(** The value a [name] function returns: a string, or [undefined] when the
    loop of [bundle.name] falls through. *)
Definition name_value (r : option jstr) : jsval :=
  match r with Some s => JStr s | None => JUndef end.

(** [chunk.names[0].split('.')[0]] read from a chunk object: webpack's
    [chunk.names] is an array; an empty one, or one whose first name is
    [undefined], throws in [ChunkOrder.chunk_key]. *)
Definition chunk_arg (v : jsval) : result chunk :=
  let! nm := get v "names" in
  match nm with
  | JArr [] | JArr (JUndef :: _) => Ok {| chunk_id := 0; names := [] |}
  | JArr (JStr s :: _) => Ok {| chunk_id := 0; names := [s] |}
  | JUndef | JNull => Throw (TypeError "Cannot read properties of undefined (reading '0')")
  | _ => Throw (TypeError "chunk.names[0].split is not a function")
  end.

(** [Object.keys(compilation.assets)], the argument of [templateParameters]. *)
Definition compilation_arg (args : list jsval) : result compilation :=
  let! a := get (default JUndef (head args)) "assets" in
  let! ps := own_props a in
  Ok {| assets := map (fun kv => str kv.1) ps |}.

(** [{ prefetchAssets }] *)
Definition template_value (t : template_parameters) : jsval :=
  JObj [("prefetchAssets", JArr (map JStr (prefetchAssets t)))].

(** The functions the configuration creates, by their model's name. *)
Definition config_fun (n : string) : bool :=
  bool_decide (n = "bundle_name" \/ n = "dynamic_name" \/ n = "chunksSortMode" \/
               n = "templateParameters" \/ n = "join_functions").

(** ** Calls *)

(** What the JavaScript around the configuration contributes: the
    functions of [customConfig], given by what each returns (or throws) on
    its arguments, and the text of the values the model keeps symbolic. *)
Class js_env := {
  user_call : string -> list jsval -> list jsval -> result jsval;
  sym_string : jsval -> jstr
}.

Section Calls.

Context `{js_env}.

(** [f(...args)] for a function [f] of the configuration. *)
Fixpoint call (f : jsval) (args : list jsval) : result jsval :=
  match f with
  | JFun n env =>
      if String.eqb n "join_functions" then
        match env with
        | [a; b] => let! x := call a args in let! y := call b args in Ok (join x y)
        | _ => Throw (TypeError "join_functions")
        end
      else if String.eqb n "bundle_name" then
        let! r := bundle_name (module_arg args) in Ok (name_value r)
      else if String.eqb n "dynamic_name" then
        let! s := dynamic_name (module_arg args) in Ok (JStr s)
      else if String.eqb n "chunksSortMode" then
        match args with
        | a :: b :: _ =>
            let! k1 := (let! c := chunk_arg a in chunk_key c) in
            let! k2 := (let! c := chunk_arg b in chunk_key c) in
            Ok (JNum (k1 - k2))
        | _ => Throw (TypeError "Cannot read properties of undefined (reading 'names')")
        end
      else if String.eqb n "templateParameters" then
        match env with
        | [pp] => let! c := compilation_arg args in
                  Ok (template_value (templateParameters (to_string sym_string pp) c))
        | _ => Throw (TypeError "templateParameters")
        end
      else user_call n env args
  | _ => Throw (TypeError "name is not a function")
  end.

End Calls.

(** A [customConfig] that sets the [name] of the cache group [bundle]. *)
Definition custom_bundle_name (f : jsval) : jsval :=
  JObj [("optimization", JObj [("splitChunks", JObj [("cacheGroups",
    JObj [("bundle", JObj [("name", f)])])])])].

Definition bundle_name_path : list string :=
  ["optimization"; "splitChunks"; "cacheGroups"; "bundle"; "name"].

(** ** The factory with a custom [bundle.name] *)

Lemma base_config_optimization p o : prop (base_config p o) "optimization" = optimization_config o.
Proof. unfold base_config, mode_config, js_if. by destruct (truthy (isProduction o)). Qed.

(** [merge] puts at [bundle.name] the factory's function joined with the
    custom value. *)
Lemma create_config_bundle_name (p : jstr) opts o f :
  read_options opts = Ok o -> truthy (needSpeedMeasure o) = false ->
  exists cfg, create_config (JStr p) opts (custom_bundle_name f) = Ok cfg /\
    path_get cfg bundle_name_path = Some (keep (JFun "bundle_name" []) (join (JFun "bundle_name" []) f)).
Proof.
  intros Ho Hs. unfold custom_bundle_name.
  match goal with |- context [create_config _ _ (JObj ?qs)] =>
    destruct (create_config_ok p opts o qs Ho) as (ps & Hps & _ & ->) end. rewrite Hs.
  eexists. split; [reflexivity|]. pose proof (base_config_optimization (JStr p) o) as Hopt.
  rewrite Hps in Hopt. cbn [prop] in Hopt.
  unfold merge_props, bundle_name_path. cbn [merge_props_with path_get]. rewrite assoc_set_prop_eq.
  destruct (assoc "optimization" ps) as [a|]; simpl in Hopt; [|by unfold optimization_config in Hopt].
  cbn [default]. unfold id. rewrite Hopt. reflexivity.
Qed.

Lemma call_join `{js_env} a b args :
  call (JFun "join_functions" [a; b]) args =
  let! x := call a args in let! y := call b args in Ok (join x y).
Proof. reflexivity. Qed.

Lemma call_bundle_name `{js_env} args :
  call (JFun "bundle_name" []) args = let! r := bundle_name (module_arg args) in Ok (name_value r).
Proof. reflexivity. Qed.

Lemma call_user `{js_env} n env args :
  config_fun n = false -> call (JFun n env) args = user_call n env args.
Proof.
  unfold config_fun. intros Hn%bool_decide_eq_false. cbn [call].
  destruct (String.eqb_spec n "join_functions"), (String.eqb_spec n "bundle_name"),
    (String.eqb_spec n "dynamic_name"), (String.eqb_spec n "chunksSortMode"),
    (String.eqb_spec n "templateParameters"); naive_solver.
Qed.

Lemma join_string a s : join a (JStr s) = JStr s.
Proof. by destruct a. Qed.

Lemma read_options_publicPath opts o :
  read_options opts = Ok o -> publicPath o = default_to (prop opts "publicPath") (js "/").
Proof. destruct opts; cbn [read_options]; intros [= <-]; reflexivity. Qed.

Lemma prefetch_prefix pp comp :
  Forall (fun u => exists k, u = pp ++ k) (prefetchAssets (templateParameters pp comp)).
Proof. apply List.Forall_forall. intros u (k & <- & _)%in_map_iff. by exists k. Qed.

(** ** Properties *)

(** C25: a [customConfig] that sets [bundle.name] to a function of its own
    does not replace the factory's [name]: [merge] joins the two, so
    webpack calls the factory's function first on every module, and when
    it throws (as on a [node_modules_cache] directory) the exception
    escapes whatever the custom function would return; when it returns,
    the custom function runs and a string it returns is the name. *)
Theorem custom_bundle_name_runs_both `{js_env} (p : jstr) opts o n env :
  read_options opts = Ok o -> truthy (needSpeedMeasure o) = false -> config_fun n = false ->
  exists cfg h, create_config (JStr p) opts (custom_bundle_name (JFun n env)) = Ok cfg /\
    path_get cfg bundle_name_path = Some h /\
    forall args,
      (forall e, bundle_name (module_arg args) = Throw e -> call h args = Throw e) /\
      (forall x s, bundle_name (module_arg args) = Ok x -> user_call n env args = Ok (JStr s) ->
         call h args = Ok (JStr s)).
Proof.
  intros Ho Hs Hn. destruct (create_config_bundle_name p opts o (JFun n env) Ho Hs) as (cfg & Hc & Hp).
  exists cfg, (JFun "join_functions" [JFun "bundle_name" []; JFun n env]).
  split_and!; [done|done|]. intros args.
  rewrite call_join, call_bundle_name, call_user by done. split.
  - intros e He. by rewrite He.
  - intros x s Hx Hu. rewrite Hx, Hu. cbn [rbind]. by rewrite join_string.
Qed.

(** C27: the prefetch closure of the [HtmlWebpackPlugin] options, called
    by the plugin on a compilation, returns [templateParameters] of the
    template-literal string of the [publicPath] option it captured; an
    option [publicPath: null] is not replaced by the default ['/'] (a
    default applies to [undefined] only), so [output.publicPath] is [null]
    and every prefetch URL starts with ["null"]. *)
Theorem prefetch_closure_public_path `{js_env} p opts o ps :
  read_options opts = Ok o ->
  call (prop (html_options o) "templateParameters") [JObj [("assets", JObj ps)]] =
    Ok (template_value (templateParameters (to_string sym_string (publicPath o))
                                           {| assets := map (fun kv => str kv.1) ps |})) /\
  (prop opts "publicPath" = JNull ->
     prop (output_config p o) "publicPath" = JNull /\
     Forall (fun u => exists k, u = str "null" ++ k)
       (prefetchAssets (templateParameters (to_string sym_string (publicPath o))
                                           {| assets := map (fun kv => str kv.1) ps |}))).
Proof.
  intros Ho. split; [reflexivity|]. intros Hn.
  assert (Hp : publicPath o = JNull) by by rewrite (read_options_publicPath _ _ Ho), Hn.
  split; [change (publicPath o = JNull); exact Hp|]. rewrite Hp. apply prefetch_prefix.
Qed.

(** ** Witnesses *)

(** An environment whose custom functions all return ['vendors']. *)
Definition sample_env : js_env :=
  {| user_call := fun _ _ _ => Ok (js "vendors"); sym_string := fun _ => [] |}.

Lemma custom_bundle_name_runs_both_witness :
  exists cfg h, create_config (js "/proj") (JObj []) (custom_bundle_name (JFun "vendorName" [])) = Ok cfg /\
    path_get cfg bundle_name_path = Some h /\
    forall args,
      (forall e, bundle_name (module_arg args) = Throw e -> call (H := sample_env) h args = Throw e) /\
      (forall x s, bundle_name (module_arg args) = Ok x -> Ok (js "vendors") = Ok (JStr s) ->
         call (H := sample_env) h args = Ok (JStr s)).
Proof. eapply (custom_bundle_name_runs_both (H := sample_env) (str "/proj") (JObj []) _ "vendorName" []); reflexivity. Defined.

Lemma prefetch_closure_public_path_witness :
  call (H := sample_env) (prop (html_options (match read_options (JObj [("publicPath", JNull)]) with
                                              | Ok o => o | Throw _ => sample_options end))
                               "templateParameters")
       [JObj [("assets", JObj [("app.foo.dynamic.0123abcd.js", JStr [])])]] =
    Ok (JObj [("prefetchAssets", JArr [JStr (str "nullapp.foo.dynamic.0123abcd.js")])]).
Proof.
  rewrite (proj1 (prefetch_closure_public_path (H := sample_env) (js "/proj") (JObj [("publicPath", JNull)]) _ _
                    eq_refl)).
  vm_compute. reflexivity.
Defined.
