(* ===== verification/LintConfig.v ===== *)
(** * The lint configurations ([src/.eslintrc.js], [src/.prettierrc.js])

    Both files export an object literal.  [eslint_config] is the ESLint
    configuration with its two constants [WARN] and [OFF].
    [prettier_config] is the Prettier
    configuration, whose literal names [trailingComma] twice: the object
    literal semantics of [JsValue.obj_lit] keep the key at its first
    position with the last value. *)

From S2P Require Import Prelude JsValue.
From Stdlib Require Import ZArith.

(** ** [.eslintrc.js] *)

Definition WARN : jsval := js "warn".
Definition OFF : jsval := js "off".

Definition eslint_config : jsval :=
  obj_lit [Field "env" (obj_lit [Field "browser" (JBool true); Field "es6" (JBool true);
                                 Field "node" (JBool true)]);
           Field "extends" (JArr [js "eslint:recommended"; js "plugin:react/recommended";
                                  js "plugin:prettier/recommended"]);
           Field "parser" (js "babel-eslint");
           Field "plugins" (JArr [js "react"; js "prettier"]);
           Field "settings" (obj_lit [Field "react" (obj_lit [Field "version" (js "16.8.0")])]);
           Field "rules" (obj_lit [Field "quotes" (JArr [JNum 2; js "single"]);
                                   Field "prettier/prettier" WARN;
                                   Field "no-console" OFF;
                                   Field "no-debugger" OFF;
                                   Field "react/prop-types" OFF;
                                   Field "react/no-find-dom-node" OFF;
                                   Field "react/display-name" OFF;
                                   Field "no-empty-pattern" OFF])].

(** ** [.prettierrc.js] *)

Definition prettier_config : jsval :=
  obj_lit [Field "trailingComma" (js "all");
           Field "eslintIntegration" (JBool true);
           Field "stylelintIntegration" (JBool true);
           Field "tabWidth" (JNum 2);
           Field "semi" (JBool true);
           Field "singleQuote" (JBool true);
           Field "trailingComma" (js "none");
           Field "bracketSpacing" (JBool true)].
