(* ===== verification/SplitChunks.v ===== *)
(** * The cache groups as [SplitChunksPlugin] reads them ([src/index.js] 73-198)

    [Config.optimization_config] is the value the source writes for
    [optimization]; [ChunkRules] has the typed cache groups ([cacheGroups]),
    with the test pattern, name, [chunks] filter and [enforce] of each.

    A chunk is initial (it can be loaded by an entry point) or async;
    [chunks_admit] is the [chunks] filter of a group, falling back to
    [splitChunks.chunks] when the group has none; [selecting_groups] lists
    the groups whose test and filter take a module of a chunk.  Which of
    them finally receives the module is decided by the plugin by
    [priority], then by its own size heuristics: the theorem shows
    that the groups of the source overlap and none sets a priority. *)

From S2P Require Import Prelude RegexSyntax JsRegex ChunkRules JsValue Config.

(** ** Which groups take a module *)

Inductive chunk_kind := InitialChunk | AsyncChunk.

#[export] Instance chunk_kind_eq_dec : EqDecision chunk_kind.
Proof. solve_decision. Defined.

(** The [chunks] filter of a group, or [splitChunks.chunks] ([dflt])
    when the group has none: ['initial'], ['async'] or ['all']. *)
Definition chunks_admit (c : option chunks_filter) (dflt : jsval) (k : chunk_kind) : bool :=
  match c, k with
  | Some InitialChunks, InitialChunk | Some AsyncChunks, AsyncChunk => true
  | Some _, _ => false
  | None, _ =>
      match dflt with
      | JStr s => bool_decide (s = str "all") ||
                  (bool_decide (s = str "initial") && bool_decide (k = InitialChunk)) ||
                  (bool_decide (s = str "async") && bool_decide (k = AsyncChunk))
      | _ => false
      end
  end.

(** The groups whose [test] takes the module (in chunks named [cs]) and
    whose filter takes its chunk, in the order of [cacheGroups]. *)
Definition selecting_groups (groups : list (string * cache_group)) (dflt : jsval)
    (m : module_info) (cs : list jstr) (k : chunk_kind) : list string :=
  map fst (List.filter (fun '(_, g) => group_applies g m cs && chunks_admit (cg_chunks g) dflt k) groups).

(** ** Properties *)

(** C28: the groups of the source overlap: a module that passes the
    common test is taken, in an initial chunk, by [bundle] (whose filter
    is [splitChunks.chunks], ['all']) and by [initial], and in an async
    chunk by [bundle] and by [dynamic]; a module that fails it, on its
    resource and on the names of its chunks, by none.
    No group sets a [priority], so all have the default one and the plugin
    decides between the two by its own tie-break. *)
Theorem cache_groups_overlap o m cs :
  let dflt := default JUndef (path_get (optimization_config o) ["splitChunks"; "chunks"]) in
  selecting_groups cacheGroups dflt m cs InitialChunk =
    (if group_applies cg_bundle m cs then ["bundle"; "initial"] else []) /\
  selecting_groups cacheGroups dflt m cs AsyncChunk =
    (if group_applies cg_bundle m cs then ["bundle"; "dynamic"] else []) /\
  Forall (fun k => prop (prop cache_groups_config k) "priority" = JUndef) (map fst cacheGroups).
Proof.
  cbn zeta. split_and!; [..|repeat constructor].
  all: unfold selecting_groups, group_applies; cbn -[test re_node_modules];
    destruct (resource m) as [r|]; [destruct (test re_node_modules r)|];
    cbn [orb]; [reflexivity|..]; destruct (existsb _ cs); reflexivity.
Qed.

